(** * PhotoGallery: the local media store of [src/components/PhotoGallery.jsx]

    A shallow embedding of the gallery component's store logic: the two
    IndexedDB object stores ("files" for blobs, "photos" for metadata), the
    in-memory React state ([photos], [albums], [selectedView], ...), the URL
    cache, and the event handlers that mutate them.

    Conventions.
    - A JavaScript string is a Rocq [string]; its characters stand for the
      code units U+0000..U+00FF.
    - Everything the handlers obtain from outside the component is an explicit
      argument: the identifier returned by [generateId()], the text returned
      by [new Date().toISOString()], the URL returned by
      [URL.createObjectURL], and, for every IndexedDB transaction, a boolean
      telling whether it commits ([true]) or rejects ([false]).
    - [alert(...)] and [console.error(...)] append to two logs kept in the
      state; they are the only channels through which an event handler
      reports a failure (each of them returns [undefined]). *)

From Stdlib Require Import String Ascii ZArith List Bool Lia Sorting.Sorted Sorting.Permutation.
From stdpp Require Import base option gmap strings sorting.
Import ListNotations.

Open Scope string_scope.
Open Scope list_scope.

(** ** JavaScript string and array primitives used by the component *)

(** [s.startsWith(pre)] *)
Definition startsWith (s pre : string) : bool := String.prefix pre s.

(** [s.includes(sub)]: [sub] occurs in [s] at some position. *)
Fixpoint includes (s sub : string) : bool :=
  String.prefix sub s ||
  match s with
  | EmptyString => false
  | String _ s' => includes s' sub
  end.

(** [arr.includes(x)] on an array of strings. *)
Definition Array_includes (arr : list string) (x : string) : bool :=
  existsb (String.eqb x) arr.

(** White space and line terminators of ECMAScript among the code units
    below 256: TAB, LF, VT, FF, CR, SP and NBSP. *)
Definition isWhiteSpace (c : ascii) : bool :=
  let n := nat_of_ascii c in
  ((9 <=? n)%nat && (n <=? 13)%nat) || (n =? 32)%nat || (n =? 160)%nat.

Fixpoint trimStart (s : string) : string :=
  match s with
  | EmptyString => EmptyString
  | String c s' => if isWhiteSpace c then trimStart s' else s
  end.

Fixpoint trimEnd (s : string) : string :=
  match s with
  | EmptyString => EmptyString
  | String c s' =>
      match trimEnd s' with
      | EmptyString => if isWhiteSpace c then EmptyString else String c EmptyString
      | t => String c t
      end
  end.

(** [s.trim()] *)
Definition trim (s : string) : string := trimEnd (trimStart s).

(** [s.split(sep)[0]] for a one-character separator: the text before the
    first occurrence of [sep], the whole string when there is none. *)
Fixpoint split_head (sep : ascii) (s : string) : string :=
  match s with
  | EmptyString => EmptyString
  | String c s' => if Ascii.eqb c sep then EmptyString else String c (split_head sep s')
  end.

(** [Array.prototype.sort(cmp)]: the sort is stable, an element [a] is placed
    before [b] when [cmp a b < 0] and elements that compare equal keep their
    order.  For a consistent comparator every stable sort returns the list
    computed here. *)
Fixpoint sort_insert {A} (cmp : A -> A -> Z) (x : A) (l : list A) : list A :=
  match l with
  | [] => [x]
  | y :: l' => if (cmp x y <=? 0)%Z then x :: y :: l' else y :: sort_insert cmp x l'
  end.

Fixpoint Array_sort {A} (cmp : A -> A -> Z) (l : list A) : list A :=
  match l with
  | [] => []
  | x :: l' => sort_insert cmp x (Array_sort cmp l')
  end.

(** ** Data model *)

(** A [File] picked in the file input: [file.name], [file.type] (the declared
    MIME type), [file.size] and its bytes. *)
Record File := mkFile {
  file_name : string;
  file_type : string;
  file_size : N;
  file_bytes : string
}.

(** A record of the "photos" store.  [photo_albums] is [None] for a record
    that has no [albums] property (the code guards with [photo.albums || []]). *)
Record Photo := mkPhoto {
  photo_id : string;
  photo_name : string;
  photo_fileId : string;
  photo_type : string;
  photo_size : N;
  photo_date : string;
  photo_albums : option (list string)
}.

(** An album of the [albums] state.  The default album carries no [date]. *)
Record Album := mkAlbum {
  album_id : string;
  album_name : string;
  album_isDefault : bool;
  album_date : option string
}.

(** [{ visible, x, y, itemId }] *)
Record ContextMenu := mkContextMenu {
  cm_visible : bool;
  cm_x : Z;
  cm_y : Z;
  cm_itemId : option string
}.

(** The view state that the handlers reset but no store operation reads,
    apart from [selectedItems] and [isRenamingItem] ([{ id, type }]). *)
Record Ui := mkUi {
  selectedItems : list string;
  isSelecting : bool;
  viewMode : string;
  currentPhoto : option Photo;
  isAddingAlbum : bool;
  newAlbumName : string;
  isRenamingItem : option (string * string);
  newItemName : string;
  contextMenu : ContextMenu;
  draggedItem : option string;
  dragOverAlbum : option string
}.

Record State := mkState {
  photos : list Photo;                (* useState([]) *)
  albums : list Album;                (* useState(...) *)
  selectedView : string;
  searchTerm : string;
  ui : Ui;
  dbRef : bool;                       (* dbRef.current !== null *)
  filesStore : gmap string File;      (* object store "files", keyPath id *)
  photosStore : gmap string Photo;    (* object store "photos", keyPath id *)
  urlCache : gmap string string;      (* urlCache.current *)
  revokedUrls : list string;          (* arguments of URL.revokeObjectURL *)
  alerts : list string;               (* arguments of alert *)
  consoleErrors : list string         (* first argument of console.error *)
}.

Definition set_photos (v : list Photo) (s : State) : State :=
  mkState v (albums s) (selectedView s) (searchTerm s) (ui s) (dbRef s) (filesStore s)
          (photosStore s) (urlCache s) (revokedUrls s) (alerts s) (consoleErrors s).
Definition set_albums (v : list Album) (s : State) : State :=
  mkState (photos s) v (selectedView s) (searchTerm s) (ui s) (dbRef s) (filesStore s)
          (photosStore s) (urlCache s) (revokedUrls s) (alerts s) (consoleErrors s).
Definition set_selectedView (v : string) (s : State) : State :=
  mkState (photos s) (albums s) v (searchTerm s) (ui s) (dbRef s) (filesStore s)
          (photosStore s) (urlCache s) (revokedUrls s) (alerts s) (consoleErrors s).
Definition set_searchTerm (v : string) (s : State) : State :=
  mkState (photos s) (albums s) (selectedView s) v (ui s) (dbRef s) (filesStore s)
          (photosStore s) (urlCache s) (revokedUrls s) (alerts s) (consoleErrors s).
Definition set_ui (v : Ui) (s : State) : State :=
  mkState (photos s) (albums s) (selectedView s) (searchTerm s) v (dbRef s) (filesStore s)
          (photosStore s) (urlCache s) (revokedUrls s) (alerts s) (consoleErrors s).
Definition set_dbRef (v : bool) (s : State) : State :=
  mkState (photos s) (albums s) (selectedView s) (searchTerm s) (ui s) v (filesStore s)
          (photosStore s) (urlCache s) (revokedUrls s) (alerts s) (consoleErrors s).
Definition set_filesStore (v : gmap string File) (s : State) : State :=
  mkState (photos s) (albums s) (selectedView s) (searchTerm s) (ui s) (dbRef s) v
          (photosStore s) (urlCache s) (revokedUrls s) (alerts s) (consoleErrors s).
Definition set_photosStore (v : gmap string Photo) (s : State) : State :=
  mkState (photos s) (albums s) (selectedView s) (searchTerm s) (ui s) (dbRef s) (filesStore s)
          v (urlCache s) (revokedUrls s) (alerts s) (consoleErrors s).
Definition set_urlCache (v : gmap string string) (s : State) : State :=
  mkState (photos s) (albums s) (selectedView s) (searchTerm s) (ui s) (dbRef s) (filesStore s)
          (photosStore s) v (revokedUrls s) (alerts s) (consoleErrors s).
Definition set_revokedUrls (v : list string) (s : State) : State :=
  mkState (photos s) (albums s) (selectedView s) (searchTerm s) (ui s) (dbRef s) (filesStore s)
          (photosStore s) (urlCache s) v (alerts s) (consoleErrors s).

(** [console.error(msg, error)] *)
Definition console_error (msg : string) (s : State) : State :=
  mkState (photos s) (albums s) (selectedView s) (searchTerm s) (ui s) (dbRef s) (filesStore s)
          (photosStore s) (urlCache s) (revokedUrls s) (alerts s) (consoleErrors s ++ [msg]).

(** [alert(msg)] *)
Definition alert (msg : string) (s : State) : State :=
  mkState (photos s) (albums s) (selectedView s) (searchTerm s) (ui s) (dbRef s) (filesStore s)
          (photosStore s) (urlCache s) (revokedUrls s) (alerts s ++ [msg]) (consoleErrors s).

(** [{ visible: false, x: 0, y: 0, itemId: null }] *)
Definition contextMenu_hidden : ContextMenu := mkContextMenu false 0 0 None.

(** The state of a freshly mounted component over an empty database and an
    empty [localStorage]. *)
Definition default_album : Album := mkAlbum "all" "Todas as Fotos" true None.

Definition initial_ui : Ui :=
  mkUi [] false "grid" None false "" None "" contextMenu_hidden None None.

Definition initial_state : State :=
  mkState [] [default_album] "all" "" initial_ui false ∅ ∅ ∅ [] [] [].

(** [photo.albums || []] *)
Definition albums_or_empty (p : Photo) : list string :=
  match photo_albums p with
  | Some l => l
  | None => []
  end.

(** [{ ...photo, albums: v }] and [{ ...photo, name: v }] *)
Definition with_albums (v : list string) (p : Photo) : Photo :=
  mkPhoto (photo_id p) (photo_name p) (photo_fileId p) (photo_type p) (photo_size p)
          (photo_date p) (Some v).
Definition with_name (v : string) (p : Photo) : Photo :=
  mkPhoto (photo_id p) v (photo_fileId p) (photo_type p) (photo_size p)
          (photo_date p) (photo_albums p).

(** [store.put(photo)] for each photo of a list, in one transaction. *)
Definition put_all (l : list Photo) (m : gmap string Photo) : gmap string Photo :=
  fold_left (fun acc p => <[photo_id p := p]> acc) l m.

(** [store.delete(id)] for each id of a list, in one transaction. *)
Definition delete_all {V} (ids : list string) (m : gmap string V) : gmap string V :=
  fold_left (fun acc i => delete i acc) ids m.

(** [photos.find((photo) => photo.id === photoId)] *)
Definition find_photo (photoId : string) (l : list Photo) : option Photo :=
  List.find (fun p => String.eqb (photo_id p) photoId) l.

(** [photo.albums && photo.albums.includes(a)] *)
Definition has_album (p : Photo) (a : string) : bool :=
  match photo_albums p with
  | Some l => Array_includes l a
  | None => false
  end.

(** ** handleFileUpload *)

(** What one run of the [files.map] callback draws from its environment:
    the result of [generateId()], of [new Date().toISOString()], and whether
    the two [put] transactions commit. *)
Record UploadEnv := mkUploadEnv {
  gen_id : string;
  now_iso : string;
  file_put_ok : bool;
  photo_put_ok : bool
}.

(** The [newPhoto] object built by the callback. *)
Definition newPhoto (selView : string) (file : File) (e : UploadEnv) : Photo :=
  let fileId := gen_id e in
  let fileType := if startsWith (file_type file) "video/" then "video" else "image" in
  mkPhoto fileId (file_name file) fileId fileType (file_size file) (now_iso e)
          (Some (["all"] ++ (if String.eqb selView "all" then [] else [selView]))).

(** One run of the callback on the two object stores.  The result is the
    value the callback's promise fulfils with, [None] when it rejects. *)
Definition upload_one (selView : string) (fe : File * UploadEnv)
    (fs : gmap string File) (ps : gmap string Photo)
    : gmap string File * gmap string Photo * option Photo :=
  let '(file, e) := fe in
  if negb (file_put_ok e) then (fs, ps, None)
  else
    let fs' := <[gen_id e := file]> fs in
    if negb (photo_put_ok e) then (fs', ps, None)
    else
      let p := newPhoto selView file e in
      (fs', <[photo_id p := p]> ps, Some p).

(** All callbacks started by [files.map]: a callback that rejects does not
    stop the others, each one runs to its own end. *)
Fixpoint upload_all (selView : string) (l : list (File * UploadEnv))
    (fs : gmap string File) (ps : gmap string Photo)
    : gmap string File * gmap string Photo * list (option Photo) :=
  match l with
  | [] => (fs, ps, [])
  | fe :: l' =>
      let '(fs1, ps1, r) := upload_one selView fe fs ps in
      let '(fs2, ps2, rs) := upload_all selView l' fs1 ps1 in
      (fs2, ps2, r :: rs)
  end.

(** [Promise.all]: fulfils with all values, rejects when one promise does. *)
Fixpoint Promise_all {A} (l : list (option A)) : option (list A) :=
  match l with
  | [] => Some []
  | None :: _ => None
  | Some x :: l' =>
      match Promise_all l' with
      | Some xs => Some (x :: xs)
      | None => None
      end
  end.

Definition upload_failed (s : State) : State :=
  alert "Failed to upload files. Please try again." (console_error "Error uploading files:" s).

(** [initOk] tells whether [initDB()] succeeds when [dbRef.current] is unset. *)
Definition handleFileUpload (initOk : bool) (files : list (File * UploadEnv)) (s : State) : State :=
  match files with
  | [] => s
  | _ =>
      if negb (dbRef s) && negb initOk then upload_failed s
      else
        let s1 := set_dbRef true s in
        let '(fs, ps, rs) := upload_all (selectedView s) files (filesStore s) (photosStore s) in
        let s2 := set_photosStore ps (set_filesStore fs s1) in
        match Promise_all rs with
        | Some newPhotos => set_photos (photos s ++ newPhotos) s2
        | None => upload_failed s2
        end
  end.

(** ** handleDeletePhotos *)

(** The body of the [photoIds.forEach] that cleans the URL cache. *)
Definition evict (i : string) (s : State) : State :=
  match urlCache s !! i with
  | Some url => set_urlCache (delete i (urlCache s)) (set_revokedUrls (revokedUrls s ++ [url]) s)
  | None => s
  end.

Definition evict_all (ids : list string) (s : State) : State :=
  fold_left (fun acc i => evict i acc) ids s.

Definition delete_failed (s : State) : State :=
  alert "Failed to delete photos. Please try again." (console_error "Error deleting photos:" s).

Definition ui_after_delete (u : Ui) : Ui :=
  mkUi [] false "grid" None (isAddingAlbum u) (newAlbumName u) (isRenamingItem u)
       (newItemName u) contextMenu_hidden (draggedItem u) (dragOverAlbum u).

(** [filesOk] and [photosOk]: whether the transaction on "files", then the
    one on "photos", commits. *)
Definition handleDeletePhotos (filesOk photosOk : bool) (photoIds : list string) (s : State) : State :=
  if negb (dbRef s) then s
  else if negb filesOk then delete_failed s
  else
    let s1 := set_filesStore (delete_all photoIds (filesStore s)) s in
    if negb photosOk then delete_failed s1
    else
      let s2 := set_photosStore (delete_all photoIds (photosStore s)) s1 in
      let s3 := evict_all photoIds s2 in
      set_ui (ui_after_delete (ui s))
        (set_photos
           (List.filter (fun photo => negb (Array_includes photoIds (photo_id photo))) (photos s))
           s3).

(** ** handleDeleteAlbum *)

Definition scrub_album (albumId : string) (photo : Photo) : Photo :=
  with_albums (List.filter (fun i => negb (String.eqb i albumId)) (albums_or_empty photo)) photo.

Definition handleDeleteAlbum (txOk : bool) (albumId : string) (s : State) : State :=
  if String.eqb albumId "all" then s
  else
    let s1 := set_albums (List.filter (fun album => negb (String.eqb (album_id album) albumId)) (albums s)) s in
    let updatedPhotos := List.map (scrub_album albumId) (photos s) in
    (* updatePhotosInDB() *)
    let s2 :=
      if dbRef s && txOk then set_photosStore (put_all updatedPhotos (photosStore s)) s1
      else console_error "Error updating photos after album deletion:" s1 in
    let s3 := set_photos updatedPhotos s2 in
    if String.eqb (selectedView s) albumId then set_selectedView "all" s3 else s3.

(** ** handleAddToAlbum and handleRemoveFromAlbum *)

(** The [try] block shared by the single-photo handlers: open a transaction
    on "photos", [put] the updated photo when [find] returns one, await
    [tx.done].  Opening the transaction throws when [dbRef.current] is unset;
    the [put] rejects when the transaction does not commit.  [None] stands
    for the exception. *)
Definition put_found (txOk : bool) (photoToUpdate : option Photo) (s : State)
    : option (gmap string Photo) :=
  if negb (dbRef s) then None
  else
    match photoToUpdate with
    | Some p => if txOk then Some (<[photo_id p := p]> (photosStore s)) else None
    | None => Some (photosStore s)
    end.

Definition add_album (photoId albumId : string) (photo : Photo) : Photo :=
  if String.eqb (photo_id photo) photoId then
    if negb (has_album photo albumId) then with_albums (albums_or_empty photo ++ [albumId]) photo
    else photo
  else photo.

Definition ui_after_add (u : Ui) : Ui :=
  mkUi (selectedItems u) (isSelecting u) (viewMode u) (currentPhoto u) (isAddingAlbum u)
       (newAlbumName u) (isRenamingItem u) (newItemName u) contextMenu_hidden None None.

Definition handleAddToAlbum (txOk : bool) (photoId albumId : string) (s : State) : State :=
  if String.eqb albumId "all" then s
  else
    let updatedPhotos := List.map (add_album photoId albumId) (photos s) in
    match put_found txOk (find_photo photoId updatedPhotos) s with
    | None => console_error "Error adding photo to album:" s
    | Some ps => set_ui (ui_after_add (ui s)) (set_photos updatedPhotos (set_photosStore ps s))
    end.

Definition remove_album (photoId albumId : string) (photo : Photo) : Photo :=
  if String.eqb (photo_id photo) photoId then scrub_album albumId photo else photo.

Definition handleRemoveFromAlbum (txOk : bool) (photoId albumId : string) (s : State) : State :=
  if String.eqb albumId "all" then s
  else
    let updatedPhotos := List.map (remove_album photoId albumId) (photos s) in
    match put_found txOk (find_photo photoId updatedPhotos) s with
    | None => console_error "Error removing photo from album:" s
    | Some ps => set_photos updatedPhotos (set_photosStore ps s)
    end.

(** ** handleRename (inside RenameModal) *)

(** [setIsRenamingItem(null); setNewItemName('')] *)
Definition ui_close_rename (u : Ui) : Ui :=
  mkUi (selectedItems u) (isSelecting u) (viewMode u) (currentPhoto u) (isAddingAlbum u)
       (newAlbumName u) None "" (contextMenu u) (draggedItem u) (dragOverAlbum u).

Definition rename_photo (rid newName : string) (photo : Photo) : Photo :=
  if String.eqb (photo_id photo) rid then with_name newName photo else photo.

Definition rename_album (rid newName : string) (album : Album) : Album :=
  if String.eqb (album_id album) rid
  then mkAlbum (album_id album) newName (album_isDefault album) (album_date album)
  else album.

(** [localItemName] is the text of the modal's input.  The modal renders
    nothing, and so offers no way to call the handler, while
    [isRenamingItem] is [null]. *)
Definition handleRename (txOk : bool) (localItemName : string) (s : State) : State :=
  if String.eqb (trim localItemName) "" then s
  else
    match isRenamingItem (ui s) with
    | None => s
    | Some (rid, rtype) =>
        if String.eqb rtype "photo" then
          let updatedPhotos := List.map (rename_photo rid (trim localItemName)) (photos s) in
          match put_found txOk (find_photo rid updatedPhotos) s with
          | None =>
              alert "Failed to rename photo. Please try again."
                    (console_error "Error renaming photo:" s)
          | Some ps =>
              set_ui (ui_close_rename (ui s)) (set_photos updatedPhotos (set_photosStore ps s))
          end
        else if String.eqb rtype "album" then
          set_ui (ui_close_rename (ui s))
                 (set_albums (List.map (rename_album rid (trim localItemName)) (albums s)) s)
        else set_ui (ui_close_rename (ui s)) s
    end.

(** ** handleCreateAlbum (inside AlbumModal) *)

Definition attach_album (selected : list string) (newId : string) (photo : Photo) : Photo :=
  if Array_includes selected (photo_id photo)
  then with_albums (albums_or_empty photo ++ [newId]) photo
  else photo.

(** [setNewAlbumName(''); setIsAddingAlbum(false)] *)
Definition ui_close_album (u : Ui) : Ui :=
  mkUi (selectedItems u) (isSelecting u) (viewMode u) (currentPhoto u) false
       "" (isRenamingItem u) (newItemName u) (contextMenu u) (draggedItem u) (dragOverAlbum u).

(** [setSelectedItems([]); setIsSelecting(false)] *)
Definition ui_clear_selection (u : Ui) : Ui :=
  mkUi [] false (viewMode u) (currentPhoto u) (isAddingAlbum u)
       (newAlbumName u) (isRenamingItem u) (newItemName u) (contextMenu u) (draggedItem u)
       (dragOverAlbum u).

(** [newId] and [nowIso] are the results of [generateId()] and of
    [new Date().toISOString()]. *)
Definition handleCreateAlbum (newId nowIso : string) (txOk : bool) (localAlbumName : string)
    (s : State) : State :=
  if String.eqb (trim localAlbumName) "" then s
  else
    let newAlbum := mkAlbum newId (trim localAlbumName) false (Some nowIso) in
    let s1 := set_ui (ui_close_album (ui s)) (set_albums (albums s ++ [newAlbum]) s) in
    match selectedItems (ui s) with
    | [] => s1
    | _ =>
        let selected := selectedItems (ui s) in
        let updatedPhotos := List.map (attach_album selected newId) (photos s) in
        if dbRef s && txOk then
          set_ui (ui_clear_selection (ui s1))
            (set_photos updatedPhotos
               (set_photosStore
                  (put_all (List.filter (fun photo => Array_includes selected (photo_id photo))
                                        updatedPhotos)
                           (photosStore s))
                  s1))
        else
          alert "Failed to add photos to the new album. Please try again."
                (console_error "Error adding photos to new album:" s1)
    end.

(** ** loadFileUrl: the URL cache *)

Definition placeholder : string := "/placeholder.svg".

(** The function is [async] and has one [await], on [store.get(fileId)]:
    a call runs in two parts, and other code may run between them. *)

(** Where a call stands after its first part: it has returned [url], or it
    waits for the read it has requested, which will deliver [file]. *)
Inductive LoadStep :=
| Returned (url : string)
| Awaiting (file : option File).

(** The first part, up to the [await]: the two guards, the test of the
    cache and the request of the read.  It changes nothing. *)
Definition loadFileUrl_begin (fileId : string) (s : State) : LoadStep :=
  if negb (dbRef s) || String.eqb fileId "" then Returned placeholder
  else
    match urlCache s !! fileId with
    | Some url => Returned url
    | None => Awaiting (filesStore s !! fileId)
    end.

(** The second part, run when the read settles, in the state of that
    moment.  [getOk]: whether the read succeeds; [file]: what it delivers;
    [freshUrl]: the result of [URL.createObjectURL].  The first component is
    the value the returned promise fulfils with, [None] when it rejects; the
    cache is not tested again before it is filled. *)
Definition loadFileUrl_resume (getOk : bool) (freshUrl : string) (fileId : string)
    (file : option File) (s : State) : option string * State :=
  if negb getOk then (None, s)
  else
    match file with
    | Some _ => (Some freshUrl, set_urlCache (<[fileId := freshUrl]> (urlCache s)) s)
    | None => (Some placeholder, s)
    end.

(** A call between whose two parts nothing else runs. *)
Definition loadFileUrl (getOk : bool) (freshUrl : string) (fileId : string) (s : State)
    : option string * State :=
  match loadFileUrl_begin fileId s with
  | Returned url => (Some url, s)
  | Awaiting file => loadFileUrl_resume getOk freshUrl fileId file s
  end.

(** ** setupDB: the effect run when the component mounts *)

(** Keys of an object store are ordered as their texts are. *)
Definition key_le {V} (a b : string * V) : Prop := Is_true (String.leb (fst a) (fst b)).

#[global] Instance key_le_dec {V} (a b : string * V) : Decision (key_le a b).
Proof. unfold key_le. apply _. Defined.

(** [store.getAll()]: every record, in the order of the keys. *)
Definition getAll {V} (m : gmap string V) : list V :=
  List.map snd (merge_sort key_le (map_to_list m)).

(** [openOk]: whether [initDB()] succeeds; [readOk]: whether the read of
    "photos" then succeeds.  The function has no [catch]: a failure rejects
    its promise, which nothing handles, and what was assigned before the
    failure stays assigned. *)
Definition setupDB (openOk readOk : bool) (s : State) : State :=
  if negb openOk then s
  else
    let s1 := set_dbRef true s in
    if negb readOk then s1
    else set_photos (getAll (photosStore s)) s1.

(** ** The derived view: filteredPhotos, groupedPhotos, sortedDates, album list *)

(** [groups[date]] and the [push]: the object built by the [reduce] is a list
    of entries in the order their keys were first assigned (date texts are
    not integer-like keys, so this is the order of [Object.keys]); each
    entry holds the array that [push] extends in place. *)
Fixpoint group_push (date : string) (photo : Photo) (groups : list (string * list Photo))
    : list (string * list Photo) :=
  match groups with
  | [] => [(date, [photo])]
  | (k, v) :: rest =>
      if String.eqb k date then (k, v ++ [photo]) :: rest
      else (k, v) :: group_push date photo rest
  end.

(** [groups[date]] read back. *)
Fixpoint group_get (date : string) (groups : list (string * list Photo)) : option (list Photo) :=
  match groups with
  | [] => None
  | (k, v) :: rest => if String.eqb k date then Some v else group_get date rest
  end.

(** [photo.date.split("T")[0]] *)
Definition date_key (photo : Photo) : string := split_head "T"%char (photo_date photo).

Section AlbumIndex.

(** [String.prototype.toLowerCase] and the time value of [new Date(text)]
    ([None] for an invalid date, whose time value is [NaN]) belong to the
    JavaScript runtime; the view is defined for any such pair. *)
Variable toLowerCase : string -> string.
Variable Date_time : string -> option Z.

Definition inSelectedAlbum (s : State) (photo : Photo) : bool :=
  String.eqb (selectedView s) "all" || has_album photo (selectedView s).

Definition matchesSearch (s : State) (photo : Photo) : bool :=
  String.eqb (searchTerm s) "" ||
  includes (toLowerCase (photo_name photo)) (toLowerCase (searchTerm s)).

Definition filteredPhotos (s : State) : list Photo :=
  List.filter (fun photo => inSelectedAlbum s photo && matchesSearch s photo) (photos s).

Definition groupedPhotos (s : State) : list (string * list Photo) :=
  fold_left (fun groups photo => group_push (date_key photo) photo groups)
            (filteredPhotos s) [].

(** [new Date(b) - new Date(a)]; a [NaN] result counts as [+0] in [sort]. *)
Definition date_cmp (a b : string) : Z :=
  match Date_time b, Date_time a with
  | Some tb, Some ta => (tb - ta)%Z
  | _, _ => 0%Z
  end.

Definition sortedDates (s : State) : list string :=
  Array_sort date_cmp (List.map fst (groupedPhotos s)).

(** [new Date(album.date)]: an album without [date] gives an invalid date. *)
Definition album_time (album : Album) : option Z :=
  match album_date album with
  | Some d => Date_time d
  | None => None
  end.

Definition album_cmp (a b : Album) : Z :=
  match album_time b, album_time a with
  | Some tb, Some ta => (tb - ta)%Z
  | _, _ => 0%Z
  end.

(** The albums rendered in the sidebar:
    [albums.filter((album) => !album.isDefault).sort(...)]. *)
Definition sidebarAlbums (s : State) : list Album :=
  Array_sort album_cmp (List.filter (fun album => negb (album_isDefault album)) (albums s)).

End AlbumIndex.

(** ** Instances of the runtime functions, for running the view *)

(** [toLowerCase] on the code units below 256: A-Z and the Latin-1 capitals
    U+00C0..U+00DE except the multiplication sign U+00D7. *)
Definition lower_char (c : ascii) : ascii :=
  let n := nat_of_ascii c in
  if ((65 <=? n) && (n <=? 90))%nat then ascii_of_nat (n + 32)
  else if ((192 <=? n) && (n <=? 222) && negb (n =? 215))%nat then ascii_of_nat (n + 32)
  else c.

Fixpoint latin1_toLowerCase (s : string) : string :=
  match s with
  | EmptyString => EmptyString
  | String c s' => String (lower_char c) (latin1_toLowerCase s')
  end.

Definition digit_of (c : ascii) : option Z :=
  let n := nat_of_ascii c in
  if ((48 <=? n) && (n <=? 57))%nat then Some (Z.of_nat (n - 48)) else None.

Fixpoint digits_value (acc : Z) (l : list ascii) : option Z :=
  match l with
  | [] => Some acc
  | c :: l' =>
      match digit_of c with
      | Some d => digits_value (10 * acc + d)%Z l'
      | None => None
      end
  end.

(** Days from 1970-01-01 to a date of the proleptic Gregorian calendar. *)
Definition days_from_civil (y m d : Z) : Z :=
  let y' := (if m <=? 2 then y - 1 else y)%Z in
  let era := (y' / 400)%Z in
  let yoe := (y' - era * 400)%Z in
  let mp := ((m + 9) mod 12)%Z in
  let doy := ((153 * mp + 2) / 5 + d - 1)%Z in
  let doe := (yoe * 365 + yoe / 4 - yoe / 100 + doy)%Z in
  (era * 146097 + doe - 719468)%Z.

(** [YYYY-MM-DD] as a number of days. *)
Definition parse_date (l : list ascii) : option Z :=
  match l with
  | [y1; y2; y3; y4; "-"%char; m1; m2; "-"%char; d1; d2] =>
      match digits_value 0 [y1; y2; y3; y4], digits_value 0 [m1; m2], digits_value 0 [d1; d2] with
      | Some y, Some m, Some d =>
          if ((1 <=? m) && (m <=? 12) && (1 <=? d) && (d <=? 31))%Z
          then Some (days_from_civil y m d)
          else None
      | _, _, _ => None
      end
  | _ => None
  end.

(** Nothing, or [THH:mm:ss.sssZ], as milliseconds into the day. *)
Definition parse_time_of_day (l : list ascii) : option Z :=
  match l with
  | [] => Some 0%Z
  | ["T"%char; h1; h2; ":"%char; m1; m2; ":"%char; s1; s2; "."%char; f1; f2; f3; "Z"%char] =>
      match digits_value 0 [h1; h2], digits_value 0 [m1; m2], digits_value 0 [s1; s2],
            digits_value 0 [f1; f2; f3] with
      | Some h, Some m, Some sec, Some f =>
          if ((h <=? 23) && (m <=? 59) && (sec <=? 59))%Z
          then Some (((h * 60 + m) * 60 + sec) * 1000 + f)%Z
          else None
      | _, _, _, _ => None
      end
  | _ => None
  end.

(** The time value of [new Date(text)] for the two formats the component
    produces: the date-only key [YYYY-MM-DD] and the full output of
    [toISOString], both read as UTC.  Every other text is taken as invalid. *)
Definition iso_date_time (s : string) : option Z :=
  let l := list_ascii_of_string s in
  match parse_date (firstn 10 l), parse_time_of_day (skipn 10 l) with
  | Some days, Some ms => Some (days * 86400000 + ms)%Z
  | _, _ => None
  end.

(** ** Sequences of operations *)

(** The handlers and the plain state setters the interface offers. *)
Inductive Op :=
| OpSetupDB (openOk readOk : bool)
| OpUpload (initOk : bool) (files : list (File * UploadEnv))
| OpDeletePhotos (filesOk photosOk : bool) (photoIds : list string)
| OpDeleteAlbum (txOk : bool) (albumId : string)
| OpAddToAlbum (txOk : bool) (photoId albumId : string)
| OpRemoveFromAlbum (txOk : bool) (photoId albumId : string)
| OpRename (txOk : bool) (localItemName : string)
| OpCreateAlbum (newId nowIso : string) (txOk : bool) (localAlbumName : string)
| OpLoadFileUrl (getOk : bool) (freshUrl fileId : string)
| OpSetSelectedView (v : string)
| OpSetSearchTerm (v : string)
| OpSetSelectedItems (v : list string)
| OpSetIsRenamingItem (v : option (string * string)).

Definition ui_set_selectedItems (v : list string) (u : Ui) : Ui :=
  mkUi v (isSelecting u) (viewMode u) (currentPhoto u) (isAddingAlbum u)
       (newAlbumName u) (isRenamingItem u) (newItemName u) (contextMenu u) (draggedItem u)
       (dragOverAlbum u).

Definition ui_set_isRenamingItem (v : option (string * string)) (u : Ui) : Ui :=
  mkUi (selectedItems u) (isSelecting u) (viewMode u) (currentPhoto u) (isAddingAlbum u)
       (newAlbumName u) v (newItemName u) (contextMenu u) (draggedItem u) (dragOverAlbum u).

Definition step (o : Op) (s : State) : State :=
  match o with
  | OpSetupDB openOk readOk => setupDB openOk readOk s
  | OpUpload initOk files => handleFileUpload initOk files s
  | OpDeletePhotos filesOk photosOk photoIds => handleDeletePhotos filesOk photosOk photoIds s
  | OpDeleteAlbum txOk albumId => handleDeleteAlbum txOk albumId s
  | OpAddToAlbum txOk photoId albumId => handleAddToAlbum txOk photoId albumId s
  | OpRemoveFromAlbum txOk photoId albumId => handleRemoveFromAlbum txOk photoId albumId s
  | OpRename txOk localItemName => handleRename txOk localItemName s
  | OpCreateAlbum newId nowIso txOk localAlbumName =>
      handleCreateAlbum newId nowIso txOk localAlbumName s
  | OpLoadFileUrl getOk freshUrl fileId => snd (loadFileUrl getOk freshUrl fileId s)
  | OpSetSelectedView v => set_selectedView v s
  | OpSetSearchTerm v => set_searchTerm v s
  | OpSetSelectedItems v => set_ui (ui_set_selectedItems v (ui s)) s
  | OpSetIsRenamingItem v => set_ui (ui_set_isRenamingItem v (ui s)) s
  end.

Definition run (ops : list Op) (s : State) : State :=
  fold_left (fun acc o => step o acc) ops s.

(** ** Predicates used by the statements *)

(** A handler reports a failure when it calls [alert] or [console.error]. *)
Definition reports_failure (s s' : State) : Prop :=
  alerts s' <> alerts s \/ consoleErrors s' <> consoleErrors s.

(** The state without its two logs. *)
Definition forget_logs (s : State) : State :=
  mkState (photos s) (albums s) (selectedView s) (searchTerm s) (ui s) (dbRef s) (filesStore s)
          (photosStore s) (urlCache s) (revokedUrls s) [] [].

(** I3 on one record: the [albums] array exists and holds ["all"]. *)
Definition has_all (p : Photo) : Prop :=
  exists l, photo_albums p = Some l /\ In "all" l.

(** I3 on the records of a store. *)
Definition store_ok (m : gmap string Photo) : Prop :=
  forall k p, m !! k = Some p -> has_all p.

(** I3 on a state: the in-memory photos and the records of the "photos"
    store. *)
Definition I3 (s : State) : Prop :=
  (forall p, In p (photos s) -> has_all p) /\ store_ok (photosStore s).

(** The "photos" store holds the in-memory record of the photo that [find]
    returns for [photoId]. *)
Definition store_in_sync (photoId : string) (s : State) : Prop :=
  forall p, find_photo photoId (photos s) = Some p -> photosStore s !! photo_id p = Some p.

(** [sub] occurs in [s]. *)
Definition substring (sub s : string) : Prop :=
  exists pre post, s = String.append pre (String.append sub post).

(** Both stores hold an entry under [k], or neither does. *)
Definition paired (s : State) (k : string) : Prop :=
  is_Some (filesStore s !! k) <-> is_Some (photosStore s !! k).

(** A name that is empty or made of white space only. *)
Definition blank (s : string) : bool :=
  forallb isWhiteSpace (list_ascii_of_string s).

(** [loadFileUrl] fails: its promise rejects or it reports a failure. *)
Definition resolve_fails (s : State) (r : option string * State) : Prop :=
  fst r = None \/ reports_failure s (snd r).

(** [a] is at least as recent as [b], both having a valid time value. *)
Definition not_older {A} (time : A -> option Z) (a b : A) : Prop :=
  exists ta tb, time a = Some ta /\ time b = Some tb /\ (tb <= ta)%Z.

(** ** Sample data *)

Definition sample_image : File := mkFile "beach.png" "image/png" 2048 "PNG-bytes".
Definition sample_video : File := mkFile "clip.mp4" "video/mp4" 4096 "MP4-bytes".
Definition sample_pdf : File := mkFile "notes.pdf" "application/pdf" 512 "PDF-bytes".

Definition env_1 : UploadEnv := mkUploadEnv "id-1" "2024-01-02T10:00:00.000Z" true true.
Definition env_2 : UploadEnv := mkUploadEnv "id-2" "2024-01-03T09:30:00.000Z" true true.
Definition env_3 : UploadEnv := mkUploadEnv "id-3" "2024-01-02T18:45:00.000Z" true true.
(** The blob is written, the metadata write fails. *)
Definition env_meta_fails : UploadEnv :=
  mkUploadEnv "id-4" "2024-01-04T08:00:00.000Z" true false.

(** A gallery with one image and one video, both uploaded into "all". *)
Definition two_items : State :=
  handleFileUpload true [(sample_image, env_1); (sample_video, env_2)] initial_state.

(** The same gallery after creating the album "Trip" with the image
    selected, and opening that album. *)
Definition with_trip : State :=
  set_selectedView "album-1"
    (handleCreateAlbum "album-1" "2024-02-01T12:00:00.000Z" true "Trip"
       (set_ui (ui_set_selectedItems ["id-1"] (ui two_items)) two_items)).

(** The gallery [two_items] once the image has been displayed: its URL is
    cached. *)
Definition image_shown : State := snd (loadFileUrl true "blob:url-1" "id-1" two_items).

(** A gallery with three photos taken on two days and two albums. *)
Definition three_items : State :=
  handleCreateAlbum "album-2" "2024-03-05T08:00:00.000Z" true "Family"
    (handleCreateAlbum "album-1" "2024-02-01T12:00:00.000Z" true "Trip"
       (handleFileUpload true [(sample_pdf, env_3)] two_items)).

(** ** Selection, context menu and detail view *)

Definition ui_set_contextMenu (v : ContextMenu) (u : Ui) : Ui :=
  mkUi (selectedItems u) (isSelecting u) (viewMode u) (currentPhoto u) (isAddingAlbum u)
       (newAlbumName u) (isRenamingItem u) (newItemName u) v (draggedItem u) (dragOverAlbum u).

Definition ui_set_currentPhoto (v : option Photo) (u : Ui) : Ui :=
  mkUi (selectedItems u) (isSelecting u) (viewMode u) v (isAddingAlbum u)
       (newAlbumName u) (isRenamingItem u) (newItemName u) (contextMenu u) (draggedItem u)
       (dragOverAlbum u).

Definition ui_set_isSelecting (v : bool) (u : Ui) : Ui :=
  mkUi (selectedItems u) v (viewMode u) (currentPhoto u) (isAddingAlbum u)
       (newAlbumName u) (isRenamingItem u) (newItemName u) (contextMenu u) (draggedItem u)
       (dragOverAlbum u).

(** [setCurrentPhoto(photo); setViewMode("detail")] *)
Definition ui_open_detail (photo : Photo) (u : Ui) : Ui :=
  mkUi (selectedItems u) (isSelecting u) "detail" (Some photo) (isAddingAlbum u)
       (newAlbumName u) (isRenamingItem u) (newItemName u) (contextMenu u) (draggedItem u)
       (dragOverAlbum u).

(** [x] and [y] are [e.clientX] and [e.clientY]. *)
Definition handleContextMenu (x y : Z) (itemId : string) (s : State) : State :=
  set_ui (ui_set_contextMenu (mkContextMenu true x y (Some itemId)) (ui s)) s.

Definition handleSelectItem (itemId : string) (s : State) : State :=
  if isSelecting (ui s) then
    if Array_includes (selectedItems (ui s)) itemId then
      set_ui (ui_set_selectedItems
                (List.filter (fun i => negb (String.eqb i itemId)) (selectedItems (ui s)))
                (ui s)) s
    else set_ui (ui_set_selectedItems (selectedItems (ui s) ++ [itemId]) (ui s)) s
  else
    match find_photo itemId (photos s) with
    | Some photo => set_ui (ui_open_detail photo (ui s)) s
    | None => s
    end.

(** [arr.findIndex(f)]: the first index whose element satisfies [f], [-1]
    when there is none. *)
Fixpoint findIndex {A} (f : A -> bool) (l : list A) : Z :=
  match l with
  | [] => (-1)%Z
  | x :: l' =>
      if f x then 0%Z
      else let i := findIndex f l' in if (i <? 0)%Z then (-1)%Z else (i + 1)%Z
  end.

(** [arr[i]], [None] standing for [undefined]. *)
Definition Array_get {A} (l : list A) (i : Z) : option A :=
  if (i <? 0)%Z then None else nth_error l (Z.to_nat i).

(** [arr.length] *)
Definition Array_length {A} (l : list A) : Z := Z.of_nat (List.length l).

Section DetailView.

Variable toLowerCase : string -> string.

(** [filteredPhotos.findIndex((p) => p.id === currentPhoto.id)] *)
Definition currentIndex (s : State) (cur : Photo) : Z :=
  findIndex (fun p => String.eqb (photo_id p) (photo_id cur)) (filteredPhotos toLowerCase s).

Definition handleNextPhoto (s : State) : State :=
  match currentPhoto (ui s) with
  | None => s
  | Some cur =>
      let i := currentIndex s cur in
      if (i <? Array_length (filteredPhotos toLowerCase s) - 1)%Z
      then set_ui (ui_set_currentPhoto (Array_get (filteredPhotos toLowerCase s) (i + 1)) (ui s)) s
      else s
  end.

Definition handlePrevPhoto (s : State) : State :=
  match currentPhoto (ui s) with
  | None => s
  | Some cur =>
      let i := currentIndex s cur in
      if (0 <? i)%Z
      then set_ui (ui_set_currentPhoto (Array_get (filteredPhotos toLowerCase s) (i - 1)) (ui s)) s
      else s
  end.

(** The [disabled] attributes of the two arrows of the detail view. *)
Definition prevDisabled (s : State) (cur : Photo) : bool :=
  (currentIndex s cur =? 0)%Z.

Definition nextDisabled (s : State) (cur : Photo) : bool :=
  (currentIndex s cur =? Array_length (filteredPhotos toLowerCase s) - 1)%Z.

End DetailView.

(** The albums the context menu of [photo] offers under "Adicionar ao
    álbum". *)
Definition offeredAlbums (s : State) (photo : Photo) : list Album :=
  List.filter (fun album => negb (album_isDefault album) && negb (has_album photo (album_id album)))
              (albums s).

(** The props of a [PhotoItem] that its [memo] comparison reads. *)
Record PhotoItemProps := mkPhotoItemProps {
  props_photo : Photo;
  props_isSelecting : bool;
  props_selectedItems : list string;
  props_draggedItem : option string
}.

(** The props the grid passes for [photo]. *)
Definition photoItemProps (s : State) (photo : Photo) : PhotoItemProps :=
  mkPhotoItemProps photo (isSelecting (ui s)) (selectedItems (ui s)) (draggedItem (ui s)).

Definition option_string_eqb (a b : option string) : bool :=
  match a, b with
  | Some x, Some y => String.eqb x y
  | None, None => true
  | _, _ => false
  end.

(** The second argument of [memo]: [true] tells React to keep the rendered
    item as it is. *)
Definition arePropsEqual (prevProps nextProps : PhotoItemProps) : bool :=
  String.eqb (photo_id (props_photo prevProps)) (photo_id (props_photo nextProps)) &&
  String.eqb (photo_fileId (props_photo prevProps)) (photo_fileId (props_photo nextProps)) &&
  Bool.eqb (props_isSelecting prevProps) (props_isSelecting nextProps) &&
  Bool.eqb (Array_includes (props_selectedItems prevProps) (photo_id (props_photo prevProps)))
           (Array_includes (props_selectedItems nextProps) (photo_id (props_photo nextProps))) &&
  option_string_eqb (props_draggedItem prevProps) (props_draggedItem nextProps).

(** The grid: one block per date of [sortedDates], holding
    [groupedPhotos[date]] ([None] standing for [undefined]). *)
Definition renderedGrid (toLowerCase : string -> string) (Date_time : string -> option Z)
    (s : State) : list (string * option (list Photo)) :=
  List.map (fun date => (date, group_get date (groupedPhotos toLowerCase s)))
           (sortedDates toLowerCase Date_time s).

(** ** Every event of the interface *)

(** A handler call, a click, or the second part of a pending [loadFileUrl]
    call, which may run between any two other events with whatever the read
    it requested delivers. *)
Inductive Event :=
| EvOp (o : Op)
| EvContextMenu (x y : Z) (itemId : string)
| EvSelectItem (itemId : string)
| EvSetIsSelecting (v : bool)
| EvNextPhoto
| EvPrevPhoto
| EvLoadFileUrlResume (getOk : bool) (freshUrl fileId : string) (file : option File).

Definition handle (toLowerCase : string -> string) (e : Event) (s : State) : State :=
  match e with
  | EvOp o => step o s
  | EvContextMenu x y itemId => handleContextMenu x y itemId s
  | EvSelectItem itemId => handleSelectItem itemId s
  | EvSetIsSelecting v => set_ui (ui_set_isSelecting v (ui s)) s
  | EvNextPhoto => handleNextPhoto toLowerCase s
  | EvPrevPhoto => handlePrevPhoto toLowerCase s
  | EvLoadFileUrlResume getOk freshUrl fileId file =>
      snd (loadFileUrl_resume getOk freshUrl fileId file s)
  end.

Definition run_events (toLowerCase : string -> string) (es : list Event) (s : State) : State :=
  fold_left (fun acc e => handle toLowerCase e acc) es s.

(** ** Further predicates *)

(** The reserved album is in the album list. *)
Definition has_default_album (s : State) : Prop :=
  exists a, In a (albums s) /\ album_id a = "all" /\ album_isDefault a = true.

(** The "photos" store is keyed by the [id] of its records (its key path),
    and every photo of the gallery has a record under its [id]. *)
Definition keyed_by_id (s : State) : Prop :=
  forall k p, photosStore s !! k = Some p -> photo_id p = k.

Definition shown_are_stored (s : State) : Prop :=
  forall p, In p (photos s) -> is_Some (photosStore s !! photo_id p).


(** The handlers that work on metadata only: album deletion and creation,
    album membership, renaming. *)
Definition is_metadata_op (o : Op) : bool :=
  match o with
  | OpDeleteAlbum _ _ | OpAddToAlbum _ _ _ | OpRemoveFromAlbum _ _ _
  | OpRename _ _ | OpCreateAlbum _ _ _ _ => true
  | _ => false
  end.

(** What identifies a photo and its blob, and what places it in the grid. *)
Definition identity_of (p : Photo) : string * string * string * N * string :=
  (photo_id p, photo_fileId p, photo_type p, photo_size p, photo_date p).

(** The handlers that leave the selection and the drag marker alone while
    they change photos: renaming, removing from an album, deleting an
    album. *)
Definition keeps_tile_props (o : Op) : bool :=
  match o with
  | OpRename _ _ | OpRemoveFromAlbum _ _ _ | OpDeleteAlbum _ _ => true
  | _ => false
  end.

(** Ascending order of the identifiers, as texts. *)
Definition id_le (a b : Photo) : Prop := Is_true (String.leb (photo_id a) (photo_id b)).

(** * Properties *)

(** An uninterrupted [loadFileUrl] call, its two parts put together. *)
Lemma loadFileUrl_alone getOk freshUrl fileId s :
  loadFileUrl getOk freshUrl fileId s =
  if negb (dbRef s) || String.eqb fileId "" then (Some placeholder, s)
  else
    match urlCache s !! fileId with
    | Some url => (Some url, s)
    | None =>
        if negb getOk then (None, s)
        else
          match filesStore s !! fileId with
          | Some _ => (Some freshUrl, set_urlCache (<[fileId := freshUrl]> (urlCache s)) s)
          | None => (Some placeholder, s)
          end
    end.
Proof.
  unfold loadFileUrl, loadFileUrl_begin, loadFileUrl_resume.
  destruct (negb (dbRef s) || String.eqb fileId ""); [reflexivity|].
  destruct (urlCache s !! fileId); reflexivity.
Qed.

(** ** Strings and arrays *)

Lemma append_String (c : ascii) (p q : string) :
  String.append (String c p) q = String c (String.append p q).
Proof. reflexivity. Qed.

Lemma append_Empty (q : string) : String.append EmptyString q = q.
Proof. reflexivity. Qed.

Lemma prefix_append (p s : string) :
  String.prefix p s = true <-> exists post, s = String.append p post.
Proof.
  revert s. induction p as [|c p IH]; intros s.
  - split; [intros _; exists s; reflexivity | intros _; destruct s; reflexivity].
  - destruct s as [|d s]; simpl.
    + split; [discriminate | intros [post H]; rewrite append_String in H; discriminate].
    + destruct (ascii_dec c d) as [->|Hne].
      * rewrite IH. split; intros [post H]; exists post; rewrite append_String in *; congruence.
      * split; [discriminate | intros [post H]; rewrite append_String in H; congruence].
Qed.

Lemma includes_substring (s sub : string) :
  includes s sub = true <-> substring sub s.
Proof.
  unfold substring. induction s as [|c s IH].
  - change (includes EmptyString sub) with (String.prefix sub EmptyString || false).
    rewrite orb_false_r, prefix_append. split.
    + intros [post H]. exists EmptyString, post. exact H.
    + intros [pre [post H]]. destruct pre; [eauto | rewrite append_String in H; discriminate].
  - change (includes (String c s) sub)
      with (String.prefix sub (String c s) || includes s sub).
    rewrite orb_true_iff, prefix_append, IH. split.
    + intros [[post H] | [pre [post H]]].
      * exists EmptyString, post. exact H.
      * exists (String c pre), post. rewrite append_String, H. reflexivity.
    + intros [pre [post H]]. destruct pre as [|d pre].
      * left. eauto.
      * right. exists pre, post. rewrite append_String in H. congruence.
Qed.

Lemma Array_includes_In (l : list string) (x : string) :
  Array_includes l x = true <-> In x l.
Proof.
  unfold Array_includes. rewrite existsb_exists. split.
  - intros [y [Hy Heq]]. apply String.eqb_eq in Heq. subst. exact Hy.
  - intros H. exists x. split; [exact H | apply String.eqb_refl].
Qed.

Lemma Array_includes_not_In (l : list string) (x : string) :
  Array_includes l x = false <-> ~ In x l.
Proof.
  rewrite <- Array_includes_In. destruct (Array_includes l x); split; congruence.
Qed.

Lemma has_album_true (p : Photo) (a : string) :
  has_album p a = true <-> exists l, photo_albums p = Some l /\ In a l.
Proof.
  unfold has_album. destruct (photo_albums p) as [l|].
  - rewrite Array_includes_In. split; [eauto | intros [l' [Hl Hin]]; congruence].
  - split; [discriminate | intros [l' [Hl _]]; discriminate].
Qed.

Lemma trimStart_blank (s : string) : blank s = true -> trimStart s = EmptyString.
Proof.
  unfold blank. induction s as [|c s IH]; simpl; [reflexivity|].
  intros H. apply andb_true_iff in H as [Hc Hs]. rewrite Hc. auto.
Qed.

Lemma trimEnd_empty (s : string) : trimEnd s = EmptyString -> blank s = true.
Proof.
  unfold blank. induction s as [|c s IH]; simpl; [reflexivity|].
  destruct (trimEnd s); [|discriminate].
  destruct (isWhiteSpace c); [intros _; auto | discriminate].
Qed.

Lemma trimStart_not_blank (s : string) : blank s = false -> blank (trimStart s) = false.
Proof.
  unfold blank. induction s as [|c s IH]; simpl; [auto|].
  destruct (isWhiteSpace c) eqn:Hc; simpl; [auto|].
  intros _. rewrite Hc. reflexivity.
Qed.

(** [trim] returns the empty string exactly on blank names. *)
Lemma trim_empty_iff (s : string) : trim s = EmptyString <-> blank s = true.
Proof.
  unfold trim. split.
  - intros H. apply trimEnd_empty in H.
    destruct (blank s) eqn:Hb; [reflexivity|].
    apply trimStart_not_blank in Hb. congruence.
  - intros H. rewrite trimStart_blank by exact H. reflexivity.
Qed.

(** ** Uploads *)

Lemma newPhoto_id sel file e : photo_id (newPhoto sel file e) = gen_id e.
Proof. reflexivity. Qed.

Lemma newPhoto_fileId sel file e : photo_fileId (newPhoto sel file e) = gen_id e.
Proof. reflexivity. Qed.

Lemma newPhoto_has_all sel file e : has_all (newPhoto sel file e).
Proof.
  unfold has_all, newPhoto. simpl. eexists. split; [reflexivity|]. left. reflexivity.
Qed.

(** What one callback leaves in the two stores. *)
Lemma upload_one_spec sel file e fs ps :
  upload_one sel (file, e) fs ps =
    ((if file_put_ok e then <[gen_id e := file]> fs else fs),
     (if file_put_ok e && photo_put_ok e
      then <[gen_id e := newPhoto sel file e]> ps else ps),
     (if file_put_ok e && photo_put_ok e then Some (newPhoto sel file e) else None)).
Proof.
  unfold upload_one. destruct (file_put_ok e), (photo_put_ok e); reflexivity.
Qed.

Lemma upload_all_cons sel fe l fs ps :
  upload_all sel (fe :: l) fs ps =
    let '(fs1, ps1, r) := upload_one sel fe fs ps in
    let '(fs2, ps2, rs) := upload_all sel l fs1 ps1 in
    (fs2, ps2, r :: rs).
Proof. reflexivity. Qed.

(** The stores after a batch, key by key, when the generated identifiers
    are pairwise distinct. *)
Lemma upload_all_lookup sel l : forall fs ps fs' ps' rs,
  upload_all sel l fs ps = (fs', ps', rs) ->
  NoDup (List.map (fun fe => gen_id (snd fe)) l) ->
  (forall k,
     (forall fe, In fe l -> gen_id (snd fe) <> k) ->
     fs' !! k = fs !! k /\ ps' !! k = ps !! k) /\
  (forall file e, In (file, e) l ->
     fs' !! gen_id e = (if file_put_ok e then Some file else fs !! gen_id e) /\
     ps' !! gen_id e = (if file_put_ok e && photo_put_ok e
                        then Some (newPhoto sel file e) else ps !! gen_id e)).
Proof.
  induction l as [|[file e] l IH]; intros fs ps fs' ps' rs Hrun Hnd.
  - simpl in Hrun. inversion Hrun; subst. split; [auto | intros ? ? []].
  - rewrite upload_all_cons, upload_one_spec in Hrun.
    destruct (upload_all sel l _ _) as [[fs2 ps2] rs2] eqn:Hrest.
    inversion Hrun; subst fs' ps' rs; clear Hrun.
    simpl in Hnd. apply NoDup_cons in Hnd as [Hfresh Hnd].
    destruct (IH _ _ _ _ _ Hrest Hnd) as [Hother Hmine]. split.
    + intros k Hk.
      destruct (Hother k) as [Hf Hp]; [intros fe Hin; apply Hk; right; exact Hin|].
      assert (gen_id e <> k) as Hne by (apply (Hk (file, e)); left; reflexivity).
      rewrite Hf, Hp.
      destruct (file_put_ok e), (photo_put_ok e); simpl;
        rewrite ?lookup_insert_ne by exact Hne; auto.
    + intros file' e' [Heq | Hin].
      * inversion Heq; subst file' e'; clear Heq.
        destruct (Hother (gen_id e)) as [Hf Hp].
        { intros fe Hin Heq. apply Hfresh. apply list_elem_of_In.
          apply in_map_iff. exists fe. split; [exact Heq | exact Hin]. }
        rewrite Hf, Hp.
        destruct (file_put_ok e), (photo_put_ok e); simpl;
          rewrite ?lookup_insert_eq; auto.
      * destruct (Hmine _ _ Hin) as [Hf Hp]. rewrite Hf, Hp.
        assert (gen_id e <> gen_id e') as Hne.
        { intros Heq. apply Hfresh. apply list_elem_of_In.
          apply in_map_iff. exists (file', e'). split; [symmetry; exact Heq | exact Hin]. }
        destruct (file_put_ok e), (photo_put_ok e); simpl;
          rewrite ?lookup_insert_ne by exact Hne; auto.
Qed.

(** A record of the "photos" store is kept or overwritten by a batch, never
    removed. *)
Lemma upload_all_keeps sel l : forall fs ps fs' ps' rs,
  upload_all sel l fs ps = (fs', ps', rs) ->
  forall k, is_Some (ps !! k) -> is_Some (ps' !! k).
Proof.
  induction l as [|[file e] l IH]; intros fs ps fs' ps' rs Hrun k Hk.
  - simpl in Hrun. inversion Hrun; subst. exact Hk.
  - rewrite upload_all_cons, upload_one_spec in Hrun.
    destruct (upload_all sel l _ _) as [[fs2 ps2] rs2] eqn:Hrest.
    inversion Hrun; subst. eapply IH; [exact Hrest|].
    destruct (file_put_ok e && photo_put_ok e); [|exact Hk].
    destruct (decide (gen_id e = k)) as [<-|Hne];
      [rewrite lookup_insert_eq; eauto | rewrite lookup_insert_ne by exact Hne; exact Hk].
Qed.

(** Facts about a batch that need no assumption on the identifiers. *)
Lemma upload_all_inv sel l : forall fs ps fs' ps' rs,
  upload_all sel l fs ps = (fs', ps', rs) ->
  (forall k, is_Some (fs !! k) -> is_Some (fs' !! k)) /\
  (forall k p, ps' !! k = Some p ->
     ps !! k = Some p \/
     exists file e, In (file, e) l /\ file_put_ok e = true /\ photo_put_ok e = true /\
                    k = gen_id e /\ p = newPhoto sel file e) /\
  (forall file e, In (file, e) l -> file_put_ok e = true -> is_Some (fs' !! gen_id e)) /\
  (forall file e, In (file, e) l -> file_put_ok e = true -> photo_put_ok e = true ->
     is_Some (ps' !! gen_id e)) /\
  (forall p, In (Some p) rs ->
     exists file e, In (file, e) l /\ file_put_ok e = true /\ photo_put_ok e = true /\
                    p = newPhoto sel file e) /\
  (In None rs <->
     exists file e, In (file, e) l /\ file_put_ok e && photo_put_ok e = false).
Proof.
  induction l as [|[file e] l IH]; intros fs ps fs' ps' rs Hrun.
  - simpl in Hrun. inversion Hrun; subst.
    repeat split; try (intros; simpl in *; tauto); auto.
    intros [? [? [[] _]]].
  - rewrite upload_all_cons, upload_one_spec in Hrun.
    destruct (upload_all sel l _ _) as [[fs2 ps2] rs2] eqn:Hrest.
    inversion Hrun; subst fs' ps' rs; clear Hrun.
    destruct (IH _ _ _ _ _ Hrest) as (Hmono & Hrec & Hblob & Hmeta & Hres & Hnone).
    repeat split.
    + intros k Hk. apply Hmono.
      destruct (file_put_ok e); [|exact Hk].
      destruct (decide (gen_id e = k)) as [<-|Hne];
        [rewrite lookup_insert_eq; eauto | rewrite lookup_insert_ne by exact Hne; exact Hk].
    + intros k p Hk. destruct (Hrec k p Hk) as [Hold | (f' & e' & Hin & H1 & H2 & H3 & H4)].
      * destruct (file_put_ok e) eqn:Hf, (photo_put_ok e) eqn:Hp; simpl in Hold; auto.
        destruct (decide (gen_id e = k)) as [<-|Hne].
        -- rewrite lookup_insert_eq in Hold. inversion Hold; subst p.
           right. exists file, e. repeat split; auto. left; reflexivity.
        -- rewrite lookup_insert_ne in Hold by exact Hne. auto.
      * right. exists f', e'. repeat split; auto. right; exact Hin.
    + intros f' e' [Heq | Hin] Hok.
      * inversion Heq; subst f' e'. apply Hmono. rewrite Hok, lookup_insert_eq. eauto.
      * eapply Hblob; eauto.
    + intros f' e' [Heq | Hin] Hok1 Hok2.
      * inversion Heq; subst f' e'.
        revert Hrest. rewrite Hok1, Hok2. simpl. intros Hrest.
        eapply upload_all_keeps; [exact Hrest|]. rewrite lookup_insert_eq. eauto.
      * eapply Hmeta; eauto.
    + intros p [Heq | Hin].
      * destruct (file_put_ok e) eqn:Hf, (photo_put_ok e) eqn:Hp; simpl in Heq; try discriminate.
        inversion Heq; subst p. exists file, e. repeat split; auto. left; reflexivity.
      * destruct (Hres p Hin) as (f' & e' & Hin' & H1 & H2 & H3).
        exists f', e'. repeat split; auto. right; exact Hin'.
    + intros [Heq | Hin].
      * exists file, e. split; [left; reflexivity|].
        destruct (file_put_ok e && photo_put_ok e); [discriminate | reflexivity].
      * apply Hnone in Hin as (f' & e' & Hin & Hbad).
        exists f', e'. split; [right; exact Hin | exact Hbad].
    + intros (f' & e' & [Heq | Hin] & Hbad).
      * inversion Heq; subst f' e'. left. rewrite Hbad. reflexivity.
      * right. apply Hnone. eauto.
Qed.

Lemma Promise_all_Some {A} (rs : list (option A)) (xs : list A) :
  Promise_all rs = Some xs -> forall x, In x xs -> In (Some x) rs.
Proof.
  revert xs. induction rs as [|[a|] rs IH]; intros xs H x Hx; simpl in H.
  - inversion H; subst. destruct Hx.
  - destruct (Promise_all rs) as [ys|]; [|discriminate].
    inversion H; subst. destruct Hx as [<- | Hx]; [left; reflexivity | right; eauto].
  - discriminate.
Qed.

Lemma Promise_all_None {A} (rs : list (option A)) :
  Promise_all rs = None <-> In None rs.
Proof.
  induction rs as [|[a|] rs IH]; simpl.
  - split; [discriminate | intros []].
  - destruct (Promise_all rs) as [ys|].
    + split; [discriminate|]. intros [H | H]; [discriminate|]. apply IH in H. discriminate.
    + split; [intros _; right; apply IH; reflexivity | reflexivity].
  - split; [intros _; left; reflexivity | reflexivity].
Qed.

(** The handler, once the guards are passed, in terms of [upload_all]. *)
Lemma handleFileUpload_run initOk files s fs ps rs :
  files <> [] ->
  dbRef s || initOk = true ->
  upload_all (selectedView s) files (filesStore s) (photosStore s) = (fs, ps, rs) ->
  handleFileUpload initOk files s =
    match Promise_all rs with
    | Some newPhotos =>
        set_photos (photos s ++ newPhotos) (set_photosStore ps (set_filesStore fs (set_dbRef true s)))
    | None => upload_failed (set_photosStore ps (set_filesStore fs (set_dbRef true s)))
    end.
Proof.
  intros Hne Hdb Hrun. unfold handleFileUpload.
  destruct files as [|fe files]; [congruence|].
  assert (negb (dbRef s) && negb initOk = false) as ->
    by (destruct (dbRef s), initOk; simpl in *; congruence).
  rewrite Hrun. reflexivity.
Qed.

(** The fields a run of the handler leaves as they were. *)
Lemma handleFileUpload_frame initOk files s :
  let s' := handleFileUpload initOk files s in
  albums s' = albums s /\ selectedView s' = selectedView s /\ searchTerm s' = searchTerm s /\
  ui s' = ui s /\ urlCache s' = urlCache s /\ revokedUrls s' = revokedUrls s.
Proof.
  unfold handleFileUpload. destruct files as [|fe files]; [simpl; tauto|].
  destruct (negb (dbRef s) && negb initOk); [simpl; tauto|].
  destruct (upload_all _ _ _ _) as [[fs ps] rs].
  destruct (Promise_all rs); simpl; tauto.
Qed.

(** ** Deletion *)

Lemma delete_all_lookup {V} (ids : list string) : forall (m : gmap string V) (k : string),
  delete_all ids m !! k = if Array_includes ids k then None else m !! k.
Proof.
  unfold delete_all, Array_includes.
  induction ids as [|i ids IH]; intros m k; simpl; [reflexivity|].
  rewrite IH. destruct (String.eqb k i) eqn:Heq; simpl.
  - apply String.eqb_eq in Heq. subst.
    destruct (existsb _ ids); [reflexivity | apply lookup_delete_eq].
  - apply String.eqb_neq in Heq.
    destruct (existsb _ ids); [reflexivity | apply lookup_delete_ne; congruence].
Qed.

(** The cache clean-up touches nothing but the URL cache and the list of
    revoked URLs. *)
Lemma evict_all_frame ids : forall s,
  let s' := evict_all ids s in
  photos s' = photos s /\ albums s' = albums s /\ selectedView s' = selectedView s /\
  searchTerm s' = searchTerm s /\ ui s' = ui s /\ dbRef s' = dbRef s /\
  filesStore s' = filesStore s /\ photosStore s' = photosStore s /\
  alerts s' = alerts s /\ consoleErrors s' = consoleErrors s.
Proof.
  unfold evict_all. induction ids as [|i ids IH]; intros s; simpl; [tauto|].
  specialize (IH (evict i s)). simpl in IH.
  destruct IH as (H1 & H2 & H3 & H4 & H5 & H6 & H7 & H8 & H9 & H10).
  rewrite H1, H2, H3, H4, H5, H6, H7, H8, H9, H10.
  unfold evict. destruct (urlCache s !! i); simpl; tauto.
Qed.

(** After the clean-up no listed identifier is cached, and every URL that
    was cached under a listed identifier has been revoked. *)
Lemma evict_all_cache ids : forall s,
  (forall k, urlCache (evict_all ids s) !! k =
             if Array_includes ids k then None else urlCache s !! k) /\
  (forall u, In u (revokedUrls s) -> In u (revokedUrls (evict_all ids s))) /\
  (forall k u, In k ids -> urlCache s !! k = Some u -> In u (revokedUrls (evict_all ids s))).
Proof.
  unfold evict_all, Array_includes.
  induction ids as [|i ids IH]; intros s; simpl.
  - repeat split; auto. intros k u [].
  - destruct (IH (evict i s)) as (Hc & Hkeep & Hrev).
    assert (forall u, In u (revokedUrls s) -> In u (revokedUrls (evict i s))) as Hk1.
    { intros u Hu. unfold evict. destruct (urlCache s !! i); simpl; [|exact Hu].
      apply in_or_app. left. exact Hu. }
    assert (forall k, urlCache (evict i s) !! k =
                      if String.eqb k i then None else urlCache s !! k) as Hc1.
    { intros k. unfold evict. destruct (String.eqb k i) eqn:Heq.
      - apply String.eqb_eq in Heq. subst.
        destruct (urlCache s !! i) eqn:Hi; simpl; [apply lookup_delete_eq | exact Hi].
      - apply String.eqb_neq in Heq.
        destruct (urlCache s !! i); simpl; [apply lookup_delete_ne; congruence | reflexivity]. }
    repeat split.
    + intros k. rewrite Hc, Hc1.
      destruct (String.eqb k i); simpl; destruct (existsb _ ids); reflexivity.
    + intros u Hu. apply Hkeep, Hk1, Hu.
    + intros k u [<- | Hin] Hu.
      * apply Hkeep. unfold evict. rewrite Hu. simpl. apply in_or_app. right. left. reflexivity.
      * destruct (String.eqb k i) eqn:Heq.
        -- apply String.eqb_eq in Heq. subst.
           apply Hkeep. unfold evict. rewrite Hu. simpl. apply in_or_app. right. left. reflexivity.
        -- eapply Hrev; [exact Hin|]. rewrite Hc1, Heq. exact Hu.
Qed.

(** A deletion whose two transactions commit. *)
Lemma handleDeletePhotos_ok ids s :
  dbRef s = true ->
  let s' := handleDeletePhotos true true ids s in
  filesStore s' = delete_all ids (filesStore s) /\
  photosStore s' = delete_all ids (photosStore s) /\
  photos s' = List.filter (fun photo => negb (Array_includes ids (photo_id photo))) (photos s) /\
  urlCache s' = urlCache (evict_all ids s) /\
  revokedUrls s' = revokedUrls (evict_all ids s) /\
  alerts s' = alerts s /\ consoleErrors s' = consoleErrors s /\ dbRef s' = true.
Proof.
  intros Hdb. unfold handleDeletePhotos. rewrite Hdb. simpl.
  set (s2 := set_photosStore _ (set_filesStore _ s)).
  pose proof (evict_all_frame ids s2) as Hf. simpl in Hf.
  destruct Hf as (H1 & H2 & H3 & H4 & H5 & H6 & H7 & H8 & H9 & H10).
  rewrite H7, H8, H9, H10.
  assert (forall a b, urlCache a = urlCache b -> revokedUrls a = revokedUrls b ->
            urlCache (evict_all ids a) = urlCache (evict_all ids b) /\
            revokedUrls (evict_all ids a) = revokedUrls (evict_all ids b)) as Hsame.
  { clear. unfold evict_all. induction ids as [|i ids IH]; intros a b Hc Hr; simpl; [auto|].
    apply IH; unfold evict; rewrite Hc; destruct (urlCache b !! i); simpl; congruence. }
  destruct (Hsame s2 s eq_refl eq_refl) as [Hc Hr].
  rewrite Hc, Hr. subst s2. simpl. repeat split; auto.
  simpl in H6. congruence.
Qed.

(** ** What an upload leaves in the stores *)

(** C1, as stated, fails: when the blob write of a payload succeeds and its
    metadata write fails, [handleFileUpload] performs no rollback.  After
    uploading one image whose metadata write fails into the empty gallery,
    the "files" store holds the blob under the generated identifier and the
    "photos" store holds nothing under it. *)
Lemma C1_orphan_blob_persists :
  ~ paired (handleFileUpload true [(sample_image, env_meta_fails)] initial_state) "id-4".
Proof.
  unfold paired. intros [H _].
  assert (is_Some (filesStore
            (handleFileUpload true [(sample_image, env_meta_fails)] initial_state) !! "id-4"))
    as Hblob by (vm_compute; eexists; reflexivity).
  apply H in Hblob. vm_compute in Hblob. destruct Hblob as [p Hp]. discriminate.
Qed.

(** C1, amended: for a batch whose generated identifiers are fresh and
    pairwise distinct, the "files" store ends up holding a payload's blob
    exactly when its blob write succeeded, and the "photos" store its record
    exactly when both writes succeeded: a blob whose metadata write failed
    stays in the store and no record is written for it.  When some write of
    the batch fails, the in-memory photo list is left as it was and the
    failure is reported both ways: [console.error] is called once, with
    "Error uploading files:", and [alert] once, with "Failed to upload
    files. Please try again.".  A record is never stored without its blob:
    if every key of "photos" was a key of "files" before, this still holds
    after. *)
Theorem C1_upload_writes_blob_then_metadata initOk files s :
  dbRef s || initOk = true ->
  NoDup (List.map (fun fe => gen_id (snd fe)) files) ->
  (forall fe, In fe files ->
     filesStore s !! gen_id (snd fe) = None /\ photosStore s !! gen_id (snd fe) = None) ->
  let s' := handleFileUpload initOk files s in
  (forall file e, In (file, e) files ->
     filesStore s' !! gen_id e = (if file_put_ok e then Some file else None) /\
     photosStore s' !! gen_id e =
       (if file_put_ok e && photo_put_ok e
        then Some (newPhoto (selectedView s) file e) else None)) /\
  ((exists file e, In (file, e) files /\ file_put_ok e && photo_put_ok e = false) ->
     photos s' = photos s /\ reports_failure s s' /\
     consoleErrors s' = consoleErrors s ++ ["Error uploading files:"] /\
     alerts s' = alerts s ++ ["Failed to upload files. Please try again."]) /\
  ((forall k, is_Some (photosStore s !! k) -> is_Some (filesStore s !! k)) ->
   forall k, is_Some (photosStore s' !! k) -> is_Some (filesStore s' !! k)).
Proof.
  intros Hdb Hnd Hfresh s'.
  assert (files = [] \/ files <> []) as [-> | Hne]
    by (destruct files; [left | right]; congruence).
  { subst s'. simpl. split; [intros ? ? []|]. split; [intros (? & ? & [] & _)|]. auto. }
  assert ((exists file e, In (file, e) files /\ file_put_ok e && photo_put_ok e = false) ->
          s' = upload_failed (set_photosStore
                                (snd (fst (upload_all (selectedView s) files (filesStore s)
                                                      (photosStore s))))
                                (set_filesStore
                                   (fst (fst (upload_all (selectedView s) files (filesStore s)
                                                         (photosStore s))))
                                   (set_dbRef true s)))) as Hfailed.
  { intros Hbad. unfold s'.
    destruct (upload_all (selectedView s) files (filesStore s) (photosStore s))
      as [[fs ps] rs] eqn:Hrun.
    destruct (upload_all_inv _ _ _ _ _ _ _ Hrun) as (_ & _ & _ & _ & _ & Hnone).
    apply Hnone, Promise_all_None in Hbad.
    rewrite (handleFileUpload_run initOk files s fs ps rs Hne Hdb Hrun), Hbad. reflexivity. }
  destruct (upload_all (selectedView s) files (filesStore s) (photosStore s))
    as [[fs ps] rs] eqn:Hrun.
  pose proof (handleFileUpload_run initOk files s fs ps rs Hne Hdb Hrun) as Hs'.
  fold s' in Hs'.
  assert (filesStore s' = fs /\ photosStore s' = ps) as [Hfs Hps]
    by (rewrite Hs'; destruct (Promise_all rs); simpl; auto).
  destruct (upload_all_lookup _ _ _ _ _ _ _ Hrun Hnd) as [_ Hmine].
  destruct (upload_all_inv _ _ _ _ _ _ _ Hrun) as (Hmono & Hrec & Hblob & _ & _ & Hnone).
  rewrite Hfs, Hps. repeat split.
  - destruct (Hmine _ _ H) as [Hf _]. rewrite Hf.
    destruct (Hfresh _ H) as [Hf0 _]. simpl in Hf0. rewrite Hf0. reflexivity.
  - destruct (Hmine _ _ H) as [_ Hp]. rewrite Hp.
    destruct (Hfresh _ H) as [_ Hp0]. simpl in Hp0. rewrite Hp0. reflexivity.
  - apply Hnone in H. apply Promise_all_None in H. rewrite Hs', H. reflexivity.
  - apply Hnone in H. apply Promise_all_None in H. rewrite Hs', H.
    left. simpl. intros Heq. symmetry in Heq.
    apply (f_equal (@length string)) in Heq. rewrite length_app in Heq. simpl in Heq. lia.
  - rewrite (Hfailed H). reflexivity.
  - rewrite (Hfailed H). reflexivity.
  - intros Hsub k [p Hk].
    destruct (Hrec k p Hk) as [Hold | (file & e & Hin & Hok & _ & -> & _)].
    + apply Hmono, Hsub. eauto.
    + eapply Hblob; eauto.
Qed.

Lemma C1_upload_writes_blob_then_metadata_witness :
  let files := [(sample_image, env_meta_fails)] in
  let s' := handleFileUpload true files initial_state in
  (dbRef initial_state || true = true /\
   NoDup (List.map (fun fe => gen_id (snd fe)) files) /\
   (forall fe, In fe files ->
      filesStore initial_state !! gen_id (snd fe) = None /\
      photosStore initial_state !! gen_id (snd fe) = None)) /\
  filesStore s' !! "id-4" = Some sample_image /\
  photosStore s' !! "id-4" = None /\
  photos s' = [] /\ reports_failure initial_state s' /\
  consoleErrors s' = ["Error uploading files:"] /\
  alerts s' = ["Failed to upload files. Please try again."].
Proof.
  intros files s'.
  assert (dbRef initial_state || true = true) as H1 by reflexivity.
  assert (NoDup (List.map (fun fe => gen_id (snd fe)) files)) as H2.
  { simpl. apply NoDup_cons. split; [apply not_elem_of_nil | apply NoDup_nil; exact I]. }
  assert (forall fe, In fe files ->
            filesStore initial_state !! gen_id (snd fe) = None /\
            photosStore initial_state !! gen_id (snd fe) = None) as H3.
  { intros fe _. split; apply lookup_empty. }
  destruct (C1_upload_writes_blob_then_metadata true files initial_state H1 H2 H3)
    as (Hstores & Hfail & _).
  destruct (Hstores sample_image env_meta_fails (or_introl eq_refl)) as [Hf Hp].
  destruct Hfail as (Hph & Hrep & Hconsole & Halert).
  { exists sample_image, env_meta_fails. split; [left; reflexivity | reflexivity]. }
  split; [repeat split; auto|].
  split; [exact Hf|]. split; [exact Hp|]. split; [exact Hph|]. split; [exact Hrep|].
  split; [exact Hconsole | exact Halert].
Defined.

(** C9: a photo created by an upload carries the generated identifier both
    as [id] and as [fileId]; after the upload the blob and the record are
    stored under that one key, every record the upload writes is stored
    under its own [id] next to its blob, and a deletion by that identifier
    whose transactions commit removes the entry from both stores. *)
Theorem C9_item_and_blob_share_one_key initOk files s file e ids :
  dbRef s || initOk = true ->
  In (file, e) files ->
  file_put_ok e = true ->
  photo_put_ok e = true ->
  let p := newPhoto (selectedView s) file e in
  let s1 := handleFileUpload initOk files s in
  let s2 := handleDeletePhotos true true ids s1 in
  photo_id p = photo_fileId p /\
  is_Some (filesStore s1 !! photo_fileId p) /\
  is_Some (photosStore s1 !! photo_id p) /\
  (forall k q, photosStore s1 !! k = Some q ->
     photosStore s !! k = Some q \/
     (photo_id q = k /\ photo_fileId q = k /\ is_Some (filesStore s1 !! k))) /\
  (In (photo_id p) ids ->
     filesStore s2 !! photo_fileId p = None /\ photosStore s2 !! photo_id p = None).
Proof.
  intros Hdb Hin Hok1 Hok2 p s1 s2.
  assert (files <> []) as Hne by (intros ->; destruct Hin).
  destruct (upload_all (selectedView s) files (filesStore s) (photosStore s))
    as [[fs ps] rs] eqn:Hrun.
  pose proof (handleFileUpload_run initOk files s fs ps rs Hne Hdb Hrun) as Hs1.
  fold s1 in Hs1.
  assert (filesStore s1 = fs /\ photosStore s1 = ps /\ dbRef s1 = true) as (Hfs & Hps & Hdb1)
    by (rewrite Hs1; destruct (Promise_all rs); simpl; auto).
  destruct (upload_all_inv _ _ _ _ _ _ _ Hrun) as (_ & Hrec & Hblob & Hmeta & _ & _).
  split; [reflexivity|]. rewrite Hfs, Hps. repeat split.
  - apply (Hblob file e); assumption.
  - apply (Hmeta file e); assumption.
  - intros k q Hk.
    destruct (Hrec k q Hk) as [Hold | (f' & e' & Hin' & Hf' & _ & -> & ->)]; [left; exact Hold|].
    right. repeat split. apply (Hblob f' e'); assumption.
  - subst s2. destruct (handleDeletePhotos_ok ids s1 Hdb1) as (-> & _).
    rewrite delete_all_lookup. apply Array_includes_In in H. simpl in *. rewrite H. reflexivity.
  - subst s2. destruct (handleDeletePhotos_ok ids s1 Hdb1) as (_ & -> & _).
    rewrite delete_all_lookup. apply Array_includes_In in H. simpl in *. rewrite H. reflexivity.
Qed.

Lemma C9_item_and_blob_share_one_key_witness :
  let files := [(sample_image, env_1); (sample_video, env_2)] in
  let s1 := handleFileUpload true files initial_state in
  let s2 := handleDeletePhotos true true ["id-2"] s1 in
  (dbRef initial_state || true = true /\ In (sample_video, env_2) files /\
   file_put_ok env_2 = true /\ photo_put_ok env_2 = true /\ In "id-2" ["id-2"]) /\
  is_Some (filesStore s1 !! "id-2") /\ is_Some (photosStore s1 !! "id-2") /\
  filesStore s2 !! "id-2" = None /\ photosStore s2 !! "id-2" = None.
Proof.
  intros files s1 s2.
  assert (In (sample_video, env_2) files) as Hin by (right; left; reflexivity).
  destruct (C9_item_and_blob_share_one_key true files initial_state sample_video env_2
              ["id-2"] eq_refl Hin eq_refl eq_refl) as (_ & Hf & Hp & _ & Hdel).
  destruct (Hdel (or_introl eq_refl)) as [Hdf Hdp].
  repeat split; auto. left; reflexivity.
Defined.

(** C10: a record that an upload writes to the "photos" store belongs to one
    of the payloads, and its [type] is "video" exactly when the payload's
    declared MIME type starts with "video/"; for every other declared type,
    the empty one included, it is "image". *)
Theorem C10_kind_is_video_iff_type_starts_with_video initOk files s k p :
  photosStore (handleFileUpload initOk files s) !! k = Some p ->
  photosStore s !! k <> Some p ->
  exists file e,
    In (file, e) files /\ k = gen_id e /\ p = newPhoto (selectedView s) file e /\
    (photo_type p = "video" <-> exists rest, file_type file = String.append "video/" rest) /\
    (photo_type p = "image" <-> ~ exists rest, file_type file = String.append "video/" rest).
Proof.
  intros Hk Hnew.
  assert (files = [] \/ files <> []) as [-> | Hne]
    by (destruct files; [left | right]; congruence).
  { simpl in Hk. congruence. }
  destruct (dbRef s || initOk) eqn:Hdb.
  2:{ unfold handleFileUpload in Hk. destruct files; [congruence|].
      destruct (dbRef s), initOk; simpl in *; congruence. }
  destruct (upload_all (selectedView s) files (filesStore s) (photosStore s))
    as [[fs ps] rs] eqn:Hrun.
  rewrite (handleFileUpload_run initOk files s fs ps rs Hne Hdb Hrun) in Hk.
  assert (ps !! k = Some p) as Hps by (destruct (Promise_all rs); simpl in Hk; exact Hk).
  destruct (upload_all_inv _ _ _ _ _ _ _ Hrun) as (_ & Hrec & _).
  destruct (Hrec k p Hps) as [Hold | (file & e & Hin & _ & _ & -> & ->)]; [congruence|].
  exists file, e. repeat split; auto.
  - unfold newPhoto, startsWith. simpl.
    destruct (String.prefix "video/" (file_type file)) eqn:Hpre; [|discriminate].
    intros _. apply prefix_append. exact Hpre.
  - intros Hrest. apply prefix_append in Hrest.
    unfold newPhoto, startsWith. simpl. rewrite Hrest. reflexivity.
  - unfold newPhoto, startsWith. simpl.
    destruct (String.prefix "video/" (file_type file)) eqn:Hpre; [discriminate|].
    intros _ Hrest. apply prefix_append in Hrest. congruence.
  - intros Hrest. unfold newPhoto, startsWith. simpl.
    destruct (String.prefix "video/" (file_type file)) eqn:Hpre; [|reflexivity].
    exfalso. apply Hrest. apply prefix_append. exact Hpre.
Qed.

Lemma C10_kind_is_video_iff_type_starts_with_video_witness :
  let files := [(sample_pdf, env_3); (sample_video, env_2)] in
  let s' := handleFileUpload true files initial_state in
  (photosStore s' !! "id-3" = Some (newPhoto "all" sample_pdf env_3) /\
   photosStore initial_state !! "id-3" <> Some (newPhoto "all" sample_pdf env_3)) /\
  exists file e,
    In (file, e) files /\ "id-3" = gen_id e /\
    newPhoto "all" sample_pdf env_3 = newPhoto "all" file e /\
    (photo_type (newPhoto "all" sample_pdf env_3) = "video" <->
       exists rest, file_type file = String.append "video/" rest) /\
    (photo_type (newPhoto "all" sample_pdf env_3) = "image" <->
       ~ exists rest, file_type file = String.append "video/" rest).
Proof.
  intros files s'.
  assert (photosStore s' !! "id-3" = Some (newPhoto "all" sample_pdf env_3)) as H1
    by (vm_compute; reflexivity).
  assert (photosStore initial_state !! "id-3" <> Some (newPhoto "all" sample_pdf env_3)) as H2
    by (vm_compute; discriminate).
  split; [split; assumption|].
  exact (C10_kind_is_video_iff_type_starts_with_video true files initial_state "id-3"
           (newPhoto "all" sample_pdf env_3) H1 H2).
Defined.

(** ** The album view *)

Lemma inSelectedAlbum_true s p :
  inSelectedAlbum s p = true <->
  selectedView s = "all" \/ exists l, photo_albums p = Some l /\ In (selectedView s) l.
Proof.
  unfold inSelectedAlbum. rewrite orb_true_iff, String.eqb_eq, has_album_true. tauto.
Qed.

Lemma matchesSearch_true toLowerCase s p :
  matchesSearch toLowerCase s p = true <->
  searchTerm s = "" \/ substring (toLowerCase (searchTerm s)) (toLowerCase (photo_name p)).
Proof.
  unfold matchesSearch. rewrite orb_true_iff, String.eqb_eq, includes_substring. tauto.
Qed.

Lemma List_filter_sublist {A} (f : A -> bool) (l : list A) : sublist (List.filter f l) l.
Proof.
  induction l as [|x l IH]; simpl; [constructor|].
  destruct (f x); [apply sublist_skip | apply sublist_cons]; exact IH.
Qed.

(** C7: a photo is in the view exactly when it is in the gallery, the
    selected view is "all" or one of the photo's albums, and the search text
    is empty or its lower-cased form occurs in the lower-cased name.  The
    view keeps the gallery's order, and with an empty search text it is the
    album selection alone. *)
Theorem C7_view_selects_by_album_and_search (toLowerCase : string -> string) (s : State) :
  (forall p,
     In p (filteredPhotos toLowerCase s) <->
     In p (photos s) /\
     (selectedView s = "all" \/
      exists l, photo_albums p = Some l /\ In (selectedView s) l) /\
     (searchTerm s = "" \/
      substring (toLowerCase (searchTerm s)) (toLowerCase (photo_name p)))) /\
  sublist (filteredPhotos toLowerCase s) (photos s) /\
  filteredPhotos toLowerCase (set_searchTerm "" s) = List.filter (inSelectedAlbum s) (photos s).
Proof.
  split; [|split].
  - intros p. unfold filteredPhotos.
    rewrite filter_In, andb_true_iff, inSelectedAlbum_true, matchesSearch_true. tauto.
  - apply List_filter_sublist.
  - unfold filteredPhotos. simpl. apply filter_ext. intros p.
    unfold matchesSearch, inSelectedAlbum. simpl. apply andb_true_r.
Qed.

(** The album "Trip" of [with_trip] shows the image alone; back in "all"
    both items are shown, in the order they were added. *)
Example view_of_trip :
  List.map photo_id (filteredPhotos latin1_toLowerCase with_trip) = ["id-1"] /\
  List.map photo_id (filteredPhotos latin1_toLowerCase (set_selectedView "all" with_trip))
    = ["id-1"; "id-2"].
Proof. split; vm_compute; reflexivity. Qed.

(** The search ignores case: "BEACH" finds "beach.png". *)
Example search_ignores_case :
  List.map photo_name (filteredPhotos latin1_toLowerCase (set_searchTerm "BEACH" two_items))
    = ["beach.png"].
Proof. vm_compute. reflexivity. Qed.

(** ** Renaming *)

Lemma find_photo_None rid l :
  find_photo rid l = None <-> forall p, In p l -> photo_id p <> rid.
Proof.
  unfold find_photo. split.
  - intros H p Hin Heq. apply (find_none _ _ H) in Hin.
    apply String.eqb_neq in Hin. congruence.
  - intros H. induction l as [|q l IH]; simpl; [reflexivity|].
    destruct (String.eqb (photo_id q) rid) eqn:Heq.
    + apply String.eqb_eq in Heq. exfalso. apply (H q); [left; reflexivity | exact Heq].
    + apply IH. intros p Hin. apply H. right. exact Hin.
Qed.

Lemma map_rename_missing rid newName l :
  find_photo rid l = None -> List.map (rename_photo rid newName) l = l.
Proof.
  rewrite find_photo_None. intros H. induction l as [|q l IH]; simpl; [reflexivity|].
  rewrite IH by (intros p Hin; apply H; right; exact Hin).
  unfold rename_photo.
  destruct (String.eqb (photo_id q) rid) eqn:Heq; [|reflexivity].
  apply String.eqb_eq in Heq. exfalso. apply (H q); [left; reflexivity | exact Heq].
Qed.

(** C3, as stated, fails: [handleRename] reports no error.  In the gallery
    [two_items], renaming "id-1" to a name of three spaces, and renaming the
    identifier "id-9", which no photo carries, to "sunset", both end
    without a call to [alert] or [console.error]. *)
Lemma C3_rename_reports_no_error :
  (let s := set_ui (ui_set_isRenamingItem (Some ("id-1", "photo")) (ui two_items)) two_items in
   blank "   " = true /\ ~ reports_failure s (handleRename true "   " s)) /\
  (let s := set_ui (ui_set_isRenamingItem (Some ("id-9", "photo")) (ui two_items)) two_items in
   find_photo "id-9" (photos s) = None /\ ~ reports_failure s (handleRename true "sunset" s)).
Proof.
  split; (split; [vm_compute; reflexivity|]);
    intros [H | H]; apply H; vm_compute; reflexivity.
Qed.

(** C3, amended: with the rename dialog open on a photo, a blank name makes
    [handleRename] return at once, leaving the whole state as it was and
    reporting nothing; when no photo carries the identifier, neither the
    photo list nor the "photos" store changes, and with an open database
    and a name that is not blank no error is reported and the dialog is
    closed as after a successful rename. *)
Theorem C3_rename_blank_or_missing_changes_no_record txOk localItemName rid s :
  isRenamingItem (ui s) = Some (rid, "photo") ->
  let s' := handleRename txOk localItemName s in
  (blank localItemName = true -> s' = s) /\
  (find_photo rid (photos s) = None ->
     photos s' = photos s /\ photosStore s' = photosStore s /\
     (dbRef s = true -> blank localItemName = false ->
        ~ reports_failure s s' /\ isRenamingItem (ui s') = None)).
Proof.
  intros Hopen s'. subst s'. unfold handleRename. split.
  - intros Hb. apply trim_empty_iff in Hb. rewrite Hb. reflexivity.
  - intros Hmiss.
    destruct (String.eqb (trim localItemName) "") eqn:Htrim.
    + split; [reflexivity|]. split; [reflexivity|]. intros _ Hb.
      apply String.eqb_eq, trim_empty_iff in Htrim. congruence.
    + rewrite Hopen. simpl.
      rewrite (map_rename_missing rid _ _ Hmiss), Hmiss. unfold put_found.
      destruct (dbRef s); simpl.
      * split; [reflexivity|]. split; [reflexivity|]. intros _ _.
        split; [|reflexivity]. intros [H | H]; apply H; reflexivity.
      * split; [reflexivity|]. split; [reflexivity|]. discriminate.
Qed.

Lemma C3_rename_blank_or_missing_changes_no_record_witness :
  let s := set_ui (ui_set_isRenamingItem (Some ("id-9", "photo")) (ui two_items)) two_items in
  isRenamingItem (ui s) = Some ("id-9", "photo") /\
  handleRename true "   " s = s /\
  photos (handleRename true "sunset" s) = photos s /\
  photosStore (handleRename true "sunset" s) = photosStore s /\
  isRenamingItem (ui (handleRename true "sunset" s)) = None.
Proof.
  intros s.
  assert (isRenamingItem (ui s) = Some ("id-9", "photo")) as Hopen by reflexivity.
  destruct (C3_rename_blank_or_missing_changes_no_record true "   " "id-9" s Hopen)
    as [Hblank _].
  destruct (C3_rename_blank_or_missing_changes_no_record true "sunset" "id-9" s Hopen)
    as [_ Hmiss].
  destruct Hmiss as (Hp & Hs & Hrest); [vm_compute; reflexivity|].
  destruct Hrest as [_ Hclosed]; [reflexivity | vm_compute; reflexivity |].
  repeat split; auto.
Defined.

(** ** Deleting an album *)

Lemma scrub_album_albums a p :
  albums_or_empty (scrub_album a p) =
  List.filter (fun i => negb (String.eqb i a)) (albums_or_empty p).
Proof. reflexivity. Qed.

Lemma scrub_album_removes a p : ~ In a (albums_or_empty (scrub_album a p)).
Proof.
  rewrite scrub_album_albums, filter_In. intros [_ H].
  rewrite String.eqb_refl in H. discriminate.
Qed.

Lemma scrub_album_keeps a b p :
  b <> a -> In b (albums_or_empty (scrub_album a p)) <-> In b (albums_or_empty p).
Proof.
  intros Hne. rewrite scrub_album_albums, filter_In.
  apply String.eqb_neq in Hne. rewrite Hne. simpl. tauto.
Qed.

Lemma has_album_albums_or_empty p a : has_album p a = true <-> In a (albums_or_empty p).
Proof.
  unfold has_album, albums_or_empty. destruct (photo_albums p); simpl.
  - apply Array_includes_In.
  - split; [discriminate | intros []].
Qed.

Lemma List_filter_none {A} (f : A -> bool) (l : list A) :
  (forall x, In x l -> f x = false) -> List.filter f l = [].
Proof.
  induction l as [|x l IH]; intros H; simpl; [reflexivity|].
  rewrite (H x) by (left; reflexivity). apply IH. intros y Hy. apply H. right. exact Hy.
Qed.

Lemma put_all_cons p l m : put_all (p :: l) m = put_all l (<[photo_id p := p]> m).
Proof. reflexivity. Qed.

(** A record found in the store after [put_all] was written by it or was
    there before. *)
Lemma put_all_lookup l : forall m k q,
  put_all l m !! k = Some q -> (In q l /\ photo_id q = k) \/ m !! k = Some q.
Proof.
  induction l as [|p l IH]; intros m k q H; [right; exact H|].
  rewrite put_all_cons in H. destruct (IH _ _ _ H) as [[Hin Hid] | Hold].
  - left. split; [right; exact Hin | exact Hid].
  - destruct (decide (photo_id p = k)) as [Heq | Hne].
    + rewrite <- Heq, lookup_insert_eq in Hold. inversion Hold; subst q.
      left. split; [left; reflexivity | exact Heq].
    + rewrite lookup_insert_ne in Hold by exact Hne. right. exact Hold.
Qed.

Lemma put_all_keeps l : forall m k q0,
  m !! k = Some q0 ->
  exists q, put_all l m !! k = Some q /\ (q = q0 \/ (In q l /\ photo_id q = k)).
Proof.
  induction l as [|p l IH]; intros m k q0 H; [exists q0; auto|].
  rewrite put_all_cons. destruct (decide (photo_id p = k)) as [Heq | Hne].
  - destruct (IH (<[photo_id p := p]> m) k p) as (q & Hq & Hor).
    { rewrite <- Heq. apply lookup_insert_eq. }
    exists q. split; [exact Hq|]. right. destruct Hor as [-> | [Hin Hid]].
    + split; [left; reflexivity | exact Heq].
    + split; [right; exact Hin | exact Hid].
  - destruct (IH (<[photo_id p := p]> m) k q0) as (q & Hq & Hor).
    { rewrite lookup_insert_ne by exact Hne. exact H. }
    exists q. split; [exact Hq|]. destruct Hor as [-> | [Hin Hid]]; [left; reflexivity|].
    right. split; [right; exact Hin | exact Hid].
Qed.

(** Every photo of the list finds, under its identifier, a record of the
    list. *)
Lemma put_all_present l : forall m p,
  In p l -> exists q, put_all l m !! photo_id p = Some q /\ In q l /\ photo_id q = photo_id p.
Proof.
  induction l as [|x l IH]; intros m p Hin; [destruct Hin|].
  rewrite put_all_cons. destruct Hin as [-> | Hin].
  - destruct (put_all_keeps l (<[photo_id p := p]> m) (photo_id p) p) as (q & Hq & Hor).
    { apply lookup_insert_eq. }
    exists q. split; [exact Hq|]. destruct Hor as [-> | [Hin Hid]].
    + split; [left; reflexivity | reflexivity].
    + split; [right; exact Hin | exact Hid].
  - destruct (IH (<[photo_id x := x]> m) p Hin) as (q & Hq & Hin' & Hid).
    exists q. split; [exact Hq|]. split; [right; exact Hin' | exact Hid].
Qed.

(** C4, as stated, fails on the reserved album: [handleDeleteAlbum] on
    "all" returns without reporting anything, so no InvalidArgument reaches
    the caller. *)
Lemma C4_delete_all_reports_no_error :
  ~ reports_failure two_items (handleDeleteAlbum true "all" two_items).
Proof.
  intros [H | H]; apply H; vm_compute; reflexivity.
Qed.

(** C4, amended: [handleDeleteAlbum] on "all" changes nothing and reports
    nothing.  On any other identifier it removes the albums with that
    identifier from the album list, removes the identifier from the album
    list of every photo of the gallery and leaves the other memberships
    alone, so that the view of that album is empty for every search text;
    the selected view becomes "all" when it was the deleted album and is
    kept otherwise.  When the write commits, every photo of the gallery has
    a scrubbed record in the "photos" store; when it does not, the store is
    left as it was. *)
Theorem C4_delete_album_scrubs_and_falls_back
    (toLowerCase : string -> string) txOk albumId s :
  albumId <> "all" ->
  let s' := handleDeleteAlbum txOk albumId s in
  (handleDeleteAlbum txOk "all" s = s) /\
  (forall a, In a (albums s') <-> In a (albums s) /\ album_id a <> albumId) /\
  photos s' = List.map (scrub_album albumId) (photos s) /\
  (forall p, In p (photos s') -> ~ In albumId (albums_or_empty p)) /\
  (forall p b, In p (photos s) -> b <> albumId ->
     (In b (albums_or_empty (scrub_album albumId p)) <-> In b (albums_or_empty p))) /\
  (forall search,
     filteredPhotos toLowerCase (set_searchTerm search (set_selectedView albumId s')) = []) /\
  selectedView s' = (if String.eqb (selectedView s) albumId then "all" else selectedView s) /\
  (dbRef s && txOk = true ->
     forall p, In p (photos s') ->
       exists q, photosStore s' !! photo_id p = Some q /\ In q (photos s') /\
                 ~ In albumId (albums_or_empty q)) /\
  (dbRef s && txOk = false -> photosStore s' = photosStore s).
Proof.
  intros Hne s'. split; [reflexivity|].
  assert (String.eqb albumId "all" = false) as Hall by (apply String.eqb_neq; exact Hne).
  assert (photos s' = List.map (scrub_album albumId) (photos s)) as Hphotos.
  { subst s'. unfold handleDeleteAlbum. rewrite Hall.
    destruct (dbRef s && txOk), (String.eqb (selectedView s) albumId); reflexivity. }
  assert (forall p, In p (photos s') -> ~ In albumId (albums_or_empty p)) as Hscrubbed.
  { intros p. rewrite Hphotos, in_map_iff. intros (p0 & <- & _). apply scrub_album_removes. }
  split; [|split; [exact Hphotos | split; [exact Hscrubbed | split; [|split; [|split; [|split]]]]]].
  - intros a. subst s'. unfold handleDeleteAlbum. rewrite Hall.
    assert (forall l, In a (List.filter
                         (fun album => negb (String.eqb (album_id album) albumId)) l) <->
                      In a l /\ album_id a <> albumId) as Hf.
    { intros l. rewrite filter_In, negb_true_iff, String.eqb_neq. tauto. }
    destruct (dbRef s && txOk), (String.eqb (selectedView s) albumId); simpl; apply Hf.
  - intros p b _ Hb. apply scrub_album_keeps. exact Hb.
  - intros search. unfold filteredPhotos. simpl. apply List_filter_none.
    intros p Hp. apply andb_false_iff. left.
    unfold inSelectedAlbum. simpl. rewrite Hall. simpl.
    destruct (has_album p albumId) eqn:Hhas; [|reflexivity].
    apply has_album_albums_or_empty in Hhas. exfalso. exact (Hscrubbed p Hp Hhas).
  - subst s'. unfold handleDeleteAlbum. rewrite Hall.
    destruct (dbRef s && txOk), (String.eqb (selectedView s) albumId); reflexivity.
  - intros Hok p Hp.
    assert (photosStore s' = put_all (photos s') (photosStore s)) as Hstore.
    { rewrite Hphotos. subst s'. unfold handleDeleteAlbum. rewrite Hall, Hok.
      destruct (String.eqb (selectedView s) albumId); reflexivity. }
    rewrite Hstore.
    destruct (put_all_present (photos s') (photosStore s) p Hp) as (q & Hq & Hin & _).
    exists q. split; [exact Hq|]. split; [exact Hin | apply Hscrubbed; exact Hin].
  - intros Hko. subst s'. unfold handleDeleteAlbum. rewrite Hall, Hko.
    destruct (String.eqb (selectedView s) albumId); reflexivity.
Qed.

Lemma C4_delete_album_scrubs_and_falls_back_witness :
  let s' := handleDeleteAlbum true "album-1" with_trip in
  "album-1" <> "all" /\
  List.map album_id (albums with_trip) = ["all"; "album-1"] /\
  List.map album_id (albums s') = ["all"] /\
  List.map albums_or_empty (photos with_trip) = [["all"; "album-1"]; ["all"]] /\
  List.map albums_or_empty (photos s') = [["all"]; ["all"]] /\
  filteredPhotos latin1_toLowerCase (set_searchTerm "" (set_selectedView "album-1" s')) = [] /\
  selectedView with_trip = "album-1" /\ selectedView s' = "all".
Proof.
  intros s'.
  assert ("album-1" <> "all") as Hne by discriminate.
  destruct (C4_delete_album_scrubs_and_falls_back latin1_toLowerCase true "album-1"
              with_trip Hne) as (_ & _ & Hphotos & _ & _ & Hview & Hsel & _).
  fold s' in Hphotos, Hview, Hsel.
  split; [exact Hne|]. split; [vm_compute; reflexivity|]. split; [vm_compute; reflexivity|].
  split; [vm_compute; reflexivity|]. split; [rewrite Hphotos; vm_compute; reflexivity|].
  split; [apply Hview|]. split; [reflexivity | rewrite Hsel; vm_compute; reflexivity].
Defined.

(** ** The URL cache *)

(** C5, as stated, fails on the result of the later resolve: after the
    image of [image_shown] is deleted, [loadFileUrl] for its identifier does
    not fail with NotFound; its promise fulfils with the placeholder URL and
    nothing is reported. *)
Lemma C5_resolve_after_delete_is_no_error :
  let s' := handleDeletePhotos true true ["id-1"] image_shown in
  urlCache image_shown !! "id-1" = Some "blob:url-1" /\
  fst (loadFileUrl true "blob:url-2" "id-1" s') = Some "/placeholder.svg" /\
  ~ resolve_fails s' (loadFileUrl true "blob:url-2" "id-1" s').
Proof.
  intros s'. split; [vm_compute; reflexivity|]. split; [vm_compute; reflexivity|].
  intros [H | [H | H]].
  - vm_compute in H. discriminate.
  - apply H. vm_compute. reflexivity.
  - apply H. vm_compute. reflexivity.
Qed.

(** C5, amended: a deletion whose transactions commit removes the cache
    entry of every deleted photo (whose [fileId] is its [id], as for every
    uploaded photo), revokes the URL that was cached for it, and removes the
    photo from the gallery.  A later [loadFileUrl] for that identifier never
    returns the revoked URL: when its read succeeds it fulfils with the
    placeholder "/placeholder.svg", it caches nothing and reports nothing. *)
Theorem C5_delete_evicts_cached_url ids s p :
  dbRef s = true ->
  photo_fileId p = photo_id p ->
  In (photo_id p) ids ->
  let s' := handleDeletePhotos true true ids s in
  urlCache s' !! photo_fileId p = None /\
  (forall url, urlCache s !! photo_fileId p = Some url -> In url (revokedUrls s')) /\
  ~ In p (photos s') /\
  (forall freshUrl,
     loadFileUrl true freshUrl (photo_fileId p) s' = (Some placeholder, s')) /\
  (forall getOk freshUrl,
     snd (loadFileUrl getOk freshUrl (photo_fileId p) s') = s' /\
     (fst (loadFileUrl getOk freshUrl (photo_fileId p) s') = Some placeholder \/
      fst (loadFileUrl getOk freshUrl (photo_fileId p) s') = None)).
Proof.
  intros Hdb Hfid Hin s'.
  destruct (handleDeletePhotos_ok ids s Hdb) as (Hfs & _ & Hph & Hc & Hr & _ & _ & Hdb').
  fold s' in Hfs, Hph, Hc, Hr, Hdb'.
  destruct (evict_all_cache ids s) as (Hcache & _ & Hrev).
  assert (Array_includes ids (photo_id p) = true) as Hinc by (apply Array_includes_In; exact Hin).
  assert (urlCache s' !! photo_fileId p = None) as Hnone
    by (rewrite Hc, Hcache, Hfid, Hinc; reflexivity).
  assert (filesStore s' !! photo_fileId p = None) as Hblob
    by (rewrite Hfs, delete_all_lookup, Hfid, Hinc; reflexivity).
  assert (forall getOk freshUrl,
            loadFileUrl getOk freshUrl (photo_fileId p) s' =
              (if String.eqb (photo_fileId p) "" then Some placeholder
               else if getOk then Some placeholder else None, s')) as Hload.
  { intros getOk freshUrl. rewrite loadFileUrl_alone. rewrite Hdb'. simpl.
    destruct (String.eqb (photo_fileId p) ""); [reflexivity|].
    rewrite Hnone. destruct getOk; simpl; [rewrite Hblob|]; reflexivity. }
  split; [exact Hnone|]. split; [|split; [|split]].
  - intros url Hurl. rewrite Hr. apply (Hrev (photo_fileId p)); [rewrite Hfid; exact Hin | exact Hurl].
  - rewrite Hph, filter_In, Hinc. intros [_ H]. discriminate.
  - intros freshUrl. rewrite Hload. destruct (String.eqb (photo_fileId p) ""); reflexivity.
  - intros getOk freshUrl. rewrite Hload. split; [reflexivity|].
    destruct (String.eqb (photo_fileId p) ""), getOk; simpl; auto.
Qed.

Lemma C5_delete_evicts_cached_url_witness :
  let p := newPhoto "all" sample_image env_1 in
  let s' := handleDeletePhotos true true ["id-1"] image_shown in
  (dbRef image_shown = true /\ photo_fileId p = photo_id p /\ In (photo_id p) ["id-1"]) /\
  In p (photos image_shown) /\
  urlCache image_shown !! "id-1" = Some "blob:url-1" /\
  urlCache s' !! "id-1" = None /\
  In "blob:url-1" (revokedUrls s') /\
  ~ In p (photos s') /\
  loadFileUrl true "blob:url-2" "id-1" s' = (Some "/placeholder.svg", s').
Proof.
  intros p s'.
  assert (dbRef image_shown = true) as H1 by reflexivity.
  assert (photo_fileId p = photo_id p) as H2 by reflexivity.
  assert (In (photo_id p) ["id-1"]) as H3 by (left; reflexivity).
  assert (urlCache image_shown !! "id-1" = Some "blob:url-1") as Hcached
    by (vm_compute; reflexivity).
  destruct (C5_delete_evicts_cached_url ["id-1"] image_shown p H1 H2 H3)
    as (Hnone & Hrev & Hgone & Hload & _).
  split; [auto|]. split; [left; reflexivity|]. split; [exact Hcached|].
  split; [exact Hnone|]. split; [exact (Hrev _ Hcached)|]. split; [exact Hgone|].
  exact (Hload "blob:url-2").
Defined.

(** ** Adding to and removing from an album *)

Ltac state_simpl :=
  cbn [photos albums selectedView searchTerm ui dbRef filesStore photosStore urlCache
       revokedUrls alerts consoleErrors
       set_photos set_albums set_selectedView set_searchTerm set_ui set_dbRef
       set_filesStore set_photosStore set_urlCache set_revokedUrls console_error alert
       forget_logs] in *.

Lemma Array_includes_last l a : Array_includes (l ++ [a]) a = true.
Proof. apply Array_includes_In, in_or_app. right. left. reflexivity. Qed.

Lemma add_album_idem pid a p : add_album pid a (add_album pid a p) = add_album pid a p.
Proof.
  unfold add_album. destruct (String.eqb (photo_id p) pid) eqn:Hid; [|rewrite Hid; reflexivity].
  destruct (has_album p a) eqn:Hhas; simpl.
  - rewrite Hid, Hhas. reflexivity.
  - rewrite Hid. unfold has_album at 1. simpl. rewrite Array_includes_last. reflexivity.
Qed.

Lemma List_filter_idem {A} (f : A -> bool) (l : list A) :
  List.filter f (List.filter f l) = List.filter f l.
Proof.
  induction l as [|x l IH]; simpl; [reflexivity|].
  destruct (f x) eqn:Hx; simpl; [rewrite Hx, IH; reflexivity | exact IH].
Qed.

Lemma List_filter_all {A} (f : A -> bool) (l : list A) :
  (forall x, In x l -> f x = true) -> List.filter f l = l.
Proof.
  induction l as [|x l IH]; intros H; simpl; [reflexivity|].
  rewrite (H x) by (left; reflexivity). f_equal. apply IH. intros y Hy. apply H. right. exact Hy.
Qed.

Lemma remove_album_idem pid a p :
  remove_album pid a (remove_album pid a p) = remove_album pid a p.
Proof.
  unfold remove_album. destruct (String.eqb (photo_id p) pid) eqn:Hid; [|rewrite Hid; reflexivity].
  simpl. rewrite Hid. unfold scrub_album, with_albums, albums_or_empty. simpl.
  rewrite List_filter_idem. reflexivity.
Qed.

Lemma map_idem {A} (f : A -> A) (l : list A) :
  (forall x, f (f x) = f x) -> List.map f (List.map f l) = List.map f l.
Proof. intros H. rewrite map_map. apply map_ext. exact H. Qed.

Lemma map_fixed {A} (f : A -> A) (l : list A) :
  (forall x, In x l -> f x = x) -> List.map f l = l.
Proof.
  intros H. induction l as [|x l IH]; simpl; [reflexivity|].
  rewrite (H x) by (left; reflexivity). f_equal. apply IH. intros y Hy. apply H. right. exact Hy.
Qed.

Lemma scrub_album_absent a p l :
  photo_albums p = Some l -> ~ In a l -> scrub_album a p = p.
Proof.
  intros Hl Hnot. unfold scrub_album, with_albums, albums_or_empty. rewrite Hl.
  rewrite List_filter_all.
  - destruct p. simpl in *. congruence.
  - intros x Hx. apply negb_true_iff, String.eqb_neq. intros ->. exact (Hnot Hx).
Qed.

Lemma handleAddToAlbum_twice txOk pid a s :
  forget_logs (handleAddToAlbum txOk pid a (handleAddToAlbum txOk pid a s)) =
  forget_logs (handleAddToAlbum txOk pid a s) /\
  (dbRef s = true ->
   handleAddToAlbum true pid a (handleAddToAlbum true pid a s) = handleAddToAlbum true pid a s).
Proof.
  unfold handleAddToAlbum. destruct (String.eqb a "all"); [split; reflexivity|].
  unfold put_found.
  destruct (dbRef s) eqn:Hdb; cbn [negb].
  - destruct (find_photo pid (List.map (add_album pid a) (photos s))) as [q|] eqn:Hfind.
    + split.
      * destruct txOk; state_simpl.
        -- rewrite (map_idem _ _ (add_album_idem pid a)), Hfind, Hdb. cbn [negb]. state_simpl.
           rewrite insert_insert_eq. reflexivity.
        -- rewrite Hfind, Hdb. cbn [negb]. state_simpl. reflexivity.
      * intros _. state_simpl.
        rewrite (map_idem _ _ (add_album_idem pid a)), Hfind, Hdb. cbn [negb]. state_simpl.
        rewrite insert_insert_eq. reflexivity.
    + split; [|intros _]; state_simpl;
        rewrite (map_idem _ _ (add_album_idem pid a)), Hfind, Hdb; cbn [negb]; state_simpl;
        reflexivity.
  - split; [|discriminate]. state_simpl. rewrite Hdb. cbn [negb]. state_simpl. reflexivity.
Qed.

Lemma handleRemoveFromAlbum_twice txOk pid a s :
  forget_logs (handleRemoveFromAlbum txOk pid a (handleRemoveFromAlbum txOk pid a s)) =
  forget_logs (handleRemoveFromAlbum txOk pid a s) /\
  (dbRef s = true ->
   handleRemoveFromAlbum true pid a (handleRemoveFromAlbum true pid a s) =
   handleRemoveFromAlbum true pid a s).
Proof.
  unfold handleRemoveFromAlbum. destruct (String.eqb a "all"); [split; reflexivity|].
  unfold put_found.
  destruct (dbRef s) eqn:Hdb; cbn [negb].
  - destruct (find_photo pid (List.map (remove_album pid a) (photos s))) as [q|] eqn:Hfind.
    + split.
      * destruct txOk; state_simpl.
        -- rewrite (map_idem _ _ (remove_album_idem pid a)), Hfind, Hdb. cbn [negb]. state_simpl.
           rewrite insert_insert_eq. reflexivity.
        -- rewrite Hfind, Hdb. cbn [negb]. state_simpl. reflexivity.
      * intros _. state_simpl.
        rewrite (map_idem _ _ (remove_album_idem pid a)), Hfind, Hdb. cbn [negb]. state_simpl.
        rewrite insert_insert_eq. reflexivity.
    + split; [|intros _]; state_simpl;
        rewrite (map_idem _ _ (remove_album_idem pid a)), Hfind, Hdb; cbn [negb]; state_simpl;
        reflexivity.
  - split; [|discriminate]. state_simpl. rewrite Hdb. cbn [negb]. state_simpl. reflexivity.
Qed.

Lemma handleAddToAlbum_photos txOk pid a s :
  photos (handleAddToAlbum txOk pid a s) = photos s \/
  photos (handleAddToAlbum txOk pid a s) = List.map (add_album pid a) (photos s).
Proof.
  unfold handleAddToAlbum. destruct (String.eqb a "all"); [left; reflexivity|].
  destruct (put_found _ _ _); [right | left]; reflexivity.
Qed.

Lemma handleRemoveFromAlbum_photos txOk pid a s :
  photos (handleRemoveFromAlbum txOk pid a s) = photos s \/
  photos (handleRemoveFromAlbum txOk pid a s) = List.map (remove_album pid a) (photos s).
Proof.
  unfold handleRemoveFromAlbum. destruct (String.eqb a "all"); [left; reflexivity|].
  destruct (put_found _ _ _); [right | left]; reflexivity.
Qed.

Lemma set_same_photos_store (s : State) :
  set_photos (photos s) (set_photosStore (photosStore s) s) = s.
Proof. destruct s. reflexivity. Qed.

Lemma put_found_in_sync pid s :
  dbRef s = true -> store_in_sync pid s ->
  put_found true (find_photo pid (photos s)) s = Some (photosStore s).
Proof.
  intros Hdb Hsync. unfold put_found. rewrite Hdb. simpl.
  destruct (find_photo pid (photos s)) as [p|] eqn:Hfind; [|reflexivity].
  rewrite insert_id by (apply Hsync; exact Hfind). reflexivity.
Qed.

(** C6: both handlers return at once on "all", leaving the state as it was.
    Run twice with the same arguments and the same transaction outcome,
    each leaves the state that one run leaves (the error log apart, which
    grows with every failed run); when the write commits the two states are
    equal outright.  Adding a photo to an album it is already in, and
    removing it from an album it is not in, leave the photo list as it was;
    when moreover the "photos" store holds the in-memory record and the
    write commits, the removal leaves the whole state as it was and the
    addition changes nothing but the view state it resets (context menu and
    drag markers). *)
Theorem C6_album_membership_is_idempotent txOk photoId albumId s :
  (handleAddToAlbum txOk photoId "all" s = s /\
   handleRemoveFromAlbum txOk photoId "all" s = s) /\
  forget_logs (handleAddToAlbum txOk photoId albumId (handleAddToAlbum txOk photoId albumId s)) =
    forget_logs (handleAddToAlbum txOk photoId albumId s) /\
  forget_logs (handleRemoveFromAlbum txOk photoId albumId
                 (handleRemoveFromAlbum txOk photoId albumId s)) =
    forget_logs (handleRemoveFromAlbum txOk photoId albumId s) /\
  (dbRef s = true ->
     handleAddToAlbum true photoId albumId (handleAddToAlbum true photoId albumId s) =
       handleAddToAlbum true photoId albumId s /\
     handleRemoveFromAlbum true photoId albumId (handleRemoveFromAlbum true photoId albumId s) =
       handleRemoveFromAlbum true photoId albumId s) /\
  ((forall p, In p (photos s) -> photo_id p = photoId -> has_album p albumId = true) ->
     photos (handleAddToAlbum txOk photoId albumId s) = photos s /\
     (albumId <> "all" -> dbRef s = true -> store_in_sync photoId s ->
        handleAddToAlbum true photoId albumId s = set_ui (ui_after_add (ui s)) s)) /\
  ((forall p, In p (photos s) -> photo_id p = photoId ->
      exists l, photo_albums p = Some l /\ ~ In albumId l) ->
     photos (handleRemoveFromAlbum txOk photoId albumId s) = photos s /\
     (dbRef s = true -> store_in_sync photoId s ->
        handleRemoveFromAlbum true photoId albumId s = s)).
Proof.
  split; [split; reflexivity|].
  split; [exact (proj1 (handleAddToAlbum_twice txOk photoId albumId s))|].
  split; [exact (proj1 (handleRemoveFromAlbum_twice txOk photoId albumId s))|].
  split; [intros Hdb; split;
          [exact (proj2 (handleAddToAlbum_twice true photoId albumId s) Hdb)
          |exact (proj2 (handleRemoveFromAlbum_twice true photoId albumId s) Hdb)]|].
  split.
  - intros Hin.
    assert (List.map (add_album photoId albumId) (photos s) = photos s) as Hfix.
    { apply map_fixed. intros p Hp. unfold add_album.
      destruct (String.eqb (photo_id p) photoId) eqn:Hid; [|reflexivity].
      apply String.eqb_eq in Hid. rewrite (Hin p Hp Hid). reflexivity. }
    split.
    + destruct (handleAddToAlbum_photos txOk photoId albumId s) as [H | H];
        rewrite H; [reflexivity | exact Hfix].
    + intros Hne Hdb Hsync. unfold handleAddToAlbum.
      apply String.eqb_neq in Hne. rewrite Hne.
      rewrite Hfix, (put_found_in_sync _ _ Hdb Hsync), set_same_photos_store. reflexivity.
  - intros Hout.
    assert (List.map (remove_album photoId albumId) (photos s) = photos s) as Hfix.
    { apply map_fixed. intros p Hp. unfold remove_album.
      destruct (String.eqb (photo_id p) photoId) eqn:Hid; [|reflexivity].
      apply String.eqb_eq in Hid. destruct (Hout p Hp Hid) as (l & Hl & Hnot).
      exact (scrub_album_absent albumId p l Hl Hnot). }
    split.
    + destruct (handleRemoveFromAlbum_photos txOk photoId albumId s) as [H | H];
        rewrite H; [reflexivity | exact Hfix].
    + intros Hdb Hsync. unfold handleRemoveFromAlbum.
      destruct (String.eqb albumId "all"); [reflexivity|].
      rewrite Hfix, (put_found_in_sync _ _ Hdb Hsync). apply set_same_photos_store.
Qed.

Lemma C6_album_membership_is_idempotent_witness :
  let add := handleAddToAlbum true "id-2" "album-1" in
  let rem := handleRemoveFromAlbum true "id-2" "album-1" in
  (dbRef with_trip = true /\ store_in_sync "id-2" with_trip /\
   (forall p, In p (photos with_trip) -> photo_id p = "id-2" ->
      exists l, photo_albums p = Some l /\ ~ In "album-1" l) /\
   (forall p, In p (photos (add with_trip)) -> photo_id p = "id-2" ->
      has_album p "album-1" = true)) /\
  List.map albums_or_empty (photos (add with_trip)) = [["all"; "album-1"]; ["all"; "album-1"]] /\
  add (add with_trip) = add with_trip /\
  rem (rem with_trip) = rem with_trip /\
  photos (add (add with_trip)) = photos (add with_trip) /\
  rem with_trip = with_trip.
Proof.
  intros add rem.
  assert (dbRef with_trip = true) as Hdb by reflexivity.
  assert (store_in_sync "id-2" with_trip) as Hsync.
  { intros p Hp. vm_compute in Hp. inversion Hp; subst p. vm_compute. reflexivity. }
  assert (forall p, In p (photos with_trip) -> photo_id p = "id-2" ->
            exists l, photo_albums p = Some l /\ ~ In "album-1" l) as Hout.
  { intros p [<- | [<- | []]] Hid; [vm_compute in Hid; discriminate|].
    exists ["all"]. split; [reflexivity|]. intros [H | []]. discriminate. }
  assert (forall p, In p (photos (add with_trip)) -> photo_id p = "id-2" ->
            has_album p "album-1" = true) as Hin.
  { intros p [<- | [<- | []]] Hid; [vm_compute in Hid; discriminate | vm_compute; reflexivity]. }
  destruct (C6_album_membership_is_idempotent true "id-2" "album-1" with_trip)
    as (_ & _ & _ & Htwice & _ & Hrem).
  destruct (Htwice Hdb) as [Hadd2 Hrem2].
  destruct (Hrem Hout) as [_ Hnoop].
  destruct (C6_album_membership_is_idempotent true "id-2" "album-1" (add with_trip))
    as (_ & _ & _ & _ & Hadd & _).
  destruct (Hadd Hin) as [Hadd_photos _].
  split; [repeat split; assumption|].
  split; [vm_compute; reflexivity|]. split; [exact Hadd2|]. split; [exact Hrem2|].
  split; [exact Hadd_photos | exact (Hnoop Hdb Hsync)].
Defined.

(** ** Invariant I3: every photo is in "all" *)

Lemma has_all_with_albums v p : In "all" v -> has_all (with_albums v p).
Proof. intros H. exists v. split; [reflexivity | exact H]. Qed.

Lemma has_all_albums_or_empty p : has_all p -> In "all" (albums_or_empty p).
Proof. intros (l & Hl & Hin). unfold albums_or_empty. rewrite Hl. exact Hin. Qed.

Lemma has_all_add_album pid a p : has_all p -> has_all (add_album pid a p).
Proof.
  intros H. unfold add_album.
  destruct (String.eqb (photo_id p) pid); [|exact H].
  destruct (has_album p a); [exact H|]. simpl.
  apply has_all_with_albums, in_or_app. left. apply has_all_albums_or_empty, H.
Qed.

Lemma has_all_scrub_album a p : a <> "all" -> has_all p -> has_all (scrub_album a p).
Proof.
  intros Hne H. apply has_all_with_albums, filter_In.
  split; [apply has_all_albums_or_empty, H|].
  apply negb_true_iff, String.eqb_neq. congruence.
Qed.

Lemma has_all_remove_album pid a p : a <> "all" -> has_all p -> has_all (remove_album pid a p).
Proof.
  intros Hne H. unfold remove_album.
  destruct (String.eqb (photo_id p) pid); [apply has_all_scrub_album; assumption | exact H].
Qed.

Lemma has_all_rename_photo rid n p : has_all p -> has_all (rename_photo rid n p).
Proof.
  intros H. unfold rename_photo. destruct (String.eqb (photo_id p) rid); exact H.
Qed.

Lemma has_all_attach_album sel newId p : has_all p -> has_all (attach_album sel newId p).
Proof.
  intros H. unfold attach_album. destruct (Array_includes sel (photo_id p)); [|exact H].
  apply has_all_with_albums, in_or_app. left. apply has_all_albums_or_empty, H.
Qed.

Lemma Forall_has_all_map (f : Photo -> Photo) (l : list Photo) :
  (forall p, has_all p -> has_all (f p)) ->
  (forall p, In p l -> has_all p) -> forall p, In p (List.map f l) -> has_all p.
Proof.
  intros Hf Hl p Hin. apply in_map_iff in Hin as (q & <- & Hq). apply Hf, Hl, Hq.
Qed.

Lemma store_ok_insert k p m : has_all p -> store_ok m -> store_ok (<[k := p]> m).
Proof.
  intros Hp Hm k' q Hq. destruct (decide (k = k')) as [<- | Hne].
  - rewrite lookup_insert_eq in Hq. inversion Hq; subst. exact Hp.
  - rewrite lookup_insert_ne in Hq by exact Hne. exact (Hm _ _ Hq).
Qed.

Lemma store_ok_put_all l m :
  (forall p, In p l -> has_all p) -> store_ok m -> store_ok (put_all l m).
Proof.
  intros Hl Hm k q Hq. destruct (put_all_lookup _ _ _ _ Hq) as [[Hin _] | Hold].
  - exact (Hl _ Hin).
  - exact (Hm _ _ Hold).
Qed.

Lemma store_ok_delete_all ids m : store_ok m -> store_ok (delete_all ids m).
Proof.
  intros Hm k q Hq. rewrite delete_all_lookup in Hq.
  destruct (Array_includes ids k); [discriminate | exact (Hm _ _ Hq)].
Qed.

Lemma find_photo_In rid l p : find_photo rid l = Some p -> In p l.
Proof. intros H. exact (proj1 (find_some _ _ H)). Qed.

Lemma store_ok_put_found txOk l rid s ps :
  (forall p, In p l -> has_all p) ->
  store_ok (photosStore s) ->
  put_found txOk (find_photo rid l) s = Some ps -> store_ok ps.
Proof.
  intros Hl Hm. unfold put_found. destruct (dbRef s); simpl; [|discriminate].
  destruct (find_photo rid l) as [p|] eqn:Hfind.
  - destruct txOk; [|discriminate]. intros H. inversion H; subst.
    apply store_ok_insert; [apply Hl, (find_photo_In _ _ _ Hfind) | exact Hm].
  - intros H. inversion H; subst. exact Hm.
Qed.

Lemma I3_handleFileUpload initOk files s : I3 s -> I3 (handleFileUpload initOk files s).
Proof.
  intros [Hph Hst]. unfold handleFileUpload.
  destruct files as [|fe files]; [split; assumption|].
  destruct (negb (dbRef s) && negb initOk); [split; assumption|].
  destruct (upload_all _ _ _ _) as [[fs ps] rs] eqn:Hrun.
  destruct (upload_all_inv _ _ _ _ _ _ _ Hrun) as (_ & Hrec & _ & _ & Hres & _).
  assert (store_ok ps) as Hps.
  { intros k p Hk. destruct (Hrec k p Hk) as [Hold | (f & e & _ & _ & _ & _ & ->)].
    - exact (Hst _ _ Hold).
    - apply newPhoto_has_all. }
  destruct (Promise_all rs) as [newPhotos|] eqn:Hall; split; state_simpl; try assumption.
  intros p Hin. apply in_app_or in Hin as [Hin | Hin]; [exact (Hph _ Hin)|].
  destruct (Hres p (Promise_all_Some _ _ Hall _ Hin)) as (f & e & _ & _ & _ & ->).
  apply newPhoto_has_all.
Qed.

Lemma I3_handleDeletePhotos filesOk photosOk ids s :
  I3 s -> I3 (handleDeletePhotos filesOk photosOk ids s).
Proof.
  intros [Hph Hst]. unfold handleDeletePhotos.
  destruct (dbRef s); cbn [negb]; [|split; assumption].
  destruct filesOk; cbn [negb]; [|split; assumption].
  destruct photosOk; cbn [negb]; [|split; assumption].
  set (s2 := set_photosStore _ (set_filesStore _ s)).
  pose proof (evict_all_frame ids s2) as Hf. simpl in Hf.
  destruct Hf as (_ & _ & _ & _ & _ & _ & _ & H8 & _).
  split; state_simpl.
  - intros p Hin. apply filter_In in Hin as [Hin _]. exact (Hph _ Hin).
  - rewrite H8. exact (store_ok_delete_all ids _ Hst).
Qed.

Lemma I3_handleDeleteAlbum txOk a s : I3 s -> I3 (handleDeleteAlbum txOk a s).
Proof.
  intros [Hph Hst]. unfold handleDeleteAlbum.
  destruct (String.eqb a "all") eqn:Hall; [split; assumption|].
  apply String.eqb_neq in Hall.
  assert (forall p, In p (List.map (scrub_album a) (photos s)) -> has_all p) as Hup
    by (apply Forall_has_all_map; [intros p; apply has_all_scrub_album; exact Hall | exact Hph]).
  destruct (dbRef s && txOk), (String.eqb (selectedView s) a); split; state_simpl;
    try assumption; exact (store_ok_put_all _ _ Hup Hst).
Qed.

Lemma I3_handleAddToAlbum txOk pid a s : I3 s -> I3 (handleAddToAlbum txOk pid a s).
Proof.
  intros [Hph Hst]. unfold handleAddToAlbum.
  destruct (String.eqb a "all"); [split; assumption|].
  assert (forall p, In p (List.map (add_album pid a) (photos s)) -> has_all p) as Hup
    by (apply Forall_has_all_map; [intros p; apply has_all_add_album | exact Hph]).
  destruct (put_found _ _ _) as [ps|] eqn:Hput; split; state_simpl; try assumption.
  exact (store_ok_put_found _ _ _ _ _ Hup Hst Hput).
Qed.

Lemma I3_handleRemoveFromAlbum txOk pid a s : I3 s -> I3 (handleRemoveFromAlbum txOk pid a s).
Proof.
  intros [Hph Hst]. unfold handleRemoveFromAlbum.
  destruct (String.eqb a "all") eqn:Hall; [split; assumption|].
  apply String.eqb_neq in Hall.
  assert (forall p, In p (List.map (remove_album pid a) (photos s)) -> has_all p) as Hup
    by (apply Forall_has_all_map; [intros p; apply has_all_remove_album; exact Hall | exact Hph]).
  destruct (put_found _ _ _) as [ps|] eqn:Hput; split; state_simpl; try assumption.
  exact (store_ok_put_found _ _ _ _ _ Hup Hst Hput).
Qed.

Lemma I3_handleRename txOk n s : I3 s -> I3 (handleRename txOk n s).
Proof.
  intros [Hph Hst]. unfold handleRename.
  destruct (String.eqb (trim n) ""); [split; assumption|].
  destruct (isRenamingItem (ui s)) as [[rid rtype]|]; [|split; assumption].
  destruct (String.eqb rtype "photo").
  - assert (forall p, In p (List.map (rename_photo rid (trim n)) (photos s)) -> has_all p)
      as Hup by (apply Forall_has_all_map; [intros p; apply has_all_rename_photo | exact Hph]).
    destruct (put_found _ _ _) as [ps|] eqn:Hput; split; state_simpl; try assumption.
    exact (store_ok_put_found _ _ _ _ _ Hup Hst Hput).
  - destruct (String.eqb rtype "album"); split; assumption.
Qed.

Lemma I3_handleCreateAlbum newId nowIso txOk n s :
  I3 s -> I3 (handleCreateAlbum newId nowIso txOk n s).
Proof.
  intros [Hph Hst]. unfold handleCreateAlbum.
  destruct (String.eqb (trim n) ""); [split; assumption|].
  destruct (selectedItems (ui s)) as [|i sel] eqn:Hsel; [split; assumption|].
  assert (forall p, In p (List.map (attach_album (i :: sel) newId) (photos s)) -> has_all p)
    as Hup by (apply Forall_has_all_map; [intros p; apply has_all_attach_album | exact Hph]).
  destruct (dbRef s && txOk); split; state_simpl; try assumption.
  refine (store_ok_put_all _ _ _ Hst).
  intros p Hin. apply filter_In in Hin as [Hin _]. exact (Hup _ Hin).
Qed.

Lemma I3_loadFileUrl getOk freshUrl fileId s :
  I3 s -> I3 (snd (loadFileUrl getOk freshUrl fileId s)).
Proof.
  intros H. rewrite loadFileUrl_alone.
  destruct (negb (dbRef s) || String.eqb fileId ""); [exact H|].
  destruct (urlCache s !! fileId); [exact H|].
  destruct getOk; [|exact H].
  destruct (filesStore s !! fileId); exact H.
Qed.

Lemma getAll_In {V} (m : gmap string V) (x : V) :
  In x (getAll m) <-> exists k, m !! k = Some x.
Proof.
  unfold getAll. rewrite in_map_iff. split.
  - intros ([k y] & <- & Hin). exists k.
    apply list_elem_of_In in Hin. rewrite merge_sort_Permutation in Hin.
    apply elem_of_map_to_list in Hin. exact Hin.
  - intros [k Hk]. exists (k, x). split; [reflexivity|].
    apply list_elem_of_In. rewrite merge_sort_Permutation.
    apply elem_of_map_to_list. exact Hk.
Qed.

Lemma I3_setupDB openOk readOk s : I3 s -> I3 (setupDB openOk readOk s).
Proof.
  intros [Hph Hst]. unfold setupDB.
  destruct openOk; simpl; [|split; assumption].
  destruct readOk; simpl; [|split; assumption].
  split; state_simpl; [|exact Hst].
  intros p Hin. apply getAll_In in Hin as [k Hk]. exact (Hst _ _ Hk).
Qed.

Lemma I3_step o s : I3 s -> I3 (step o s).
Proof.
  intros H. destruct o; simpl.
  - apply I3_setupDB, H.
  - apply I3_handleFileUpload, H.
  - apply I3_handleDeletePhotos, H.
  - apply I3_handleDeleteAlbum, H.
  - apply I3_handleAddToAlbum, H.
  - apply I3_handleRemoveFromAlbum, H.
  - apply I3_handleRename, H.
  - apply I3_handleCreateAlbum, H.
  - apply I3_loadFileUrl, H.
  - exact H.
  - exact H.
  - exact H.
  - exact H.
Qed.

(** C2: if every photo of the gallery and every record of the "photos"
    store has "all" among its albums, this still holds after any sequence
    of uploads, deletions, renames, album creations and deletions, additions
    to and removals from albums, whatever their transactions do.  In
    particular it holds in every state reached from the empty gallery. *)
Theorem C2_all_is_always_a_member (ops : list Op) (s : State) :
  I3 s -> I3 (run ops s).
Proof.
  unfold run. revert s. induction ops as [|o ops IH]; intros s H; simpl; [exact H|].
  apply IH, I3_step, H.
Qed.

Lemma C2_all_is_always_a_member_witness :
  let ops :=
    [OpSetupDB true true;
     OpUpload true [(sample_image, env_1); (sample_video, env_meta_fails)];
     OpSetSelectedItems ["id-1"];
     OpCreateAlbum "album-1" "2024-02-01T12:00:00.000Z" true "Trip";
     OpAddToAlbum true "id-1" "album-1";
     OpRemoveFromAlbum true "id-1" "all";
     OpRemoveFromAlbum true "id-1" "album-1";
     OpDeleteAlbum false "album-1";
     OpDeleteAlbum true "all";
     OpSetIsRenamingItem (Some ("id-1", "photo"));
     OpRename true "sunset";
     OpDeletePhotos true false ["id-1"]] in
  I3 initial_state /\ I3 (run ops initial_state).
Proof.
  intros ops.
  assert (I3 initial_state) as H0.
  { split; [intros p []|]. intros k p Hk. unfold initial_state in Hk.
    cbn [photosStore] in Hk. rewrite lookup_empty in Hk. discriminate. }
  split; [exact H0 | exact (C2_all_is_always_a_member ops initial_state H0)].
Defined.

(** ** Ordering of albums and date groups *)

Section SortByKey.

Context {A : Type} (cmp : A -> A -> Z) (key : A -> Z).

Lemma sort_insert_perm x l : Permutation (sort_insert cmp x l) (x :: l).
Proof.
  induction l as [|y l IH]; simpl; [reflexivity|].
  destruct (cmp x y <=? 0)%Z; [reflexivity|].
  rewrite IH. apply perm_swap.
Qed.

Lemma Array_sort_perm l : Permutation (Array_sort cmp l) l.
Proof.
  induction l as [|x l IH]; simpl; [reflexivity|].
  rewrite sort_insert_perm. apply perm_skip. exact IH.
Qed.

Lemma sort_insert_sorted x l :
  (forall y, In y l -> cmp x y = (key y - key x)%Z) ->
  StronglySorted (fun a b => (key b <= key a)%Z) l ->
  StronglySorted (fun a b => (key b <= key a)%Z) (sort_insert cmp x l).
Proof.
  induction l as [|y l IH]; intros Hcmp Hs; simpl.
  - constructor; constructor.
  - apply StronglySorted_inv in Hs as [Hs Hy].
    pose proof (proj1 (List.Forall_forall _ _) Hy) as Hy'. simpl in Hy'.
    destruct (cmp x y <=? 0)%Z eqn:Hle.
    + apply Z.leb_le in Hle. rewrite Hcmp in Hle by (left; reflexivity).
      constructor; [constructor; assumption|].
      apply List.Forall_forall. intros z [<- | Hz]; [lia|].
      specialize (Hy' z Hz). lia.
    + apply Z.leb_gt in Hle. rewrite Hcmp in Hle by (left; reflexivity).
      constructor.
      * apply IH; [intros z Hz; apply Hcmp; right; exact Hz | exact Hs].
      * apply List.Forall_forall. intros z Hz.
        apply (Permutation_in _ (sort_insert_perm x l)) in Hz.
        destruct Hz as [<- | Hz]; [lia | apply Hy', Hz].
Qed.

Lemma Array_sort_sorted l :
  (forall x y, In x l -> In y l -> cmp x y = (key y - key x)%Z) ->
  StronglySorted (fun a b => (key b <= key a)%Z) (Array_sort cmp l).
Proof.
  induction l as [|x l IH]; intros Hcmp; simpl; [constructor|].
  apply sort_insert_sorted.
  - intros y Hy. apply Hcmp; [left; reflexivity | right].
    exact (Permutation_in _ (Array_sort_perm l) Hy).
  - apply IH. intros a b Ha Hb. apply Hcmp; right; assumption.
Qed.

End SortByKey.

Lemma Array_sort_In {A} (cmp : A -> A -> Z) (l : list A) (x : A) :
  In x (Array_sort cmp l) <-> In x l.
Proof.
  split; apply Permutation_in; [|apply Permutation_sym]; apply Array_sort_perm.
Qed.

Lemma StronglySorted_weaken {A} (R R' : A -> A -> Prop) (l : list A) :
  (forall a b, In a l -> In b l -> R a b -> R' a b) ->
  StronglySorted R l -> StronglySorted R' l.
Proof.
  induction l as [|x l IH]; intros Himp Hs; [constructor|].
  apply StronglySorted_inv in Hs as [Hs Hx]. constructor.
  - apply IH; [|exact Hs]. intros a b Ha Hb. apply Himp; right; assumption.
  - pose proof (proj1 (List.Forall_forall _ _) Hx) as Hx'.
    apply List.Forall_forall. intros y Hy.
    apply Himp; [left; reflexivity | right; exact Hy | apply Hx', Hy].
Qed.

(** Sorting by the time values, all of them valid, lists the most recent
    first. *)
Lemma Array_sort_not_older {A} (time : A -> option Z) (cmp : A -> A -> Z) (l : list A) :
  (forall a b, cmp a b = match time b, time a with
                         | Some tb, Some ta => (tb - ta)%Z
                         | _, _ => 0%Z
                         end) ->
  (forall a, In a l -> is_Some (time a)) ->
  StronglySorted (not_older time) (Array_sort cmp l).
Proof.
  intros Hcmp Hvalid.
  set (key := fun a => match time a with Some t => t | None => 0%Z end).
  apply (StronglySorted_weaken (fun a b => (key b <= key a)%Z)).
  - intros a b Ha Hb Hle.
    apply Array_sort_In in Ha, Hb.
    destruct (Hvalid a Ha) as [ta Hta], (Hvalid b Hb) as [tb Htb].
    exists ta, tb. subst key. simpl in Hle. rewrite Hta, Htb in Hle. auto.
  - apply Array_sort_sorted. intros x y Hx Hy.
    destruct (Hvalid x Hx) as [tx Htx], (Hvalid y Hy) as [ty Hty].
    rewrite Hcmp. subst key. simpl. rewrite Htx, Hty. reflexivity.
Qed.

Lemma group_get_push d k p g :
  group_get d (group_push k p g) =
  if String.eqb k d
  then Some (match group_get d g with Some v => v | None => [] end ++ [p])
  else group_get d g.
Proof.
  induction g as [|[k0 v] g IH]; simpl.
  - destruct (String.eqb k d); reflexivity.
  - destruct (String.eqb k0 k) eqn:Hk0; simpl.
    + apply String.eqb_eq in Hk0. subst k0. destruct (String.eqb k d); reflexivity.
    + rewrite IH. destruct (String.eqb k d) eqn:Hkd; [|reflexivity].
      apply String.eqb_eq in Hkd. subst d. rewrite Hk0. reflexivity.
Qed.

(** The array read back under a key after the [reduce]: what was there,
    followed by the photos of that day in the order of the list. *)
Lemma group_get_fold d l : forall g,
  group_get d (fold_left (fun groups photo => group_push (date_key photo) photo groups) l g) =
  match group_get d g, List.filter (fun p => String.eqb (date_key p) d) l with
  | None, [] => None
  | Some v, fl => Some (v ++ fl)
  | None, fl => Some fl
  end.
Proof.
  induction l as [|p l IH]; intros g; simpl.
  - destruct (group_get d g); [rewrite app_nil_r|]; reflexivity.
  - rewrite IH, group_get_push.
    destruct (String.eqb (date_key p) d); [|reflexivity].
    destruct (group_get d g) as [v|]; simpl; [rewrite <- app_assoc|]; reflexivity.
Qed.

Lemma group_get_keys d g : is_Some (group_get d g) <-> In d (List.map fst g).
Proof.
  induction g as [|[k v] g IH]; simpl.
  - split; [intros [? H]; discriminate | intros []].
  - destruct (String.eqb k d) eqn:Hk.
    + apply String.eqb_eq in Hk. split; [intros _; left; exact Hk | eauto].
    + apply String.eqb_neq in Hk. rewrite IH. split; [auto | intros [H | H]; congruence].
Qed.

Lemma group_push_keys k p g :
  List.map fst (group_push k p g) = List.map fst g \/
  (~ In k (List.map fst g) /\ List.map fst (group_push k p g) = List.map fst g ++ [k]).
Proof.
  induction g as [|[k0 v] g IH]; simpl.
  - right. split; [intros [] | reflexivity].
  - destruct (String.eqb k0 k) eqn:Hk0; simpl; [left; reflexivity|].
    apply String.eqb_neq in Hk0.
    destruct IH as [-> | [Hnot ->]]; [left; reflexivity|].
    right. split; [intros [H | H]; congruence | reflexivity].
Qed.

Lemma group_fold_NoDup l : forall g,
  NoDup (List.map fst g) ->
  NoDup (List.map fst
           (fold_left (fun groups photo => group_push (date_key photo) photo groups) l g)).
Proof.
  induction l as [|p l IH]; intros g Hg; simpl; [exact Hg|].
  apply IH. destruct (group_push_keys (date_key p) p g) as [-> | [Hnot ->]]; [exact Hg|].
  rewrite <- Permutation_cons_append.
  apply NoDup_cons. split; [rewrite list_elem_of_In; exact Hnot | exact Hg].
Qed.

(** C8: the sidebar lists exactly the albums that are not the default one,
    most recently created first; the date headings are the distinct date
    portions of the photos in view, most recent date first; under each
    heading stand the photos of the view with that date portion, in the
    order they have in the view.  The two orderings are stated for valid
    dates, as produced by [toISOString]. *)
Theorem C8_albums_and_date_groups_newest_first
    (toLowerCase : string -> string) (Date_time : string -> option Z) (s : State) :
  (forall a, In a (albums s) -> album_isDefault a = false ->
     is_Some (album_time Date_time a)) ->
  (forall p, In p (filteredPhotos toLowerCase s) -> is_Some (Date_time (date_key p))) ->
  (Permutation (sidebarAlbums Date_time s)
     (List.filter (fun album => negb (album_isDefault album)) (albums s)) /\
   StronglySorted (not_older (album_time Date_time)) (sidebarAlbums Date_time s)) /\
  (NoDup (sortedDates toLowerCase Date_time s) /\
   (forall d, In d (sortedDates toLowerCase Date_time s) <->
      exists p, In p (filteredPhotos toLowerCase s) /\ date_key p = d) /\
   StronglySorted (not_older Date_time) (sortedDates toLowerCase Date_time s)) /\
  (forall d, In d (sortedDates toLowerCase Date_time s) ->
     group_get d (groupedPhotos toLowerCase s) =
     Some (List.filter (fun p => String.eqb (date_key p) d) (filteredPhotos toLowerCase s))).
Proof.
  intros Halbums Hdates.
  assert (forall d, In d (sortedDates toLowerCase Date_time s) <->
            List.filter (fun p => String.eqb (date_key p) d) (filteredPhotos toLowerCase s)
            <> []) as Hkeys.
  { intros d. unfold sortedDates.
    rewrite Array_sort_In.
    rewrite <- group_get_keys. unfold groupedPhotos. rewrite group_get_fold. simpl.
    destruct (List.filter _ _); split; try congruence; eauto.
    intros [? H]; discriminate. }
  assert (forall d, List.filter (fun p => String.eqb (date_key p) d)
                      (filteredPhotos toLowerCase s) <> [] <->
                    exists p, In p (filteredPhotos toLowerCase s) /\ date_key p = d) as Hne.
  { intros d. split.
    - intros H. destruct (List.filter _ _) as [|p fl] eqn:Hf; [congruence|].
      assert (In p (p :: fl)) as Hin by (left; reflexivity).
      rewrite <- Hf in Hin. apply filter_In in Hin as [Hin Hd].
      exists p. split; [exact Hin | apply String.eqb_eq, Hd].
    - intros (p & Hin & Hd) H.
      assert (In p (List.filter (fun p => String.eqb (date_key p) d)
                      (filteredPhotos toLowerCase s))) as Hp
        by (apply filter_In; split; [exact Hin | apply String.eqb_eq, Hd]).
      rewrite H in Hp. destruct Hp. }
  split; [split|split; [split; [|split]|]].
  - apply Array_sort_perm.
  - apply Array_sort_not_older; [reflexivity|].
    intros a Ha. apply filter_In in Ha as [Ha Hd]. apply Halbums; [exact Ha|].
    apply negb_true_iff, Hd.
  - unfold sortedDates. rewrite Array_sort_perm.
    apply group_fold_NoDup. apply NoDup_nil. exact I.
  - intros d. rewrite Hkeys. apply Hne.
  - apply Array_sort_not_older; [reflexivity|].
    intros d Hd.
    assert (In d (sortedDates toLowerCase Date_time s)) as Hd'
      by (unfold sortedDates; apply Array_sort_In, Hd).
    apply Hkeys, Hne in Hd' as (p & Hin & <-). apply Hdates, Hin.
  - intros d Hd. apply Hkeys in Hd. unfold groupedPhotos. rewrite group_get_fold. simpl.
    destruct (List.filter _ _); [congruence | reflexivity].
Qed.

Lemma C8_albums_and_date_groups_newest_first_witness :
  let s := three_items in
  ((forall a, In a (albums s) -> album_isDefault a = false ->
      is_Some (album_time iso_date_time a)) /\
   (forall p, In p (filteredPhotos latin1_toLowerCase s) ->
      is_Some (iso_date_time (date_key p)))) /\
  List.map album_id (albums s) = ["all"; "album-1"; "album-2"] /\
  List.map album_id (sidebarAlbums iso_date_time s) = ["album-2"; "album-1"] /\
  StronglySorted (not_older (album_time iso_date_time)) (sidebarAlbums iso_date_time s) /\
  List.map photo_id (filteredPhotos latin1_toLowerCase s) = ["id-1"; "id-2"; "id-3"] /\
  sortedDates latin1_toLowerCase iso_date_time s = ["2024-01-03"; "2024-01-02"] /\
  StronglySorted (not_older iso_date_time) (sortedDates latin1_toLowerCase iso_date_time s) /\
  option_map (List.map photo_id) (group_get "2024-01-02" (groupedPhotos latin1_toLowerCase s))
    = Some ["id-1"; "id-3"].
Proof.
  intros s.
  assert (forall a, In a (albums s) -> album_isDefault a = false ->
            is_Some (album_time iso_date_time a)) as H1.
  { intros a Ha Hd. vm_compute in Ha.
    destruct Ha as [<- | [<- | [<- | []]]];
      [discriminate Hd | vm_compute; eexists; reflexivity ..]. }
  assert (forall p, In p (filteredPhotos latin1_toLowerCase s) ->
            is_Some (iso_date_time (date_key p))) as H2.
  { intros p Hp. vm_compute in Hp.
    destruct Hp as [<- | [<- | [<- | []]]]; vm_compute; eexists; reflexivity. }
  destruct (C8_albums_and_date_groups_newest_first latin1_toLowerCase iso_date_time s H1 H2)
    as ((_ & Hsorted_albums) & (_ & _ & Hsorted_dates) & Hgroups).
  assert (In "2024-01-02" (sortedDates latin1_toLowerCase iso_date_time s)) as Hkey
    by (vm_compute; right; left; reflexivity).
  split; [split; assumption|].
  split; [vm_compute; reflexivity|]. split; [vm_compute; reflexivity|].
  split; [exact Hsorted_albums|].
  split; [vm_compute; reflexivity|]. split; [vm_compute; reflexivity|].
  split; [exact Hsorted_dates|].
  rewrite (Hgroups _ Hkey). vm_compute. reflexivity.
Defined.

(** * Further properties of the handlers *)

(** * Further properties of the handlers *)

(** ** Deleting photos *)

Lemma app_one_neq {A} (l : list A) (x : A) : l ++ [x] <> l.
Proof.
  intros H. apply (f_equal (@length A)) in H. rewrite length_app in H. simpl in H. lia.
Qed.

Lemma evict_all_revoked_origin ids : forall s u,
  In u (revokedUrls (evict_all ids s)) ->
  In u (revokedUrls s) \/ exists k, In k ids /\ urlCache s !! k = Some u.
Proof.
  unfold evict_all. induction ids as [|i ids IH]; intros s u Hu; simpl in Hu; [left; exact Hu|].
  destruct (IH _ _ Hu) as [Hold | (k & Hk & Hc)].
  - unfold evict in Hold. destruct (urlCache s !! i) as [url|] eqn:Hi; [|left; exact Hold].
    simpl in Hold. apply in_app_or in Hold as [Hold | [<- | []]]; [left; exact Hold|].
    right. exists i. split; [left; reflexivity | exact Hi].
  - right. exists k. split; [right; exact Hk|].
    unfold evict in Hc. destruct (urlCache s !! i) eqn:Hi; simpl in Hc; [|exact Hc].
    destruct (decide (i = k)) as [-> | Hne].
    + rewrite lookup_delete_eq in Hc. discriminate.
    + rewrite lookup_delete_ne in Hc by exact Hne. exact Hc.
Qed.

(** X1: what a deletion does when it cannot run to its end.  Without an
    open database nothing happens at all.  When the transaction on "files"
    fails, nothing is deleted and the failure is reported.  When it commits
    and the transaction on "photos" fails, the blobs of the listed
    identifiers are gone while their records, the gallery and the URL cache
    are left as they were, and the failure is reported.  In both cases the
    report is one call of [console.error], with "Error deleting photos:",
    and one of [alert], with "Failed to delete photos. Please try
    again.". *)
Theorem X1_delete_that_fails filesOk photosOk ids s :
  (dbRef s = false -> handleDeletePhotos filesOk photosOk ids s = s) /\
  (dbRef s = true -> filesOk = false ->
     let s' := handleDeletePhotos filesOk photosOk ids s in
     forget_logs s' = forget_logs s /\ reports_failure s s' /\
     consoleErrors s' = consoleErrors s ++ ["Error deleting photos:"] /\
     alerts s' = alerts s ++ ["Failed to delete photos. Please try again."]) /\
  (dbRef s = true -> filesOk = true -> photosOk = false ->
     let s' := handleDeletePhotos filesOk photosOk ids s in
     (forall k, In k ids -> filesStore s' !! k = None) /\
     (forall k, ~ In k ids -> filesStore s' !! k = filesStore s !! k) /\
     photosStore s' = photosStore s /\ photos s' = photos s /\
     urlCache s' = urlCache s /\ revokedUrls s' = revokedUrls s /\ ui s' = ui s /\
     reports_failure s s' /\
     consoleErrors s' = consoleErrors s ++ ["Error deleting photos:"] /\
     alerts s' = alerts s ++ ["Failed to delete photos. Please try again."]).
Proof.
  split; [|split].
  - intros Hdb. unfold handleDeletePhotos. rewrite Hdb. reflexivity.
  - intros Hdb -> s'. subst s'. unfold handleDeletePhotos. rewrite Hdb. simpl.
    split; [reflexivity|]. split; [left; simpl; apply app_one_neq|].
    split; reflexivity.
  - intros Hdb -> -> s'. subst s'. unfold handleDeletePhotos. rewrite Hdb. simpl.
    split; [|split].
    + intros k Hk. rewrite delete_all_lookup.
      apply Array_includes_In in Hk. rewrite Hk. reflexivity.
    + intros k Hk. rewrite delete_all_lookup.
      apply Array_includes_not_In in Hk. rewrite Hk. reflexivity.
    + repeat split. left. simpl. apply app_one_neq.
Qed.

Lemma X1_delete_that_fails_witness :
  let s' := handleDeletePhotos true false ["id-1"] image_shown in
  (dbRef image_shown = true /\ In "id-1" ["id-1"]) /\
  is_Some (filesStore image_shown !! "id-1") /\
  filesStore s' !! "id-1" = None /\
  is_Some (photosStore s' !! "id-1") /\
  urlCache s' !! "id-1" = Some "blob:url-1" /\
  List.map photo_id (photos s') = ["id-1"; "id-2"] /\
  consoleErrors s' = ["Error deleting photos:"] /\
  alerts s' = ["Failed to delete photos. Please try again."].
Proof.
  intros s'.
  destruct (X1_delete_that_fails true false ["id-1"] image_shown) as (_ & _ & Hhalf).
  destruct (Hhalf eq_refl eq_refl eq_refl)
    as (Hgone & _ & Hps & Hph & Hc & _ & _ & _ & Hconsole & Halert).
  fold s' in Hgone, Hps, Hph, Hc, Hconsole, Halert.
  split; [split; [reflexivity | left; reflexivity]|].
  split; [vm_compute; eexists; reflexivity|].
  split; [apply Hgone; left; reflexivity|].
  split; [rewrite Hps; vm_compute; eexists; reflexivity|].
  split; [rewrite Hc; vm_compute; reflexivity|].
  split; [rewrite Hph; vm_compute; reflexivity|].
  split; [rewrite Hconsole | rewrite Halert]; vm_compute; reflexivity.
Defined.

(** X2: a deletion that commits touches nothing but what it was asked to
    delete.  Under every other key the two stores and the URL cache are as
    before; the gallery keeps exactly the photos whose identifier is not
    listed, in their order; and every URL it revokes was cached under a
    listed identifier. *)
Theorem X2_delete_leaves_the_rest ids s :
  dbRef s = true ->
  let s' := handleDeletePhotos true true ids s in
  (forall k, ~ In k ids ->
     filesStore s' !! k = filesStore s !! k /\
     photosStore s' !! k = photosStore s !! k /\
     urlCache s' !! k = urlCache s !! k) /\
  (forall p, In p (photos s') <-> In p (photos s) /\ ~ In (photo_id p) ids) /\
  sublist (photos s') (photos s) /\
  (forall u, In u (revokedUrls s') ->
     In u (revokedUrls s) \/ exists k, In k ids /\ urlCache s !! k = Some u) /\
  albums s' = albums s /\ selectedView s' = selectedView s.
Proof.
  intros Hdb s'.
  destruct (handleDeletePhotos_ok ids s Hdb) as (Hfs & Hps & Hph & Hc & Hr & _).
  fold s' in Hfs, Hps, Hph, Hc, Hr.
  destruct (evict_all_cache ids s) as (Hcache & _ & _).
  split; [|split; [|split; [|split]]].
  - intros k Hk. apply Array_includes_not_In in Hk.
    rewrite Hfs, Hps, Hc, !delete_all_lookup, Hcache, Hk. auto.
  - intros p. rewrite Hph, filter_In, negb_true_iff, Array_includes_not_In. tauto.
  - rewrite Hph. apply List_filter_sublist.
  - intros u Hu. rewrite Hr in Hu. exact (evict_all_revoked_origin _ _ _ Hu).
  - subst s'. unfold handleDeletePhotos. rewrite Hdb. simpl.
    pose proof (evict_all_frame ids
                  (set_photosStore (delete_all ids (photosStore s))
                     (set_filesStore (delete_all ids (filesStore s)) s))) as Hf.
    simpl in Hf. tauto.
Qed.

Lemma X2_delete_leaves_the_rest_witness :
  let s' := handleDeletePhotos true true ["id-1"] image_shown in
  dbRef image_shown = true /\
  ~ In "id-2" ["id-1"] /\
  filesStore s' !! "id-2" = filesStore image_shown !! "id-2" /\
  photosStore s' !! "id-2" = photosStore image_shown !! "id-2" /\
  List.map photo_id (photos s') = ["id-2"].
Proof.
  intros s'.
  assert (~ In "id-2" ["id-1"]) as Hnot by (intros [H | []]; discriminate).
  destruct (X2_delete_leaves_the_rest ["id-1"] image_shown eq_refl) as (Hother & _).
  destruct (Hother "id-2" Hnot) as (Hf & Hp & _).
  split; [reflexivity|]. split; [exact Hnot|]. split; [exact Hf|]. split; [exact Hp|].
  vm_compute. reflexivity.
Defined.

(** ** The URL cache *)

(** X3: the cache is tested before the read of "files" is awaited and
    filled after it, without a second test.  Two [loadFileUrl] calls for
    one stored blob that is not cached, both begun before the read of either
    settles, each create a URL and return it.  The cache keeps the URL of
    the call that resumes last: a call begun afterwards returns that one,
    and a deletion that commits revokes that one and no other, so the URL
    the first call returned, when it differs, is never revoked. *)
Theorem X3_overlapping_loads_create_two_urls fileId file url1 url2 s :
  dbRef s = true ->
  fileId <> "" ->
  urlCache s !! fileId = None ->
  filesStore s !! fileId = Some file ->
  let first := loadFileUrl_resume true url1 fileId (Some file) s in
  let second := loadFileUrl_resume true url2 fileId (Some file) (snd first) in
  let s' := snd second in
  loadFileUrl_begin fileId s = Awaiting (Some file) /\
  fst first = Some url1 /\ urlCache (snd first) !! fileId = Some url1 /\
  fst second = Some url2 /\ urlCache s' !! fileId = Some url2 /\
  (forall getOk freshUrl,
     loadFileUrl_begin fileId s' = Returned url2 /\
     loadFileUrl getOk freshUrl fileId s' = (Some url2, s')) /\
  revokedUrls (handleDeletePhotos true true [fileId] s') = revokedUrls s ++ [url2] /\
  (url1 <> url2 -> ~ In url1 (revokedUrls s) ->
     ~ In url1 (revokedUrls (handleDeletePhotos true true [fileId] s'))).
Proof.
  intros Hdb Hid Hc Hf first second s'.
  assert (String.eqb fileId "" = false) as Hid' by (apply String.eqb_neq; exact Hid).
  assert (urlCache s' !! fileId = Some url2) as Hc' by (apply lookup_insert_eq).
  assert (dbRef s' = true) as Hdb' by exact Hdb.
  assert (revokedUrls (handleDeletePhotos true true [fileId] s') = revokedUrls s ++ [url2])
    as Hrev.
  { destruct (handleDeletePhotos_ok [fileId] s' Hdb') as (_ & _ & _ & _ & Hr & _).
    rewrite Hr. unfold evict_all. simpl. unfold evict. rewrite Hc'. reflexivity. }
  split; [unfold loadFileUrl_begin; rewrite Hdb, Hid', Hc, Hf; reflexivity|].
  split; [reflexivity|]. split; [apply lookup_insert_eq|].
  split; [reflexivity|]. split; [exact Hc'|]. split; [|split].
  - intros getOk freshUrl.
    assert (loadFileUrl_begin fileId s' = Returned url2) as Hb
      by (unfold loadFileUrl_begin; rewrite Hdb', Hid', Hc'; reflexivity).
    split; [exact Hb|]. unfold loadFileUrl. rewrite Hb. reflexivity.
  - exact Hrev.
  - intros Hne Hnot Hin. rewrite Hrev in Hin.
    apply in_app_or in Hin as [Hin | [Heq | []]]; [exact (Hnot Hin) | exact (Hne (eq_sym Heq))].
Qed.

Lemma X3_overlapping_loads_create_two_urls_witness :
  let first := loadFileUrl_resume true "blob:url-1" "id-1" (Some sample_image) two_items in
  let second := loadFileUrl_resume true "blob:url-2" "id-1" (Some sample_image) (snd first) in
  (dbRef two_items = true /\ "id-1" <> "" /\ urlCache two_items !! "id-1" = None /\
   filesStore two_items !! "id-1" = Some sample_image /\ "blob:url-1" <> "blob:url-2" /\
   ~ In "blob:url-1" (revokedUrls two_items)) /\
  fst first = Some "blob:url-1" /\ fst second = Some "blob:url-2" /\
  fst (loadFileUrl true "blob:url-3" "id-1" (snd second)) = Some "blob:url-2" /\
  revokedUrls (handleDeletePhotos true true ["id-1"] (snd second)) = ["blob:url-2"] /\
  ~ In "blob:url-1" (revokedUrls (handleDeletePhotos true true ["id-1"] (snd second))).
Proof.
  intros first second.
  assert ("id-1" <> "") as Hid by discriminate.
  assert (urlCache two_items !! "id-1" = None) as Hc by (vm_compute; reflexivity).
  assert (filesStore two_items !! "id-1" = Some sample_image) as Hf by (vm_compute; reflexivity).
  assert ("blob:url-1" <> "blob:url-2") as Hne by discriminate.
  assert (~ In "blob:url-1" (revokedUrls two_items)) as Hnot by (intros []).
  destruct (X3_overlapping_loads_create_two_urls "id-1" sample_image "blob:url-1" "blob:url-2"
              two_items eq_refl Hid Hc Hf)
    as (_ & H1 & _ & H2 & _ & Hlater & Hrev & Hleak).
  split; [repeat split; assumption|].
  split; [exact H1|]. split; [exact H2|].
  split; [exact (f_equal fst (proj2 (Hlater true "blob:url-3")))|].
  split; [exact Hrev | exact (Hleak Hne Hnot)].
Defined.

(** ** Creating an album *)

Lemma attach_album_view sel newId (l : list Photo) :
  (forall p, In p l -> has_album p newId = false) ->
  List.filter (fun p => has_album p newId) (List.map (attach_album sel newId) l) =
  List.map (attach_album sel newId)
           (List.filter (fun p => Array_includes sel (photo_id p)) l).
Proof.
  induction l as [|p l IH]; intros Hfresh; simpl; [reflexivity|].
  assert (has_album (attach_album sel newId p) newId = Array_includes sel (photo_id p)) as Hat.
  { unfold attach_album. destruct (Array_includes sel (photo_id p)).
    - unfold has_album. simpl. apply Array_includes_last.
    - apply Hfresh. left. reflexivity. }
  rewrite Hat, IH by (intros q Hq; apply Hfresh; right; exact Hq).
  destruct (Array_includes sel (photo_id p)); reflexivity.
Qed.

(** X4: creating an album with photos selected, when the write commits and
    the generated identifier is new to every photo.  The album is appended
    to the album list; the view of the new album, with no search text,
    shows exactly the selected photos of the gallery, in gallery order, each
    with the new identifier appended to its albums; the other photos are not
    touched; every selected photo has a record with the new membership in
    the "photos" store; and the selection is cleared. *)
Theorem X4_new_album_shows_the_selection
    (toLowerCase : string -> string) newId nowIso localAlbumName s :
  blank localAlbumName = false ->
  newId <> "all" ->
  dbRef s = true ->
  selectedItems (ui s) <> [] ->
  (forall p, In p (photos s) -> has_album p newId = false) ->
  let sel := selectedItems (ui s) in
  let s' := handleCreateAlbum newId nowIso true localAlbumName s in
  albums s' = albums s ++ [mkAlbum newId (trim localAlbumName) false (Some nowIso)] /\
  filteredPhotos toLowerCase (set_searchTerm "" (set_selectedView newId s')) =
    List.map (attach_album sel newId)
             (List.filter (fun p => Array_includes sel (photo_id p)) (photos s)) /\
  (forall p, In p (photos s) -> Array_includes sel (photo_id p) = false -> In p (photos s')) /\
  (forall p, In p (photos s') -> Array_includes sel (photo_id p) = true ->
     exists q, photosStore s' !! photo_id p = Some q /\ has_album q newId = true) /\
  selectedItems (ui s') = [] /\ isSelecting (ui s') = false.
Proof.
  intros Hname Hnew Hdb Hsel Hfresh sel s'.
  assert (String.eqb (trim localAlbumName) "" = false) as Htrim.
  { apply String.eqb_neq. intros H. apply trim_empty_iff in H. congruence. }
  assert (s' = set_ui (ui_clear_selection (ui_close_album (ui s)))
                 (set_photos (List.map (attach_album sel newId) (photos s))
                    (set_photosStore
                       (put_all (List.filter (fun photo => Array_includes sel (photo_id photo))
                                             (List.map (attach_album sel newId) (photos s)))
                                (photosStore s))
                       (set_ui (ui_close_album (ui s))
                          (set_albums
                             (albums s ++ [mkAlbum newId (trim localAlbumName) false (Some nowIso)])
                             s))))) as Hs'.
  { subst s' sel. unfold handleCreateAlbum. rewrite Htrim, Hdb.
    destruct (selectedItems (ui s)); [congruence | reflexivity]. }
  apply String.eqb_neq in Hnew.
  rewrite Hs'. split; [reflexivity|]. split; [|split; [|split; [|split; reflexivity]]].
  - unfold filteredPhotos, matchesSearch, inSelectedAlbum. simpl. rewrite Hnew. simpl.
    rewrite <- (attach_album_view sel newId (photos s) Hfresh).
    apply filter_ext. intros p. apply andb_true_r.
  - intros p Hp Hno. simpl. apply in_map_iff. exists p. split; [|exact Hp].
    unfold attach_album. rewrite Hno. reflexivity.
  - intros p Hp Hyes. simpl in Hp |- *.
    assert (In p (List.filter (fun photo => Array_includes sel (photo_id photo))
                    (List.map (attach_album sel newId) (photos s)))) as Hin
      by (apply filter_In; split; assumption).
    destruct (put_all_present _ (photosStore s) p Hin) as (q & Hq & Hqin & _).
    exists q. split; [exact Hq|].
    apply filter_In in Hqin as [Hqin Hqsel]. apply in_map_iff in Hqin as (q0 & <- & _).
    unfold attach_album in Hqsel |- *.
    destruct (Array_includes sel (photo_id q0)) eqn:Hq0.
    + unfold has_album. simpl. apply Array_includes_last.
    + congruence.
Qed.

Lemma X4_new_album_shows_the_selection_witness :
  let s := set_ui (ui_set_selectedItems ["id-2"] (ui two_items)) two_items in
  let s' := handleCreateAlbum "album-7" "2024-05-01T09:00:00.000Z" true " Clips " s in
  (blank " Clips " = false /\ "album-7" <> "all" /\ dbRef s = true /\
   selectedItems (ui s) <> [] /\
   (forall p, In p (photos s) -> has_album p "album-7" = false)) /\
  List.map album_name (albums s') = ["Todas as Fotos"; "Clips"] /\
  List.map photo_id
    (filteredPhotos latin1_toLowerCase (set_searchTerm "" (set_selectedView "album-7" s')))
    = ["id-2"] /\
  selectedItems (ui s') = [].
Proof.
  intros s s'.
  assert (blank " Clips " = false) as H1 by reflexivity.
  assert ("album-7" <> "all") as H2 by discriminate.
  assert (selectedItems (ui s) <> []) as H4 by discriminate.
  assert (forall p, In p (photos s) -> has_album p "album-7" = false) as H5
    by (intros p [<- | [<- | []]]; vm_compute; reflexivity).
  destruct (X4_new_album_shows_the_selection latin1_toLowerCase "album-7"
              "2024-05-01T09:00:00.000Z" " Clips " s H1 H2 eq_refl H4 H5)
    as (Halbums & Hview & _ & _ & Hsel & _).
  fold s' in Halbums, Hview, Hsel.
  split; [repeat split; assumption|].
  split; [rewrite Halbums; vm_compute; reflexivity|].
  split; [rewrite Hview; vm_compute; reflexivity | exact Hsel].
Defined.

(** X5: the album is created even when no photo gets attached.  A blank
    name does nothing.  Otherwise the album is appended and the dialog is
    closed in every case; with an empty selection, or when the write of the
    photos fails, the gallery, the "photos" store and the selection are left
    as they were, and in the second case the failure is reported. *)
Theorem X5_album_is_created_without_its_photos newId nowIso txOk localAlbumName s :
  let s' := handleCreateAlbum newId nowIso txOk localAlbumName s in
  (blank localAlbumName = true -> s' = s) /\
  (blank localAlbumName = false ->
     albums s' = albums s ++ [mkAlbum newId (trim localAlbumName) false (Some nowIso)] /\
     isAddingAlbum (ui s') = false /\
     (selectedItems (ui s) = [] \/ dbRef s && txOk = false ->
        photos s' = photos s /\ photosStore s' = photosStore s /\
        selectedItems (ui s') = selectedItems (ui s)) /\
     (selectedItems (ui s) = [] -> ~ reports_failure s s') /\
     (selectedItems (ui s) <> [] -> dbRef s && txOk = false -> reports_failure s s')).
Proof.
  intros s'. subst s'. unfold handleCreateAlbum. split.
  - intros Hb. apply trim_empty_iff in Hb. rewrite Hb. reflexivity.
  - intros Hb.
    assert (String.eqb (trim localAlbumName) "" = false) as ->.
    { apply String.eqb_neq. intros H. apply trim_empty_iff in H. congruence. }
    destruct (selectedItems (ui s)) as [|i sel] eqn:Hsel.
    + simpl. rewrite Hsel. split; [reflexivity|]. split; [reflexivity|].
      split; [auto|]. split; [|congruence].
      intros _ [H | H]; apply H; reflexivity.
    + destruct (dbRef s && txOk) eqn:Hok; simpl.
      * split; [reflexivity|]. split; [reflexivity|].
        split; [intros [H | H]; discriminate|]. split; [discriminate | discriminate].
      * rewrite Hsel. split; [reflexivity|]. split; [reflexivity|].
        split; [auto|]. split; [discriminate|].
        intros _ _. left. simpl. apply app_one_neq.
Qed.

Lemma X5_album_is_created_without_its_photos_witness :
  let s := set_ui (ui_set_selectedItems ["id-2"] (ui two_items)) two_items in
  let s' := handleCreateAlbum "album-7" "2024-05-01T09:00:00.000Z" false "Clips" s in
  (blank "Clips" = false /\ selectedItems (ui s) <> [] /\ dbRef s && false = false) /\
  List.map album_id (albums s') = ["all"; "album-7"] /\
  photos s' = photos s /\ photosStore s' = photosStore s /\
  selectedItems (ui s') = ["id-2"] /\ reports_failure s s'.
Proof.
  intros s s'.
  assert (selectedItems (ui s) <> []) as Hsel by discriminate.
  destruct (X5_album_is_created_without_its_photos "album-7" "2024-05-01T09:00:00.000Z"
              false "Clips" s) as [_ Hmain].
  destruct (Hmain eq_refl) as (Halbums & _ & Hkeep & _ & Hrep).
  fold s' in Halbums, Hkeep, Hrep.
  destruct (Hkeep (or_intror eq_refl)) as (Hph & Hst & Hs).
  split; [repeat split; assumption|].
  split; [rewrite Halbums; vm_compute; reflexivity|].
  split; [exact Hph|]. split; [exact Hst|]. split; [exact Hs | exact (Hrep Hsel eq_refl)].
Defined.

(** ** Album membership and renaming *)

Lemma find_photo_map (f : Photo -> Photo) pid l :
  (forall p, photo_id (f p) = photo_id p) ->
  find_photo pid (List.map f l) = option_map f (find_photo pid l).
Proof.
  intros Hid. unfold find_photo. induction l as [|p l IH]; simpl; [reflexivity|].
  rewrite Hid. destruct (String.eqb (photo_id p) pid); [reflexivity | exact IH].
Qed.

Lemma find_photo_id pid l p : find_photo pid l = Some p -> photo_id p = pid.
Proof.
  intros H. apply String.eqb_eq. exact (proj2 (find_some _ _ H)).
Qed.

Lemma add_album_id pid a p : photo_id (add_album pid a p) = photo_id p.
Proof.
  unfold add_album. destruct (String.eqb (photo_id p) pid); [|reflexivity].
  destruct (has_album p a); reflexivity.
Qed.

Lemma remove_album_id pid a p : photo_id (remove_album pid a p) = photo_id p.
Proof. unfold remove_album. destruct (String.eqb (photo_id p) pid); reflexivity. Qed.

Lemma rename_photo_id rid n p : photo_id (rename_photo rid n p) = photo_id p.
Proof. unfold rename_photo. destruct (String.eqb (photo_id p) rid); reflexivity. Qed.

Lemma remove_add_absent pid a p l :
  photo_albums p = Some l -> ~ In a l -> remove_album pid a (add_album pid a p) = p.
Proof.
  intros Hl Hnot. unfold remove_album. rewrite add_album_id. unfold add_album.
  destruct (String.eqb (photo_id p) pid); [|reflexivity].
  assert (has_album p a = false) as ->.
  { unfold has_album. rewrite Hl. apply Array_includes_not_In. exact Hnot. }
  simpl. unfold scrub_album, with_albums, albums_or_empty. simpl. rewrite Hl.
  rewrite List.filter_app. simpl. rewrite String.eqb_refl. simpl. rewrite app_nil_r.
  rewrite List_filter_all.
  - destruct p. simpl in *. congruence.
  - intros x Hx. apply negb_true_iff, String.eqb_neq. intros ->. exact (Hnot Hx).
Qed.

(** X6: adding a photo to an album it is not in and removing it again
    brings the gallery and the "photos" store back to where they were (the
    store holding the in-memory record beforehand, both writes committing);
    all that remains of the two steps is the view state the addition resets
    (context menu and drag markers). *)
Theorem X6_add_then_remove_restores photoId albumId s :
  albumId <> "all" ->
  dbRef s = true ->
  store_in_sync photoId s ->
  (forall p, In p (photos s) -> photo_id p = photoId ->
     exists l, photo_albums p = Some l /\ ~ In albumId l) ->
  handleRemoveFromAlbum true photoId albumId (handleAddToAlbum true photoId albumId s) =
  set_ui (ui_after_add (ui s)) s.
Proof.
  intros Hne Hdb Hsync Habsent. apply String.eqb_neq in Hne.
  assert (List.map (remove_album photoId albumId)
            (List.map (add_album photoId albumId) (photos s)) = photos s) as Hback.
  { rewrite map_map. apply map_fixed. intros p Hp.
    unfold remove_album, add_album.
    destruct (String.eqb (photo_id p) photoId) eqn:Hid.
    - apply String.eqb_eq in Hid. destruct (Habsent p Hp Hid) as (l & Hl & Hnot).
      pose proof (remove_add_absent photoId albumId p l Hl Hnot) as H.
      unfold remove_album, add_album in H. apply String.eqb_eq in Hid.
      rewrite Hid in H. exact H.
    - rewrite Hid. reflexivity. }
  unfold handleAddToAlbum. rewrite Hne. unfold put_found at 1. rewrite Hdb. cbn [negb].
  rewrite (find_photo_map _ _ _ (add_album_id photoId albumId)).
  destruct (find_photo photoId (photos s)) as [p|] eqn:Hfind; cbn [option_map].
  - unfold handleRemoveFromAlbum. rewrite Hne. state_simpl. rewrite Hback, Hfind.
    unfold put_found. state_simpl. rewrite Hdb. cbn [negb].
    rewrite add_album_id, (find_photo_id _ _ _ Hfind), insert_insert_eq.
    pose proof (Hsync p Hfind) as Hstored. rewrite (find_photo_id _ _ _ Hfind) in Hstored.
    rewrite (insert_id _ _ _ Hstored). destruct s. reflexivity.
  - unfold handleRemoveFromAlbum. rewrite Hne. state_simpl. rewrite Hback, Hfind.
    unfold put_found. state_simpl. rewrite Hdb. cbn [negb]. destruct s. reflexivity.
Qed.

Lemma X6_add_then_remove_restores_witness :
  ("album-1" <> "all" /\ dbRef with_trip = true /\ store_in_sync "id-2" with_trip /\
   (forall p, In p (photos with_trip) -> photo_id p = "id-2" ->
      exists l, photo_albums p = Some l /\ ~ In "album-1" l)) /\
  List.map albums_or_empty (photos (handleAddToAlbum true "id-2" "album-1" with_trip))
    = [["all"; "album-1"]; ["all"; "album-1"]] /\
  handleRemoveFromAlbum true "id-2" "album-1" (handleAddToAlbum true "id-2" "album-1" with_trip)
    = set_ui (ui_after_add (ui with_trip)) with_trip.
Proof.
  assert ("album-1" <> "all") as H1 by discriminate.
  assert (store_in_sync "id-2" with_trip) as H3.
  { intros p Hp. vm_compute in Hp. inversion Hp; subst p. vm_compute. reflexivity. }
  assert (forall p, In p (photos with_trip) -> photo_id p = "id-2" ->
            exists l, photo_albums p = Some l /\ ~ In "album-1" l) as H4.
  { intros p [<- | [<- | []]] Hid; [vm_compute in Hid; discriminate|].
    exists ["all"]. split; [reflexivity|]. intros [H | []]. discriminate. }
  split; [repeat split; assumption|]. split; [vm_compute; reflexivity|].
  exact (X6_add_then_remove_restores "id-2" "album-1" with_trip H1 eq_refl H3 H4).
Defined.

(** X7: a write that fails changes nothing.  For a photo of the gallery,
    when the database is not open or the transaction does not commit,
    adding to an album, removing from an album and renaming leave the whole
    state as it was apart from the logs and report the failure; the rename
    dialog then stays open.  With the database open and no photo under the
    identifier nothing is written, so nothing can fail. *)
Theorem X7_failed_write_changes_nothing txOk photoId albumId localItemName s :
  albumId <> "all" ->
  blank localItemName = false ->
  isRenamingItem (ui s) = Some (photoId, "photo") ->
  let add := handleAddToAlbum txOk photoId albumId s in
  let rem := handleRemoveFromAlbum txOk photoId albumId s in
  let ren := handleRename txOk localItemName s in
  (dbRef s = false \/ (txOk = false /\ is_Some (find_photo photoId (photos s))) ->
     (forget_logs add = forget_logs s /\ reports_failure s add) /\
     (forget_logs rem = forget_logs s /\ reports_failure s rem) /\
     (forget_logs ren = forget_logs s /\ reports_failure s ren /\
      alerts ren = alerts s ++ ["Failed to rename photo. Please try again."])) /\
  (dbRef s = true -> find_photo photoId (photos s) = None ->
     ~ reports_failure s add /\ ~ reports_failure s rem /\ ~ reports_failure s ren).
Proof.
  intros Hne Hname Hopen add rem ren.
  apply String.eqb_neq in Hne.
  assert (String.eqb (trim localItemName) "" = false) as Htrim.
  { apply String.eqb_neq. intros H. apply trim_empty_iff in H. congruence. }
  assert (forall (f : Photo -> Photo),
            (forall p, photo_id (f p) = photo_id p) ->
            (dbRef s = false \/ (txOk = false /\ is_Some (find_photo photoId (photos s))) ->
             put_found txOk (find_photo photoId (List.map f (photos s))) s = None) /\
            (dbRef s = true -> find_photo photoId (photos s) = None ->
             put_found txOk (find_photo photoId (List.map f (photos s))) s
             = Some (photosStore s))) as Hput.
  { intros f Hf. rewrite (find_photo_map f _ _ Hf). unfold put_found. split.
    - intros [Hdb | [-> [p Hp]]]; [rewrite Hdb; reflexivity|].
      rewrite Hp. simpl. destruct (dbRef s); reflexivity.
    - intros Hdb Hnone. rewrite Hdb, Hnone. reflexivity. }
  destruct (Hput _ (add_album_id photoId albumId)) as [Hadd_fail Hadd_ok].
  destruct (Hput _ (remove_album_id photoId albumId)) as [Hrem_fail Hrem_ok].
  destruct (Hput _ (rename_photo_id photoId (trim localItemName))) as [Hren_fail Hren_ok].
  subst add rem ren. unfold handleAddToAlbum, handleRemoveFromAlbum, handleRename.
  rewrite Hne, Htrim, Hopen. simpl. split.
  - intros Hfail. rewrite (Hadd_fail Hfail), (Hrem_fail Hfail), (Hren_fail Hfail). simpl.
    repeat split; try (right; simpl; apply app_one_neq); left; simpl; apply app_one_neq.
  - intros Hdb Hnone.
    rewrite (Hadd_ok Hdb Hnone), (Hrem_ok Hdb Hnone), (Hren_ok Hdb Hnone).
    repeat split; intros [H | H]; apply H; reflexivity.
Qed.

Lemma X7_failed_write_changes_nothing_witness :
  let s := set_ui (ui_set_isRenamingItem (Some ("id-1", "photo")) (ui with_trip)) with_trip in
  ("album-1" <> "all" /\ blank "sunset" = false /\
   isRenamingItem (ui s) = Some ("id-1", "photo") /\
   (dbRef s = false \/ (false = false /\ is_Some (find_photo "id-1" (photos s))))) /\
  forget_logs (handleRemoveFromAlbum false "id-1" "album-1" s) = forget_logs s /\
  forget_logs (handleRename false "sunset" s) = forget_logs s /\
  reports_failure s (handleRename false "sunset" s).
Proof.
  intros s.
  assert ("album-1" <> "all") as H1 by discriminate.
  assert (dbRef s = false \/ (false = false /\ is_Some (find_photo "id-1" (photos s)))) as H4
    by (right; split; [reflexivity | vm_compute; eexists; reflexivity]).
  destruct (X7_failed_write_changes_nothing false "id-1" "album-1" "sunset" s H1 eq_refl eq_refl)
    as [Hfail _].
  destruct (Hfail H4) as (_ & (Hrem & _) & (Hren & Hrep & _)).
  split; [repeat split; assumption|]. repeat split; assumption.
Defined.

(** X8: a rename that commits.  Every photo of the gallery with the
    identifier gets the trimmed name, which is never empty, and keeps
    everything else; the other photos are not touched; the record stored
    under the identifier is the renamed photo; blobs and URL cache are left
    alone, the dialog is closed and nothing is reported. *)
Theorem X8_rename_stores_the_trimmed_name localItemName rid p0 s :
  blank localItemName = false ->
  isRenamingItem (ui s) = Some (rid, "photo") ->
  dbRef s = true ->
  find_photo rid (photos s) = Some p0 ->
  let s' := handleRename true localItemName s in
  photos s' = List.map (rename_photo rid (trim localItemName)) (photos s) /\
  (forall p, In p (photos s) -> photo_id p = rid ->
     In (with_name (trim localItemName) p) (photos s')) /\
  (forall p, In p (photos s) -> photo_id p <> rid -> In p (photos s')) /\
  trim localItemName <> "" /\
  photosStore s' = <[rid := with_name (trim localItemName) p0]> (photosStore s) /\
  filesStore s' = filesStore s /\ urlCache s' = urlCache s /\
  isRenamingItem (ui s') = None /\ ~ reports_failure s s'.
Proof.
  intros Hname Hopen Hdb Hfind s'.
  assert (trim localItemName <> "") as Hne
    by (intros H; apply trim_empty_iff in H; congruence).
  assert (s' = set_ui (ui_close_rename (ui s))
                 (set_photos (List.map (rename_photo rid (trim localItemName)) (photos s))
                    (set_photosStore
                       (<[rid := with_name (trim localItemName) p0]> (photosStore s)) s))) as ->.
  { subst s'. unfold handleRename. apply String.eqb_neq in Hne. rewrite Hne, Hopen. simpl.
    rewrite (find_photo_map _ _ _ (rename_photo_id rid (trim localItemName))), Hfind.
    unfold put_found. rewrite Hdb. simpl.
    pose proof (find_photo_id _ _ _ Hfind) as Hid.
    unfold rename_photo. rewrite Hid, String.eqb_refl. simpl. rewrite Hid. reflexivity. }
  simpl. split; [reflexivity|]. split; [|split; [|split; [exact Hne|]]].
  - intros p Hp Hid. apply in_map_iff. exists p. split; [|exact Hp].
    unfold rename_photo. rewrite Hid, String.eqb_refl. reflexivity.
  - intros p Hp Hid. apply in_map_iff. exists p. split; [|exact Hp].
    unfold rename_photo. apply String.eqb_neq in Hid. rewrite Hid. reflexivity.
  - repeat split. intros [H | H]; apply H; reflexivity.
Qed.

Lemma X8_rename_stores_the_trimmed_name_witness :
  let s := set_ui (ui_set_isRenamingItem (Some ("id-1", "photo")) (ui two_items)) two_items in
  let s' := handleRename true "  sunset.png " s in
  (blank "  sunset.png " = false /\ isRenamingItem (ui s) = Some ("id-1", "photo") /\
   dbRef s = true /\
   find_photo "id-1" (photos s) = Some (newPhoto "all" sample_image env_1)) /\
  List.map photo_name (photos s') = ["sunset.png"; "clip.mp4"] /\
  option_map photo_name (photosStore s' !! "id-1") = Some "sunset.png".
Proof.
  intros s s'.
  assert (find_photo "id-1" (photos s) = Some (newPhoto "all" sample_image env_1)) as H4
    by (vm_compute; reflexivity).
  destruct (X8_rename_stores_the_trimmed_name "  sunset.png " "id-1" _ s
              eq_refl eq_refl eq_refl H4) as (Hph & _ & _ & _ & Hst & _).
  fold s' in Hph, Hst.
  split; [repeat split; assumption|].
  split; [rewrite Hph; vm_compute; reflexivity|].
  rewrite Hst, lookup_insert_eq. vm_compute. reflexivity.
Defined.

Lemma sort_insert_map {A B} (f : A -> B) (cmpA : A -> A -> Z) (cmpB : B -> B -> Z) x l :
  (forall a b, cmpB (f a) (f b) = cmpA a b) ->
  sort_insert cmpB (f x) (List.map f l) = List.map f (sort_insert cmpA x l).
Proof.
  intros Hcmp. induction l as [|y l IH]; simpl; [reflexivity|].
  rewrite Hcmp. destruct (cmpA x y <=? 0)%Z; simpl; [reflexivity|]. rewrite IH. reflexivity.
Qed.

Lemma Array_sort_map {A B} (f : A -> B) (cmpA : A -> A -> Z) (cmpB : B -> B -> Z) l :
  (forall a b, cmpB (f a) (f b) = cmpA a b) ->
  Array_sort cmpB (List.map f l) = List.map f (Array_sort cmpA l).
Proof.
  intros Hcmp. induction l as [|x l IH]; simpl; [reflexivity|].
  rewrite IH. apply sort_insert_map. exact Hcmp.
Qed.

Lemma List_filter_map {A B} (f : A -> B) (g : B -> bool) (l : list A) :
  List.filter g (List.map f l) = List.map f (List.filter (fun a => g (f a)) l).
Proof.
  induction l as [|x l IH]; simpl; [reflexivity|].
  rewrite IH. destruct (g (f x)); reflexivity.
Qed.

(** X9: renaming an album touches the name and nothing else.  The albums
    with the identifier get the trimmed name; identifiers, default flags and
    dates are kept, so the sidebar lists the same albums in the same order;
    no photo and no store is touched; and the step cannot fail, whatever
    the state of the database. *)
Theorem X9_album_rename_keeps_the_sidebar_order
    (Date_time : string -> option Z) txOk localItemName rid s :
  blank localItemName = false ->
  isRenamingItem (ui s) = Some (rid, "album") ->
  let s' := handleRename txOk localItemName s in
  albums s' = List.map (rename_album rid (trim localItemName)) (albums s) /\
  sidebarAlbums Date_time s' =
    List.map (rename_album rid (trim localItemName)) (sidebarAlbums Date_time s) /\
  List.map album_id (sidebarAlbums Date_time s') = List.map album_id (sidebarAlbums Date_time s) /\
  (forall a, In a (albums s') -> album_id a = rid -> album_name a = trim localItemName) /\
  photos s' = photos s /\ photosStore s' = photosStore s /\ filesStore s' = filesStore s /\
  isRenamingItem (ui s') = None /\ ~ reports_failure s s'.
Proof.
  intros Hname Hopen s'.
  assert (s' = set_ui (ui_close_rename (ui s))
                 (set_albums (List.map (rename_album rid (trim localItemName)) (albums s)) s))
    as ->.
  { subst s'. unfold handleRename.
    assert (String.eqb (trim localItemName) "" = false) as ->.
    { apply String.eqb_neq. intros H. apply trim_empty_iff in H. congruence. }
    rewrite Hopen. reflexivity. }
  assert (sidebarAlbums Date_time
            (set_ui (ui_close_rename (ui s))
               (set_albums (List.map (rename_album rid (trim localItemName)) (albums s)) s)) =
          List.map (rename_album rid (trim localItemName)) (sidebarAlbums Date_time s)) as Hside.
  { unfold sidebarAlbums. simpl. rewrite List_filter_map.
    rewrite (Array_sort_map _ (album_cmp Date_time)).
    - f_equal. f_equal. apply filter_ext. intros a. unfold rename_album.
      destruct (String.eqb (album_id a) rid); reflexivity.
    - intros a b. unfold album_cmp, album_time, rename_album.
      destruct (String.eqb (album_id a) rid), (String.eqb (album_id b) rid); reflexivity. }
  split; [reflexivity|]. split; [exact Hside|]. split; [|split].
  - rewrite Hside, map_map. apply map_ext. intros a. unfold rename_album.
    destruct (String.eqb (album_id a) rid); reflexivity.
  - simpl. intros a Ha Hid. apply in_map_iff in Ha as (a0 & <- & _).
    unfold rename_album in Hid |- *.
    destruct (String.eqb (album_id a0) rid) eqn:Heq; [reflexivity|].
    apply String.eqb_neq in Heq. congruence.
  - simpl. repeat split. intros [H | H]; apply H; reflexivity.
Qed.

Lemma X9_album_rename_keeps_the_sidebar_order_witness :
  let s := set_ui (ui_set_isRenamingItem (Some ("album-1", "album")) (ui three_items))
                  three_items in
  let s' := handleRename false "Voyage" s in
  (blank "Voyage" = false /\ isRenamingItem (ui s) = Some ("album-1", "album")) /\
  List.map album_name (sidebarAlbums iso_date_time s) = ["Family"; "Trip"] /\
  List.map album_name (sidebarAlbums iso_date_time s') = ["Family"; "Voyage"] /\
  photos s' = photos s.
Proof.
  intros s s'.
  destruct (X9_album_rename_keeps_the_sidebar_order iso_date_time false "Voyage" "album-1" s
              eq_refl eq_refl) as (_ & Hside & _ & _ & Hph & _).
  fold s' in Hside, Hph.
  split; [split; reflexivity|]. split; [vm_compute; reflexivity|].
  split; [rewrite Hside; vm_compute; reflexivity | exact Hph].
Defined.

(** ** What the metadata handlers leave alone *)

Lemma put_all_nil (m : gmap string Photo) : put_all [] m = m.
Proof. reflexivity. Qed.

Lemma put_found_put_all txOk pid l s ps :
  put_found txOk (find_photo pid l) s = Some ps ->
  exists w, (forall q, In q w -> In q l) /\ ps = put_all w (photosStore s).
Proof.
  unfold put_found. destruct (dbRef s); simpl; [|discriminate].
  destruct (find_photo pid l) as [q|] eqn:Hfind.
  - destruct txOk; [|discriminate]. intros H. inversion H; subst.
    exists [q]. split; [|reflexivity].
    intros q' [<- | []]. exact (find_photo_In _ _ _ Hfind).
  - intros H. inversion H; subst. exists []. split; [intros q []|reflexivity].
Qed.

(** The shape of every metadata handler: the gallery is mapped through a
    function that keeps the identity of each photo, some of the mapped
    photos are put in the "photos" store, and blobs, URL cache and revoked
    URLs are not touched. *)
Lemma metadata_op_shape o s :
  is_metadata_op o = true ->
  exists (f : Photo -> Photo) (w : list Photo),
    (forall p, identity_of (f p) = identity_of p) /\
    photos (step o s) = List.map f (photos s) /\
    (forall q, In q w -> In q (List.map f (photos s))) /\
    photosStore (step o s) = put_all w (photosStore s) /\
    filesStore (step o s) = filesStore s /\
    urlCache (step o s) = urlCache s /\
    revokedUrls (step o s) = revokedUrls s.
Proof.
  assert (exists (f : Photo -> Photo) (w : list Photo),
            (forall p, identity_of (f p) = identity_of p) /\
            photos s = List.map f (photos s) /\
            (forall q, In q w -> In q (List.map f (photos s))) /\
            photosStore s = put_all w (photosStore s) /\
            filesStore s = filesStore s /\ urlCache s = urlCache s /\
            revokedUrls s = revokedUrls s) as Hsame.
  { exists (fun p => p), []. rewrite map_id. repeat split; auto. intros q []. }
  destruct o; simpl; try discriminate; intros _.
  - (* handleDeleteAlbum *)
    unfold handleDeleteAlbum. destruct (String.eqb albumId "all"); [exact Hsame|].
    exists (scrub_album albumId),
           (if dbRef s && txOk then List.map (scrub_album albumId) (photos s) else []).
    split; [reflexivity|].
    destruct (dbRef s && txOk), (String.eqb (selectedView s) albumId); simpl;
      repeat split; auto; intros q [].
  - (* handleAddToAlbum *)
    unfold handleAddToAlbum. destruct (String.eqb albumId "all"); [exact Hsame|].
    destruct (put_found _ _ _) as [ps|] eqn:Hput; [|exact Hsame].
    destruct (put_found_put_all _ _ _ _ _ Hput) as (w & Hw & ->).
    exists (add_album photoId albumId), w. repeat split; auto.
    intros p. unfold identity_of, add_album.
    destruct (String.eqb (photo_id p) photoId); [|reflexivity].
    destruct (has_album p albumId); reflexivity.
  - (* handleRemoveFromAlbum *)
    unfold handleRemoveFromAlbum. destruct (String.eqb albumId "all"); [exact Hsame|].
    destruct (put_found _ _ _) as [ps|] eqn:Hput; [|exact Hsame].
    destruct (put_found_put_all _ _ _ _ _ Hput) as (w & Hw & ->).
    exists (remove_album photoId albumId), w. repeat split; auto.
    intros p. unfold identity_of, remove_album.
    destruct (String.eqb (photo_id p) photoId); reflexivity.
  - (* handleRename *)
    unfold handleRename. destruct (String.eqb (trim localItemName) ""); [exact Hsame|].
    destruct (isRenamingItem (ui s)) as [[rid rtype]|]; [|exact Hsame].
    destruct (String.eqb rtype "photo").
    + destruct (put_found _ _ _) as [ps|] eqn:Hput; [|exact Hsame].
      destruct (put_found_put_all _ _ _ _ _ Hput) as (w & Hw & ->).
      exists (rename_photo rid (trim localItemName)), w. repeat split; auto.
      intros p. unfold identity_of, rename_photo.
      destruct (String.eqb (photo_id p) rid); reflexivity.
    + destruct (String.eqb rtype "album"); exact Hsame.
  - (* handleCreateAlbum *)
    unfold handleCreateAlbum. destruct (String.eqb (trim localAlbumName) ""); [exact Hsame|].
    destruct (selectedItems (ui s)) as [|i sel] eqn:Hsel; [exact Hsame|].
    destruct (dbRef s && txOk); [|exact Hsame].
    exists (attach_album (i :: sel) newId),
           (List.filter (fun photo => Array_includes (i :: sel) (photo_id photo))
                        (List.map (attach_album (i :: sel) newId) (photos s))).
    repeat split; auto.
    + intros p. unfold identity_of, attach_album.
      destruct (Array_includes (i :: sel) (photo_id p)); reflexivity.
    + intros q Hq. apply filter_In in Hq as [Hq _]. exact Hq.
Qed.

(** X10: deleting or creating an album, changing the albums of a photo and
    renaming never add, drop or reorder a photo, never change the [id],
    [fileId], [type], [size] or [date] of one, and never touch a blob, the
    URL cache or the revoked URLs, whatever their transaction does. *)
Theorem X10_metadata_handlers_keep_photos_and_blobs o s :
  is_metadata_op o = true ->
  List.map identity_of (photos (step o s)) = List.map identity_of (photos s) /\
  filesStore (step o s) = filesStore s /\
  urlCache (step o s) = urlCache s /\
  revokedUrls (step o s) = revokedUrls s.
Proof.
  intros Hop. destruct (metadata_op_shape o s Hop) as (f & w & Hid & Hph & _ & _ & Hf & Hc & Hr).
  split; [|auto]. rewrite Hph, map_map. apply map_ext. exact Hid.
Qed.

Lemma X10_metadata_handlers_keep_photos_and_blobs_witness :
  let o := OpDeleteAlbum false "album-1" in
  is_metadata_op o = true /\
  List.map photo_id (photos (step o with_trip)) = List.map photo_id (photos with_trip) /\
  filesStore (step o with_trip) = filesStore with_trip.
Proof.
  intros o.
  destruct (X10_metadata_handlers_keep_photos_and_blobs o with_trip eq_refl) as (Hid & Hf & _).
  split; [reflexivity|]. split; [|exact Hf].
  apply (f_equal (List.map (fun t : string * string * string * N * string =>
                              fst (fst (fst (fst t)))))) in Hid.
  rewrite !map_map in Hid. exact Hid.
Defined.

(** ** Invariants of the gallery *)

Lemma set_ui_same (s : State) : set_ui (ui s) s = s.
Proof. destruct s. reflexivity. Qed.

(** The events that are not handler calls change the view state and the
    URL cache only. *)
Lemma handle_ui_and_cache_only toLowerCase e s :
  (forall o, e <> EvOp o) ->
  exists u c, handle toLowerCase e s = set_urlCache c (set_ui u s).
Proof.
  intros Hno.
  assert (forall u, set_ui u s = set_urlCache (urlCache s) (set_ui u s)) as Hu
    by (intros u; destruct s; reflexivity).
  assert (s = set_urlCache (urlCache s) (set_ui (ui s) s)) as Hs
    by (destruct s; reflexivity).
  destruct e; simpl.
  - exfalso. exact (Hno o eq_refl).
  - eexists _, (urlCache s). apply Hu.
  - unfold handleSelectItem. destruct (isSelecting (ui s)).
    + destruct (Array_includes _ _); eexists _, (urlCache s); apply Hu.
    + destruct (find_photo _ _); [eexists _, (urlCache s); apply Hu|].
      exists (ui s), (urlCache s). exact Hs.
  - eexists _, (urlCache s). apply Hu.
  - unfold handleNextPhoto. destruct (currentPhoto (ui s));
      [|exists (ui s), (urlCache s); exact Hs].
    destruct (_ <? _)%Z; [eexists _, (urlCache s); apply Hu | exists (ui s), (urlCache s); exact Hs].
  - unfold handlePrevPhoto. destruct (currentPhoto (ui s));
      [|exists (ui s), (urlCache s); exact Hs].
    destruct (_ <? _)%Z; [eexists _, (urlCache s); apply Hu | exists (ui s), (urlCache s); exact Hs].
  - unfold loadFileUrl_resume.
    destruct getOk; simpl; [|exists (ui s), (urlCache s); exact Hs].
    destruct file; simpl; [|exists (ui s), (urlCache s); exact Hs].
    exists (ui s), (<[fileId := freshUrl]> (urlCache s)). destruct s; reflexivity.
Qed.

Lemma handleDeletePhotos_albums filesOk photosOk ids s :
  albums (handleDeletePhotos filesOk photosOk ids s) = albums s.
Proof.
  unfold handleDeletePhotos. destruct (dbRef s); [|reflexivity]. simpl.
  destruct filesOk; [|reflexivity]. simpl. destruct photosOk; [|reflexivity]. simpl.
  pose proof (evict_all_frame ids
                (set_photosStore (delete_all ids (photosStore s))
                   (set_filesStore (delete_all ids (filesStore s)) s))) as Hf.
  simpl in Hf. tauto.
Qed.

Lemma has_default_album_step o s : has_default_album s -> has_default_album (step o s).
Proof.
  intros (a & Hin & Hid & Hdef). unfold has_default_album. destruct o; simpl.
  - unfold setupDB. destruct openOk, readOk; exists a; auto.
  - destruct (handleFileUpload_frame initOk files s) as (-> & _). exists a; auto.
  - rewrite handleDeletePhotos_albums. exists a; auto.
  - unfold handleDeleteAlbum. destruct (String.eqb albumId "all") eqn:Hall; [exists a; auto|].
    exists a. split; [|auto].
    assert (In a (List.filter (fun album => negb (String.eqb (album_id album) albumId))
                    (albums s))) as Hkeep.
    { apply filter_In. split; [exact Hin|]. rewrite Hid.
      rewrite String.eqb_sym. rewrite Hall. reflexivity. }
    destruct (dbRef s && txOk), (String.eqb (selectedView s) albumId); exact Hkeep.
  - unfold handleAddToAlbum. destruct (String.eqb albumId "all"); [exists a; auto|].
    destruct (put_found _ _ _); exists a; auto.
  - unfold handleRemoveFromAlbum. destruct (String.eqb albumId "all"); [exists a; auto|].
    destruct (put_found _ _ _); exists a; auto.
  - unfold handleRename. destruct (String.eqb (trim localItemName) ""); [exists a; auto|].
    destruct (isRenamingItem (ui s)) as [[rid rtype]|]; [|exists a; auto].
    destruct (String.eqb rtype "photo").
    + destruct (put_found _ _ _); exists a; auto.
    + destruct (String.eqb rtype "album"); [|exists a; auto].
      exists (rename_album rid (trim localItemName) a). simpl.
      split; [apply in_map; exact Hin|].
      unfold rename_album. destruct (String.eqb (album_id a) rid); auto.
  - unfold handleCreateAlbum. destruct (String.eqb (trim localAlbumName) ""); [exists a; auto|].
    assert (In a (albums s ++ [mkAlbum newId (trim localAlbumName) false (Some nowIso)]))
      as Hkeep by (apply in_or_app; left; exact Hin).
    destruct (selectedItems (ui s)); [exists a; auto|].
    destruct (dbRef s && txOk); exists a; auto.
  - rewrite loadFileUrl_alone. destruct (_ || _); [exists a; auto|].
    destruct (urlCache s !! fileId); [exists a; auto|].
    destruct getOk; [|exists a; auto]. destruct (filesStore s !! fileId); exists a; auto.
  - exists a; auto.
  - exists a; auto.
  - exists a; auto.
  - exists a; auto.
Qed.

(** X11: the reserved album cannot be lost.  If the album list holds an
    album with identifier "all" flagged as default, it still does after any
    sequence of events of the interface: no deletion removes it, and a
    rename keeps its identifier and its flag. *)
Theorem X11_default_album_is_never_lost toLowerCase (es : list Event) (s : State) :
  has_default_album s -> has_default_album (run_events toLowerCase es s).
Proof.
  unfold run_events. revert s. induction es as [|e es IH]; intros s H; simpl; [exact H|].
  apply IH. destruct e as [o| | | | | |]; [apply has_default_album_step, H| | | | | |];
    match goal with
    | |- context [handle _ ?ev _] =>
        destruct (handle_ui_and_cache_only toLowerCase ev s) as (u & c & ->);
        [discriminate | exact H]
    end.
Qed.

Lemma X11_default_album_is_never_lost_witness :
  let es :=
    [EvOp (OpCreateAlbum "album-1" "2024-02-01T12:00:00.000Z" true "Trip");
     EvOp (OpSetIsRenamingItem (Some ("all", "album")));
     EvOp (OpRename true "Everything");
     EvOp (OpDeleteAlbum true "all");
     EvOp (OpDeleteAlbum true "album-1")] in
  has_default_album initial_state /\
  List.map album_id (albums (run_events latin1_toLowerCase es initial_state)) = ["all"] /\
  has_default_album (run_events latin1_toLowerCase es initial_state).
Proof.
  intros es.
  assert (has_default_album initial_state) as H0
    by (exists default_album; split; [left; reflexivity | split; reflexivity]).
  split; [exact H0|]. split; [vm_compute; reflexivity|].
  exact (X11_default_album_is_never_lost latin1_toLowerCase es initial_state H0).
Defined.

Lemma stored_metadata_op o s :
  is_metadata_op o = true ->
  keyed_by_id s -> shown_are_stored s ->
  keyed_by_id (step o s) /\ shown_are_stored (step o s) /\
  (forall k, is_Some (photosStore (step o s) !! k) -> is_Some (photosStore s !! k)).
Proof.
  intros Hop Hkey Hshown.
  destruct (metadata_op_shape o s Hop) as (f & w & Hid & Hph & Hw & Hst & _).
  assert (forall p, photo_id (f p) = photo_id p) as Hid'
    by (intros p; specialize (Hid p); unfold identity_of in Hid; congruence).
  unfold keyed_by_id, shown_are_stored. rewrite Hst, Hph. split; [|split].
  - intros k p Hk. destruct (put_all_lookup _ _ _ _ Hk) as [[_ Hq] | Hold]; [exact Hq|].
    exact (Hkey _ _ Hold).
  - intros p Hp. apply in_map_iff in Hp as (p0 & <- & Hp0). rewrite Hid'.
    destruct (Hshown _ Hp0) as [q0 Hq0].
    destruct (put_all_keeps w _ _ _ Hq0) as (q & Hq & _). eauto.
  - intros k [p Hk]. destruct (put_all_lookup _ _ _ _ Hk) as [[Hq Hqk] | Hold]; [|eauto].
    apply Hw, in_map_iff in Hq as (p0 & <- & Hp0). rewrite Hid' in Hqk. subst k.
    exact (Hshown _ Hp0).
Qed.

Lemma stored_step o s :
  keyed_by_id s -> shown_are_stored s ->
  keyed_by_id (step o s) /\ shown_are_stored (step o s).
Proof.
  intros Hkey Hshown.
  destruct (is_metadata_op o) eqn:Hop.
  { destruct (stored_metadata_op o s Hop Hkey Hshown) as (H1 & H2 & _). auto. }
  destruct o; simpl in Hop; try discriminate; simpl.
  - (* setupDB *)
    unfold setupDB. destruct openOk; simpl; [|auto]. destruct readOk; simpl; [|auto].
    split; [exact Hkey|].
    intros p Hp. simpl in Hp |- *. apply getAll_In in Hp as [k Hk].
    rewrite (Hkey _ _ Hk). eauto.
  - (* handleFileUpload *)
    unfold handleFileUpload. destruct files as [|fe files]; [auto|].
    destruct (negb (dbRef s) && negb initOk); [auto|].
    destruct (upload_all _ _ _ _) as [[fs ps] rs] eqn:Hrun.
    destruct (upload_all_inv _ _ _ _ _ _ _ Hrun) as (_ & Hrec & _ & Hmeta & Hres & _).
    assert (keyed_by_id (set_photosStore ps s)) as Hkey'.
    { intros k p Hk. simpl in Hk.
      destruct (Hrec k p Hk) as [Hold | (f & e & _ & _ & _ & -> & ->)];
        [exact (Hkey _ _ Hold) | reflexivity]. }
    assert (forall p, In p (photos s) -> is_Some (ps !! photo_id p)) as Hold
      by (intros p Hp; exact (upload_all_keeps _ _ _ _ _ _ _ Hrun _ (Hshown _ Hp))).
    destruct (Promise_all rs) as [newPhotos|] eqn:Hall; (split; [exact Hkey'|]).
    + intros p Hp. simpl in Hp |- *. apply in_app_or in Hp as [Hp | Hp]; [exact (Hold _ Hp)|].
      destruct (Hres p (Promise_all_Some _ _ Hall _ Hp)) as (f & e & Hin & H1 & H2 & ->).
      exact (Hmeta f e Hin H1 H2).
    + exact Hold.
  - (* handleDeletePhotos *)
    unfold handleDeletePhotos. destruct (dbRef s); [|auto]. simpl.
    destruct filesOk; [|auto]. simpl. destruct photosOk; [|auto]. simpl.
    pose proof (evict_all_frame photoIds
                  (set_photosStore (delete_all photoIds (photosStore s))
                     (set_filesStore (delete_all photoIds (filesStore s)) s))) as Hf.
    simpl in Hf. destruct Hf as (_ & _ & _ & _ & _ & _ & _ & H8 & _).
    unfold keyed_by_id, shown_are_stored. simpl. rewrite H8. split.
    + intros k p Hk. rewrite delete_all_lookup in Hk.
      destruct (Array_includes photoIds k); [discriminate | exact (Hkey _ _ Hk)].
    + intros p Hp. apply filter_In in Hp as [Hp Hno]. apply negb_true_iff in Hno.
      rewrite delete_all_lookup, Hno. exact (Hshown _ Hp).
  - (* loadFileUrl *)
    rewrite loadFileUrl_alone. destruct (_ || _); [auto|].
    destruct (urlCache s !! fileId); [auto|].
    destruct getOk; [|auto]. destruct (filesStore s !! fileId); auto.
  - auto.
  - auto.
  - auto.
  - auto.
Qed.






(** ** The view after an upload and after a deletion *)

Lemma upload_all_results_ok sel l : forall fs ps,
  (forall fe, In fe l -> file_put_ok (snd fe) = true /\ photo_put_ok (snd fe) = true) ->
  snd (upload_all sel l fs ps) = List.map (fun fe => Some (newPhoto sel (fst fe) (snd fe))) l.
Proof.
  induction l as [|[file e] l IH]; intros fs ps Hok; [reflexivity|].
  rewrite upload_all_cons, upload_one_spec.
  destruct (Hok (file, e) (or_introl eq_refl)) as [H1 H2]. simpl in H1, H2. rewrite H1, H2.
  simpl. specialize (IH (<[gen_id e := file]> fs) (<[gen_id e := newPhoto sel file e]> ps)).
  destruct (upload_all sel l _ _) as [[fs2 ps2] rs2]. simpl in IH |- *.
  rewrite IH by (intros fe Hfe; apply Hok; right; exact Hfe). reflexivity.
Qed.

Lemma Promise_all_map_Some {A} (l : list A) : Promise_all (List.map Some l) = Some l.
Proof. induction l as [|x l IH]; simpl; [reflexivity | rewrite IH; reflexivity]. Qed.

Lemma newPhoto_in_view sel file e : has_album (newPhoto sel file e) sel = true.
Proof.
  unfold has_album, newPhoto, Array_includes. simpl.
  destruct (String.eqb sel "all") eqn:Hall; simpl; rewrite ?Hall, ?String.eqb_refl; reflexivity.
Qed.

(** X14: photos uploaded without a failure land in the view they were
    uploaded from.  The gallery gets the new photos appended in the order of
    the files; the current view gets appended those whose name matches the
    search text, all of them when there is none; and the same holds for the
    view "all". *)
Theorem X14_uploaded_photos_join_the_view (toLowerCase : string -> string) initOk files s :
  dbRef s || initOk = true ->
  (forall fe, In fe files -> file_put_ok (snd fe) = true /\ photo_put_ok (snd fe) = true) ->
  let new := List.map (fun fe => newPhoto (selectedView s) (fst fe) (snd fe)) files in
  let s' := handleFileUpload initOk files s in
  photos s' = photos s ++ new /\
  filteredPhotos toLowerCase s' =
    filteredPhotos toLowerCase s ++ List.filter (matchesSearch toLowerCase s) new /\
  (searchTerm s = "" -> filteredPhotos toLowerCase s' = filteredPhotos toLowerCase s ++ new) /\
  filteredPhotos toLowerCase (set_selectedView "all" s') =
    filteredPhotos toLowerCase (set_selectedView "all" s) ++
    List.filter (matchesSearch toLowerCase s) new /\
  ~ reports_failure s s'.
Proof.
  intros Hdb Hok new s'.
  assert (photos s' = photos s ++ new /\ selectedView s' = selectedView s /\
          searchTerm s' = searchTerm s /\ alerts s' = alerts s /\
          consoleErrors s' = consoleErrors s) as (Hph & Hsel & Hsearch & Hal & Hce).
  { subst s' new. destruct files as [|fe files]; [simpl; rewrite app_nil_r; repeat split|].
    destruct (upload_all (selectedView s) (fe :: files) (filesStore s) (photosStore s))
      as [[fs ps] rs] eqn:Hrun.
    rewrite (handleFileUpload_run initOk (fe :: files) s fs ps rs) by (assumption || discriminate).
    pose proof (upload_all_results_ok (selectedView s) (fe :: files)
                  (filesStore s) (photosStore s) Hok) as Hrs.
    rewrite Hrun in Hrs. cbn [snd] in Hrs. rewrite Hrs.
    assert (List.map (fun fe0 => Some (newPhoto (selectedView s) (fst fe0) (snd fe0)))
                     (fe :: files) =
            List.map Some
              (List.map (fun fe0 => newPhoto (selectedView s) (fst fe0) (snd fe0)) (fe :: files)))
      as -> by (rewrite map_map; reflexivity).
    rewrite Promise_all_map_Some. simpl. repeat split. }
  assert (forall p, In p new -> inSelectedAlbum s p = true) as Hin.
  { intros p Hp. apply in_map_iff in Hp as (fe & <- & _).
    unfold inSelectedAlbum. rewrite newPhoto_in_view. apply orb_true_r. }
  split; [exact Hph|]. split; [|split; [|split]].
  - unfold filteredPhotos. rewrite Hph, List.filter_app.
    unfold inSelectedAlbum, matchesSearch. rewrite Hsel, Hsearch. f_equal.
    apply filter_ext_in. intros p Hp. specialize (Hin p Hp).
    unfold inSelectedAlbum in Hin. rewrite Hin. reflexivity.
  - intros Hempty. unfold filteredPhotos. rewrite Hph, List.filter_app.
    unfold inSelectedAlbum, matchesSearch. rewrite Hsel, Hsearch, Hempty. f_equal.
    apply List_filter_all. intros p Hp. specialize (Hin p Hp).
    unfold inSelectedAlbum in Hin. rewrite Hin. reflexivity.
  - unfold filteredPhotos, inSelectedAlbum, matchesSearch.
    cbn [photos selectedView searchTerm set_selectedView].
    rewrite Hph, Hsearch, List.filter_app. f_equal.
  - intros [H | H]; apply H; assumption.
Qed.

Lemma X14_uploaded_photos_join_the_view_witness :
  let s := set_searchTerm "CLIP" with_trip in
  let files := [(sample_pdf, env_3); (sample_video, mkUploadEnv "id-5" "2024-01-05T07:00:00.000Z" true true)] in
  let s' := handleFileUpload true files s in
  (dbRef s || true = true /\
   (forall fe, In fe files -> file_put_ok (snd fe) = true /\ photo_put_ok (snd fe) = true)) /\
  List.map photo_id (photos s') = ["id-1"; "id-2"; "id-3"; "id-5"] /\
  List.map photo_id (filteredPhotos latin1_toLowerCase s) = [] /\
  List.map photo_id (filteredPhotos latin1_toLowerCase s') = ["id-5"] /\
  List.map albums_or_empty (filteredPhotos latin1_toLowerCase s') = [["all"; "album-1"]].
Proof.
  intros s files s'.
  assert (forall fe, In fe files ->
            file_put_ok (snd fe) = true /\ photo_put_ok (snd fe) = true) as Hok
    by (intros fe [<- | [<- | []]]; split; reflexivity).
  destruct (X14_uploaded_photos_join_the_view latin1_toLowerCase true files s eq_refl Hok)
    as (Hph & Hview & _).
  fold s' in Hph, Hview.
  split; [split; [reflexivity | exact Hok]|].
  split; [rewrite Hph; vm_compute; reflexivity|].
  split; [vm_compute; reflexivity|].
  split; rewrite Hview; vm_compute; reflexivity.
Defined.

Lemma List_filter_comm {A} (f g : A -> bool) (l : list A) :
  List.filter f (List.filter g l) = List.filter g (List.filter f l).
Proof.
  induction l as [|x l IH]; simpl; [reflexivity|].
  destruct (f x) eqn:Hf, (g x) eqn:Hg; simpl; rewrite ?Hf, ?Hg, IH; reflexivity.
Qed.

(** The date headings are the date portions of the photos in view. *)
Lemma sortedDates_In toLowerCase Date_time s d :
  In d (sortedDates toLowerCase Date_time s) <->
  exists p, In p (filteredPhotos toLowerCase s) /\ date_key p = d.
Proof.
  unfold sortedDates. rewrite Array_sort_In, <- group_get_keys.
  unfold groupedPhotos. rewrite group_get_fold. simpl.
  destruct (List.filter (fun p => String.eqb (date_key p) d) (filteredPhotos toLowerCase s))
    as [|p fl] eqn:Hf.
  - split; [intros [? H]; discriminate|]. intros (p & Hp & Hd).
    assert (In p (List.filter (fun p => String.eqb (date_key p) d)
                    (filteredPhotos toLowerCase s))) as Hin
      by (apply filter_In; split; [exact Hp | apply String.eqb_eq, Hd]).
    rewrite Hf in Hin. destruct Hin.
  - split; [|eauto]. intros _.
    assert (In p (p :: fl)) as Hin by (left; reflexivity).
    rewrite <- Hf in Hin. apply filter_In in Hin as [Hin Hd].
    exists p. split; [exact Hin | apply String.eqb_eq, Hd].
Qed.

(** X15: after a deletion that commits, the view is the former view without
    the deleted photos, in the same order, and a date heading remains
    exactly when one of its photos does. *)
Theorem X15_view_after_delete
    (toLowerCase : string -> string) (Date_time : string -> option Z) ids s :
  dbRef s = true ->
  let s' := handleDeletePhotos true true ids s in
  filteredPhotos toLowerCase s' =
    List.filter (fun photo => negb (Array_includes ids (photo_id photo)))
                (filteredPhotos toLowerCase s) /\
  (forall d, In d (sortedDates toLowerCase Date_time s') <->
     exists p, In p (filteredPhotos toLowerCase s) /\ date_key p = d /\
               ~ In (photo_id p) ids).
Proof.
  intros Hdb s'.
  assert (filteredPhotos toLowerCase s' =
          List.filter (fun photo => negb (Array_includes ids (photo_id photo)))
                      (filteredPhotos toLowerCase s)) as Hview.
  { destruct (handleDeletePhotos_ok ids s Hdb) as (_ & _ & Hph & _).
    assert (selectedView s' = selectedView s /\ searchTerm s' = searchTerm s) as [Hsel Hsearch].
    { subst s'. unfold handleDeletePhotos. rewrite Hdb. simpl.
      pose proof (evict_all_frame ids
                    (set_photosStore (delete_all ids (photosStore s))
                       (set_filesStore (delete_all ids (filesStore s)) s))) as Hf.
      simpl in Hf. tauto. }
    fold s' in Hph. unfold filteredPhotos, inSelectedAlbum, matchesSearch.
    rewrite Hph, Hsel, Hsearch. apply List_filter_comm. }
  split; [exact Hview|].
  intros d. rewrite sortedDates_In, Hview. split.
  - intros (p & Hp & Hd). apply filter_In in Hp as [Hp Hno].
    exists p. split; [exact Hp|]. split; [exact Hd|].
    apply Array_includes_not_In, negb_true_iff, Hno.
  - intros (p & Hp & Hd & Hno). exists p. split; [|exact Hd].
    apply filter_In. split; [exact Hp|]. apply negb_true_iff, Array_includes_not_In, Hno.
Qed.

Lemma X15_view_after_delete_witness :
  let s' := handleDeletePhotos true true ["id-2"] three_items in
  dbRef three_items = true /\
  sortedDates latin1_toLowerCase iso_date_time three_items = ["2024-01-03"; "2024-01-02"] /\
  List.map photo_id (filteredPhotos latin1_toLowerCase s') = ["id-1"; "id-3"] /\
  ~ In "2024-01-03" (sortedDates latin1_toLowerCase iso_date_time s').
Proof.
  intros s'.
  destruct (X15_view_after_delete latin1_toLowerCase iso_date_time ["id-2"] three_items eq_refl)
    as [Hview Hdates].
  fold s' in Hview, Hdates.
  split; [reflexivity|]. split; [vm_compute; reflexivity|].
  split; [rewrite Hview; vm_compute; reflexivity|].
  intros Hd. apply Hdates in Hd as (p & Hp & Hd & Hno).
  vm_compute in Hp. destruct Hp as [<- | [<- | [<- | []]]].
  - vm_compute in Hd. discriminate.
  - apply Hno. left. reflexivity.
  - vm_compute in Hd. discriminate.
Defined.

(** ** The grid *)

Lemma flat_map_ext_In {A B} (f g : A -> list B) (l : list A) :
  (forall a, In a l -> f a = g a) -> flat_map f l = flat_map g l.
Proof.
  induction l as [|x l IH]; intros H; simpl; [reflexivity|].
  rewrite (H x) by (left; reflexivity). f_equal. apply IH. intros a Ha. apply H. right. exact Ha.
Qed.

Lemma flat_map_insert_one {A} (key : A -> string) (g : string -> list A) (p : A)
    (keys : list string) :
  NoDup keys -> In (key p) keys ->
  Permutation
    (flat_map (fun d => if String.eqb (key p) d then p :: g d else g d) keys)
    (p :: flat_map g keys).
Proof.
  induction keys as [|d ks IH]; intros Hnd Hin; [destruct Hin|].
  apply NoDup_cons in Hnd as [Hd Hnd]. simpl.
  destruct (String.eqb (key p) d) eqn:Heq.
  - apply String.eqb_eq in Heq. subst d. simpl. apply perm_skip.
    apply Permutation_app_head.
    rewrite (flat_map_ext_In _ g); [reflexivity|].
    intros d' Hd'. destruct (String.eqb (key p) d') eqn:Heq'; [|reflexivity].
    apply String.eqb_eq in Heq'. subst d'. exfalso. apply Hd, list_elem_of_In, Hd'.
  - apply String.eqb_neq in Heq. destruct Hin as [Hin | Hin]; [congruence|].
    rewrite (IH Hnd Hin). apply Permutation_sym, Permutation_middle.
Qed.

(** Splitting a list by key over a list of distinct keys that covers it
    loses and repeats nothing. *)
Lemma partition_by_key {A} (key : A -> string) (l : list A) (keys : list string) :
  NoDup keys -> (forall p, In p l -> In (key p) keys) ->
  Permutation (flat_map (fun d => List.filter (fun p => String.eqb (key p) d) l) keys) l.
Proof.
  intros Hnd. induction l as [|p l IH]; intros Hcover.
  - simpl. clear. induction keys as [|d ks IHk]; simpl; [reflexivity | exact IHk].
  - apply (perm_trans (l' := p :: flat_map
                         (fun d => List.filter (fun q => String.eqb (key q) d) l) keys)).
    + apply (flat_map_insert_one key
               (fun d => List.filter (fun q => String.eqb (key q) d) l) p keys Hnd).
      apply Hcover. left. reflexivity.
    + apply perm_skip, IH. intros q Hq. apply Hcover. right. exact Hq.
Qed.

(** X16: the grid shows every photo of the view exactly once.  Each date
    heading has a block, none of them empty or undefined; a block holds
    photos of its own date only; no date has two blocks; and the blocks put
    end to end are a rearrangement of the view. *)
Theorem X16_grid_shows_each_photo_once
    (toLowerCase : string -> string) (Date_time : string -> option Z) (s : State) :
  exists blocks : list (string * list Photo),
    renderedGrid toLowerCase Date_time s =
      List.map (fun b => (fst b, Some (snd b))) blocks /\
    NoDup (List.map fst blocks) /\
    (forall d l, In (d, l) blocks -> l <> [] /\ forall p, In p l -> date_key p = d) /\
    Permutation (concat (List.map snd blocks)) (filteredPhotos toLowerCase s).
Proof.
  set (view := filteredPhotos toLowerCase s).
  set (dates := sortedDates toLowerCase Date_time s).
  exists (List.map (fun d => (d, List.filter (fun p => String.eqb (date_key p) d) view)) dates).
  assert (NoDup dates) as Hnd.
  { subst dates. unfold sortedDates. rewrite Array_sort_perm.
    apply group_fold_NoDup. apply NoDup_nil. exact I. }
  split; [|split; [|split]].
  - unfold renderedGrid. fold dates. rewrite map_map. apply map_ext_in. intros d Hd. simpl.
    f_equal. unfold groupedPhotos. fold view. rewrite group_get_fold. simpl.
    apply sortedDates_In in Hd as (p & Hp & Hkey). fold view in Hp.
    destruct (List.filter (fun p0 => String.eqb (date_key p0) d) view) eqn:Hf; [|reflexivity].
    assert (In p (List.filter (fun p0 => String.eqb (date_key p0) d) view)) as Hin
      by (apply filter_In; split; [exact Hp | apply String.eqb_eq, Hkey]).
    rewrite Hf in Hin. destruct Hin.
  - rewrite map_map. simpl. rewrite map_id. exact Hnd.
  - intros d l Hin. apply in_map_iff in Hin as (d' & Heq & Hd'). inversion Heq; subst d' l.
    split.
    + apply sortedDates_In in Hd' as (p & Hp & Hkey). fold view in Hp. intros Hempty.
      assert (In p (List.filter (fun p0 => String.eqb (date_key p0) d) view)) as Hin
        by (apply filter_In; split; [exact Hp | apply String.eqb_eq, Hkey]).
      rewrite Hempty in Hin. destruct Hin.
    + intros p Hp. apply filter_In in Hp as [_ Hp]. apply String.eqb_eq, Hp.
  - rewrite map_map. simpl. rewrite <- flat_map_concat_map.
    apply partition_by_key; [exact Hnd|].
    intros p Hp. apply sortedDates_In. exists p. split; [exact Hp | reflexivity].
Qed.

(** ** Selecting photos *)

Lemma List_filter_NoDup {A} (f : A -> bool) (l : list A) : NoDup l -> NoDup (List.filter f l).
Proof. intros H. exact (sublist_NoDup _ _ H (List_filter_sublist f l)). Qed.

Lemma filter_out_last (l : list string) (i : string) :
  ~ In i l -> List.filter (fun j => negb (String.eqb j i)) (l ++ [i]) = l.
Proof.
  intros Hnot. rewrite List.filter_app. simpl. rewrite String.eqb_refl. simpl.
  rewrite app_nil_r. apply List_filter_all.
  intros j Hj. apply negb_true_iff, String.eqb_neq. intros ->. exact (Hnot Hj).
Qed.

(** X17: selecting in selection mode.  A click on a photo that is not
    selected appends it to the selection, a click on a selected one removes
    it and nothing else; so a selection without repetition stays without
    repetition, and two clicks on a photo that was not selected bring the
    whole state back.  Nothing but the selection changes, and the detail
    view is never opened. *)
Theorem X17_selection_toggles itemId s :
  isSelecting (ui s) = true ->
  let sel := selectedItems (ui s) in
  let s' := handleSelectItem itemId s in
  (NoDup sel -> NoDup (selectedItems (ui s'))) /\
  (~ In itemId sel ->
     selectedItems (ui s') = sel ++ [itemId] /\ handleSelectItem itemId s' = s) /\
  (In itemId sel ->
     ~ In itemId (selectedItems (ui s')) /\
     forall j, j <> itemId -> (In j (selectedItems (ui s')) <-> In j sel)) /\
  s' = set_ui (ui_set_selectedItems (selectedItems (ui s')) (ui s)) s.
Proof.
  intros Hmode sel s'. subst s'. unfold handleSelectItem. rewrite Hmode.
  destruct (Array_includes (selectedItems (ui s)) itemId) eqn:Hinc; fold sel in Hinc |- *.
  - apply Array_includes_In in Hinc. simpl. split; [apply List_filter_NoDup|].
    split; [intros Hnot; exfalso; exact (Hnot Hinc)|]. split; [|reflexivity].
    intros _. split.
    + intros H. apply filter_In in H as [_ H]. rewrite String.eqb_refl in H. discriminate.
    + intros j Hj. rewrite filter_In, negb_true_iff, String.eqb_neq. tauto.
  - apply Array_includes_not_In in Hinc. simpl. split; [|split; [|split; [|reflexivity]]].
    + intros Hnd. rewrite <- Permutation_cons_append. apply NoDup_cons.
      split; [rewrite list_elem_of_In; exact Hinc | exact Hnd].
    + intros _. split; [reflexivity|]. simpl. rewrite Hmode.
      rewrite Array_includes_last. simpl. rewrite (filter_out_last _ _ Hinc).
      subst sel. destruct s as [? ? ? ? [] ? ? ? ? ? ? ?]. reflexivity.
    + intros Hin. exfalso. exact (Hinc Hin).
Qed.

Lemma X17_selection_toggles_witness :
  let s := set_ui (ui_set_isSelecting true (ui_set_selectedItems ["id-2"] (ui two_items)))
                  two_items in
  (isSelecting (ui s) = true /\ NoDup (selectedItems (ui s)) /\
   ~ In "id-1" (selectedItems (ui s)) /\ In "id-2" (selectedItems (ui s))) /\
  selectedItems (ui (handleSelectItem "id-1" s)) = ["id-2"; "id-1"] /\
  handleSelectItem "id-1" (handleSelectItem "id-1" s) = s /\
  NoDup (selectedItems (ui (handleSelectItem "id-1" s))) /\
  ~ In "id-2" (selectedItems (ui (handleSelectItem "id-2" s))).
Proof.
  intros s.
  assert (NoDup (selectedItems (ui s))) as Hnd.
  { simpl. apply NoDup_cons. split; [apply not_elem_of_nil | apply NoDup_nil; exact I]. }
  assert (~ In "id-1" (selectedItems (ui s))) as Hnot by (intros [H | []]; discriminate).
  assert (In "id-2" (selectedItems (ui s))) as Hin by (left; reflexivity).
  destruct (X17_selection_toggles "id-1" s eq_refl) as (Hkeep & Hadd & _).
  destruct (Hadd Hnot) as [Hsel Hback].
  destruct (X17_selection_toggles "id-2" s eq_refl) as (_ & _ & Hrem & _).
  destruct (Hrem Hin) as [Hgone _].
  split; [repeat split; assumption|].
  split; [exact Hsel|]. split; [exact Hback|]. split; [exact (Hkeep Hnd) | exact Hgone].
Defined.

(** ** Walking through the view *)

Lemma findIndex_spec {A} (f : A -> bool) (l : list A) :
  (findIndex f l = (-1)%Z /\ forall x, In x l -> f x = false) \/
  (exists n x, findIndex f l = Z.of_nat n /\ nth_error l n = Some x /\ f x = true /\
               forall m y, (m < n)%nat -> nth_error l m = Some y -> f y = false).
Proof.
  induction l as [|a l IH]; simpl.
  - left. split; [reflexivity | intros x []].
  - destruct (f a) eqn:Ha.
    + right. exists 0%nat, a. repeat split; auto. intros m y Hm. lia.
    + destruct IH as [[Hi Hnone] | (n & x & Hi & Hn & Hx & Hbefore)].
      * left. rewrite Hi. simpl. split; [reflexivity|].
        intros x [<- | Hx]; [exact Ha | exact (Hnone x Hx)].
      * right. exists (S n), x. rewrite Hi.
        assert ((Z.of_nat n <? 0)%Z = false) as -> by (apply Z.ltb_ge; lia).
        split; [lia|]. split; [exact Hn|]. split; [exact Hx|].
        intros m y Hm Hy. destruct m as [|m]; simpl in Hy.
        -- inversion Hy; subst. exact Ha.
        -- apply (Hbefore m y); [lia | exact Hy].
Qed.

Lemma Array_get_nat {A} (l : list A) (n : nat) : Array_get l (Z.of_nat n) = nth_error l n.
Proof.
  unfold Array_get. assert ((Z.of_nat n <? 0)%Z = false) as -> by (apply Z.ltb_ge; lia).
  rewrite Nat2Z.id. reflexivity.
Qed.

(** With identifiers that do not repeat, the index found for the identifier
    of the photo at a position is that position. *)
Lemma findIndex_photo_id (l : list Photo) (n : nat) (p cur : Photo) :
  NoDup (List.map photo_id l) ->
  nth_error l n = Some p ->
  photo_id cur = photo_id p ->
  findIndex (fun q => String.eqb (photo_id q) (photo_id cur)) l = Z.of_nat n.
Proof.
  intros Hnd Hn Hid.
  destruct (findIndex_spec (fun q => String.eqb (photo_id q) (photo_id cur)) l)
    as [[_ Hnone] | (m & x & Hi & Hm & Hx & _)].
  - apply nth_error_In in Hn. specialize (Hnone p Hn). simpl in Hnone.
    rewrite Hid, String.eqb_refl in Hnone. discriminate.
  - rewrite Hi. f_equal. apply String.eqb_eq in Hx.
    apply NoDup_ListNoDup in Hnd.
    apply (proj1 (NoDup_nth_error (List.map photo_id l)) Hnd).
    + rewrite length_map. apply nth_error_Some. congruence.
    + rewrite !nth_error_map, Hm, Hn. simpl. congruence.
Qed.

Lemma filteredPhotos_set_ui toLowerCase u s :
  filteredPhotos toLowerCase (set_ui u s) = filteredPhotos toLowerCase s.
Proof. reflexivity. Qed.

Lemma nth_error_None_length {A} (l : list A) (n : nat) :
  nth_error l n = None <-> (List.length l <= n)%nat.
Proof. apply nth_error_None. Qed.

(** X18: the arrows of the detail view walk through the view.  When the
    identifiers of the view do not repeat and the photo shown stands at
    position [n] of the view, "next" shows the photo at position [n + 1] and
    "previous" then comes back to position [n]; on the last photo "next"
    changes nothing; "previous" shows position [n - 1], from where "next"
    comes back; on the first photo "previous" changes nothing. *)
Theorem X18_arrows_walk_the_view (toLowerCase : string -> string) s cur n p :
  currentPhoto (ui s) = Some cur ->
  NoDup (List.map photo_id (filteredPhotos toLowerCase s)) ->
  nth_error (filteredPhotos toLowerCase s) n = Some p ->
  photo_id cur = photo_id p ->
  let view := filteredPhotos toLowerCase s in
  let next := handleNextPhoto toLowerCase in
  let prev := handlePrevPhoto toLowerCase in
  (forall q, nth_error view (S n) = Some q ->
     currentPhoto (ui (next s)) = Some q /\ currentPhoto (ui (prev (next s))) = Some p) /\
  (nth_error view (S n) = None -> next s = s) /\
  (forall m r, n = S m -> nth_error view m = Some r ->
     currentPhoto (ui (prev s)) = Some r /\ currentPhoto (ui (next (prev s))) = Some p) /\
  (n = 0%nat -> prev s = s).
Proof.
  intros Hcur Hnd Hn Hid view next prev.
  assert (currentIndex toLowerCase s cur = Z.of_nat n) as Hidx
    by (exact (findIndex_photo_id _ _ _ _ Hnd Hn Hid)).
  assert ((n < List.length view)%nat) as Hlen by (apply nth_error_Some; fold view in Hn; congruence).
  split; [|split; [|split]].
  - intros q Hq.
    assert ((S n < List.length view)%nat) as Hlen' by (apply nth_error_Some; congruence).
    assert (next s = set_ui (ui_set_currentPhoto (Some q) (ui s)) s) as Hnext.
    { subst next. unfold handleNextPhoto. rewrite Hcur, Hidx. fold view. unfold Array_length.
      assert ((Z.of_nat n <? Z.of_nat (List.length view) - 1)%Z = true) as ->
        by (apply Z.ltb_lt; lia).
      replace (Z.of_nat n + 1)%Z with (Z.of_nat (S n)) by lia.
      rewrite Array_get_nat, Hq. reflexivity. }
    rewrite Hnext. split; [reflexivity|].
    subst prev. unfold handlePrevPhoto. cbn [ui set_ui currentPhoto ui_set_currentPhoto].
    unfold currentIndex. rewrite filteredPhotos_set_ui.
    rewrite (findIndex_photo_id _ (S n) q q Hnd Hq eq_refl).
    assert ((0 <? Z.of_nat (S n))%Z = true) as -> by (apply Z.ltb_lt; lia).
    replace (Z.of_nat (S n) - 1)%Z with (Z.of_nat n) by lia.
    rewrite Array_get_nat. fold view in Hn. fold view. rewrite Hn. reflexivity.
  - intros Hlast. apply nth_error_None in Hlast.
    subst next. unfold handleNextPhoto. rewrite Hcur, Hidx. fold view. unfold Array_length.
    assert ((Z.of_nat n <? Z.of_nat (List.length view) - 1)%Z = false) as ->
      by (apply Z.ltb_ge; lia).
    reflexivity.
  - intros m r -> Hr.
    assert (prev s = set_ui (ui_set_currentPhoto (Some r) (ui s)) s) as Hprev.
    { subst prev. unfold handlePrevPhoto. rewrite Hcur, Hidx.
      assert ((0 <? Z.of_nat (S m))%Z = true) as -> by (apply Z.ltb_lt; lia).
      replace (Z.of_nat (S m) - 1)%Z with (Z.of_nat m) by lia.
      fold view. rewrite Array_get_nat, Hr. reflexivity. }
    rewrite Hprev. split; [reflexivity|].
    subst next. unfold handleNextPhoto. cbn [ui set_ui currentPhoto ui_set_currentPhoto].
    unfold currentIndex. rewrite filteredPhotos_set_ui.
    rewrite (findIndex_photo_id _ m r r Hnd Hr eq_refl). fold view. unfold Array_length.
    assert ((Z.of_nat m <? Z.of_nat (List.length view) - 1)%Z = true) as ->
      by (apply Z.ltb_lt; lia).
    replace (Z.of_nat m + 1)%Z with (Z.of_nat (S m)) by lia.
    rewrite Array_get_nat. fold view in Hn. rewrite Hn. reflexivity.
  - intros ->. subst prev. unfold handlePrevPhoto. rewrite Hcur, Hidx. reflexivity.
Qed.

Lemma X18_arrows_walk_the_view_witness :
  let p1 := newPhoto "all" sample_image env_1 in
  let p2 := newPhoto "all" sample_video env_2 in
  let s := handleSelectItem "id-1" two_items in
  let next := handleNextPhoto latin1_toLowerCase in
  let prev := handlePrevPhoto latin1_toLowerCase in
  (currentPhoto (ui s) = Some p1 /\
   NoDup (List.map photo_id (filteredPhotos latin1_toLowerCase s)) /\
   nth_error (filteredPhotos latin1_toLowerCase s) 0 = Some p1 /\
   nth_error (filteredPhotos latin1_toLowerCase s) 1 = Some p2) /\
  currentPhoto (ui (next s)) = Some p2 /\
  currentPhoto (ui (prev (next s))) = Some p1 /\
  prev s = s.
Proof.
  intros p1 p2 s next prev.
  assert (NoDup (List.map photo_id (filteredPhotos latin1_toLowerCase s))) as Hnd.
  { vm_compute. apply NoDup_cons. split.
    - intros H. apply list_elem_of_In in H. destruct H as [H | []]. discriminate.
    - apply NoDup_cons. split; [apply not_elem_of_nil | apply NoDup_nil; exact I]. }
  assert (nth_error (filteredPhotos latin1_toLowerCase s) 0 = Some p1) as H0
    by (vm_compute; reflexivity).
  assert (nth_error (filteredPhotos latin1_toLowerCase s) 1 = Some p2) as H1
    by (vm_compute; reflexivity).
  destruct (X18_arrows_walk_the_view latin1_toLowerCase s p1 0 p1 eq_refl Hnd H0 eq_refl)
    as (Hnext & _ & _ & Hfirst).
  destruct (Hnext p2 H1) as [Hn Hback].
  split; [repeat split; assumption|].
  split; [exact Hn|]. split; [exact Hback | exact (Hfirst eq_refl)].
Defined.

(** X19: the arrows at the edges.  Whatever the view, an arrow leaves the
    photo shown or shows a photo of the view, never nothing.  A handler
    whose arrow is disabled changes nothing.  When the photo shown is not in
    the view, "previous" changes nothing although its arrow is enabled, and
    "next" shows the first photo of the view, if there is one. *)
Theorem X19_arrows_at_the_edges (toLowerCase : string -> string) s cur :
  currentPhoto (ui s) = Some cur ->
  let view := filteredPhotos toLowerCase s in
  let next := handleNextPhoto toLowerCase s in
  let prev := handlePrevPhoto toLowerCase s in
  (currentPhoto (ui next) = Some cur \/
   exists q, In q view /\ currentPhoto (ui next) = Some q) /\
  (currentPhoto (ui prev) = Some cur \/
   exists q, In q view /\ currentPhoto (ui prev) = Some q) /\
  (nextDisabled toLowerCase s cur = true -> next = s) /\
  (prevDisabled toLowerCase s cur = true -> prev = s) /\
  ((forall q, In q view -> photo_id q <> photo_id cur) ->
     prev = s /\ prevDisabled toLowerCase s cur = false /\
     (view = [] -> next = s) /\
     (forall q rest, view = q :: rest -> currentPhoto (ui next) = Some q)).
Proof.
  intros Hcur view next prev. subst next prev.
  unfold handleNextPhoto, handlePrevPhoto, nextDisabled, prevDisabled. rewrite Hcur.
  unfold currentIndex, Array_length. fold view.
  destruct (findIndex_spec (fun p => String.eqb (photo_id p) (photo_id cur)) view)
    as [[Hi Hnone] | (n & x & Hi & Hn & Hx & _)]; rewrite Hi.
  - (* the photo shown is not in the view *)
    change (0 <? -1)%Z with false. change (-1 =? 0)%Z with false.
    change (-1 + 1)%Z with 0%Z.
    assert (Array_get view 0 = nth_error view 0) as -> by reflexivity.
    split; [|split; [left; exact Hcur|split; [|split; [discriminate|]]]].
    + destruct view as [|q rest] eqn:Hv.
      * left. assert ((-1 <? Z.of_nat (@List.length Photo []) - 1)%Z = false) as ->
          by reflexivity. exact Hcur.
      * assert ((-1 <? Z.of_nat (List.length (q :: rest)) - 1)%Z = true) as ->
          by (apply Z.ltb_lt; simpl List.length; lia).
        right. exists q. split; [left; reflexivity | reflexivity].
    + intros Hdis. apply Z.eqb_eq in Hdis.
      assert ((-1 <? Z.of_nat (List.length view) - 1)%Z = false) as ->
        by (apply Z.ltb_ge; lia).
      reflexivity.
    + intros _. split; [reflexivity|]. split; [reflexivity|]. split.
      * intros ->. reflexivity.
      * intros q rest ->.
        assert ((-1 <? Z.of_nat (List.length (q :: rest)) - 1)%Z = true) as ->
          by (apply Z.ltb_lt; simpl List.length; lia).
        reflexivity.
  - (* the photo shown is at position n *)
    assert ((n < List.length view)%nat) as Hlen by (apply nth_error_Some; congruence).
    split; [|split; [|split; [|split]]].
    + destruct (Z.of_nat n <? Z.of_nat (List.length view) - 1)%Z eqn:Hlt; [|left; exact Hcur].
      apply Z.ltb_lt in Hlt. replace (Z.of_nat n + 1)%Z with (Z.of_nat (S n)) by lia.
      rewrite Array_get_nat.
      destruct (nth_error view (S n)) as [q|] eqn:Hq.
      * right. exists q. split; [exact (nth_error_In _ _ Hq) | reflexivity].
      * apply nth_error_None in Hq. lia.
    + destruct (0 <? Z.of_nat n)%Z eqn:Hlt; [|left; exact Hcur].
      apply Z.ltb_lt in Hlt. destruct n as [|m]; [lia|].
      replace (Z.of_nat (S m) - 1)%Z with (Z.of_nat m) by lia. rewrite Array_get_nat.
      destruct (nth_error view m) as [q|] eqn:Hq.
      * right. exists q. split; [exact (nth_error_In _ _ Hq) | reflexivity].
      * apply nth_error_None in Hq. lia.
    + intros Hdis. apply Z.eqb_eq in Hdis.
      assert ((Z.of_nat n <? Z.of_nat (List.length view) - 1)%Z = false) as ->
        by (apply Z.ltb_ge; lia).
      reflexivity.
    + intros Hdis. apply Z.eqb_eq in Hdis.
      assert ((0 <? Z.of_nat n)%Z = false) as -> by (apply Z.ltb_ge; lia).
      reflexivity.
    + intros Hnot. exfalso. apply (Hnot x (nth_error_In _ _ Hn)).
      apply String.eqb_eq, Hx.
Qed.

Lemma X19_arrows_at_the_edges_witness :
  let p1 := newPhoto "all" sample_image env_1 in
  let s := set_searchTerm "clip" (handleSelectItem "id-1" two_items) in
  (currentPhoto (ui s) = Some p1 /\
   forall q, In q (filteredPhotos latin1_toLowerCase s) -> photo_id q <> photo_id p1) /\
  List.map photo_id (filteredPhotos latin1_toLowerCase s) = ["id-2"] /\
  handlePrevPhoto latin1_toLowerCase s = s /\
  prevDisabled latin1_toLowerCase s p1 = false /\
  option_map photo_id (currentPhoto (ui (handleNextPhoto latin1_toLowerCase s))) = Some "id-2".
Proof.
  intros p1 s.
  assert (forall q, In q (filteredPhotos latin1_toLowerCase s) -> photo_id q <> photo_id p1)
    as Hnot.
  { intros q Hq. vm_compute in Hq. destruct Hq as [<- | []]. vm_compute. discriminate. }
  destruct (X19_arrows_at_the_edges latin1_toLowerCase s p1 eq_refl) as (_ & _ & _ & _ & Hout).
  destruct (Hout Hnot) as (Hprev & Hdis & _ & Hfirst).
  split; [split; [reflexivity | exact Hnot]|].
  split; [vm_compute; reflexivity|]. split; [exact Hprev|]. split; [exact Hdis|].
  rewrite (Hfirst (newPhoto "all" sample_video env_2) []); [reflexivity|].
  vm_compute. reflexivity.
Defined.

(** ** The tiles of the grid *)

Lemma keeps_tile_props_ui o s :
  keeps_tile_props o = true ->
  isSelecting (ui (step o s)) = isSelecting (ui s) /\
  selectedItems (ui (step o s)) = selectedItems (ui s) /\
  draggedItem (ui (step o s)) = draggedItem (ui s).
Proof.
  destruct o; simpl; try discriminate; intros _.
  - unfold handleDeleteAlbum. destruct (String.eqb albumId "all"); [auto|].
    destruct (dbRef s && txOk), (String.eqb (selectedView s) albumId); auto.
  - unfold handleRemoveFromAlbum. destruct (String.eqb albumId "all"); [auto|].
    destruct (put_found _ _ _); auto.
  - unfold handleRename. destruct (String.eqb (trim localItemName) ""); [auto|].
    destruct (isRenamingItem (ui s)) as [[rid rtype]|]; [|auto].
    destruct (String.eqb rtype "photo").
    + destruct (put_found _ _ _); auto.
    + destruct (String.eqb rtype "album"); auto.
Qed.

Lemma option_string_eqb_refl (a : option string) : option_string_eqb a a = true.
Proof. destruct a; simpl; [apply String.eqb_refl | reflexivity]. Qed.

(** X20: the comparison given to [memo] does not see a rename, a removal
    from an album or an album deletion.  After such a step the gallery has
    a photo at every position it had one, and comparing the props of the
    photo that was there with those of the photo that is there answers
    [true] (nothing changed): the comparison reads [id], [fileId], the
    selection and the drag marker only, not the name or the albums. *)
Theorem X20_changed_photos_compare_equal o s n p :
  keeps_tile_props o = true ->
  nth_error (photos s) n = Some p ->
  exists p',
    nth_error (photos (step o s)) n = Some p' /\
    arePropsEqual (photoItemProps s p) (photoItemProps (step o s) p') = true.
Proof.
  intros Hop Hn.
  assert (is_metadata_op o = true) as Hmeta by (destruct o; simpl in *; congruence).
  destruct (metadata_op_shape o s Hmeta) as (f & w & Hid & Hph & _).
  destruct (keeps_tile_props_ui o s Hop) as (Hsel & Hitems & Hdrag).
  exists (f p). split; [rewrite Hph, nth_error_map, Hn; reflexivity|].
  specialize (Hid p). unfold identity_of in Hid. inversion Hid as [[H1 H2 H3 H4 H5]].
  unfold arePropsEqual, photoItemProps. simpl.
  rewrite H1, H2, Hsel, Hitems, Hdrag, !String.eqb_refl, !eqb_reflx, option_string_eqb_refl.
  reflexivity.
Qed.

Lemma X20_changed_photos_compare_equal_witness :
  let s := set_ui (ui_set_isRenamingItem (Some ("id-1", "photo")) (ui two_items)) two_items in
  let o := OpRename true "sunset.png" in
  let p := newPhoto "all" sample_image env_1 in
  (keeps_tile_props o = true /\ nth_error (photos s) 0 = Some p) /\
  nth_error (photos (step o s)) 0 = Some (with_name "sunset.png" p) /\
  photo_name p = "beach.png" /\
  arePropsEqual (photoItemProps s p) (photoItemProps (step o s) (with_name "sunset.png" p))
    = true.
Proof.
  intros s o p.
  assert (nth_error (photos s) 0 = Some p) as Hn by reflexivity.
  destruct (X20_changed_photos_compare_equal o s 0 p eq_refl Hn) as (p' & Hp' & Heq).
  assert (nth_error (photos (step o s)) 0 = Some (with_name "sunset.png" p)) as Hnew
    by (vm_compute; reflexivity).
  rewrite Hnew in Hp'. inversion Hp'; subst p'.
  split; [split; [reflexivity | exact Hn]|]. split; [exact Hnew|]. split; [reflexivity | exact Heq].
Defined.

(** ** The albums offered by the context menu *)

(** X21: the context menu offers a photo the albums that are not the
    default one and that it is not in.  Adding the photo to an offered
    album, the write committing, puts the updated photo in the gallery with
    that album among its albums; the album is then no longer offered for it
    and every other offer stays. *)
Theorem X21_offered_album_is_taken s p a :
  In p (photos s) ->
  In a (offeredAlbums s p) ->
  album_id a <> "all" ->
  dbRef s = true ->
  let s' := handleAddToAlbum true (photo_id p) (album_id a) s in
  let p' := add_album (photo_id p) (album_id a) p in
  album_isDefault a = false /\
  has_album p (album_id a) = false /\
  In p' (photos s') /\ has_album p' (album_id a) = true /\
  ~ In a (offeredAlbums s' p') /\
  (forall b, album_id b <> album_id a ->
     (In b (offeredAlbums s' p') <-> In b (offeredAlbums s p))).
Proof.
  intros Hp Ha Hne Hdb s' p'.
  apply filter_In in Ha as [Ha Hoff]. apply andb_true_iff in Hoff as [Hdef Hout].
  apply negb_true_iff in Hdef, Hout.
  assert (p' = with_albums (albums_or_empty p ++ [album_id a]) p) as Hp'.
  { subst p'. unfold add_album. rewrite String.eqb_refl, Hout. reflexivity. }
  assert (photos s' = List.map (add_album (photo_id p) (album_id a)) (photos s) /\
          albums s' = albums s) as [Hph Hal].
  { subst s'. unfold handleAddToAlbum. apply String.eqb_neq in Hne. rewrite Hne.
    unfold put_found. rewrite Hdb. simpl.
    destruct (find_photo _ _); split; reflexivity. }
  assert (forall b, has_album p' (album_id b) =
                    has_album p (album_id b) || String.eqb (album_id b) (album_id a)) as Hhas.
  { intros b. rewrite Hp'. unfold has_album at 1. simpl. unfold Array_includes.
    rewrite existsb_app. simpl. rewrite orb_false_r.
    unfold has_album, albums_or_empty. destruct (photo_albums p); reflexivity. }
  split; [exact Hdef|]. split; [exact Hout|]. split; [|split; [|split]].
  - rewrite Hph. apply in_map. exact Hp.
  - rewrite Hhas, String.eqb_refl. apply orb_true_r.
  - unfold offeredAlbums. rewrite Hal, filter_In, Hhas, String.eqb_refl, orb_true_r.
    simpl. rewrite andb_false_r. intros [_ H]. discriminate.
  - intros b Hb. unfold offeredAlbums. rewrite Hal, !filter_In, Hhas.
    apply String.eqb_neq in Hb. rewrite Hb, orb_false_r. reflexivity.
Qed.

Lemma X21_offered_album_is_taken_witness :
  let p := newPhoto "all" sample_video env_2 in
  let a := mkAlbum "album-1" "Trip" false (Some "2024-02-01T12:00:00.000Z") in
  let s' := handleAddToAlbum true "id-2" "album-1" three_items in
  (In p (photos three_items) /\ In a (offeredAlbums three_items p) /\
   album_id a <> "all" /\ dbRef three_items = true) /\
  List.map album_id (offeredAlbums three_items p) = ["album-1"; "album-2"] /\
  List.map album_id (offeredAlbums s' (add_album "id-2" "album-1" p)) = ["album-2"].
Proof.
  intros p a s'.
  assert (In p (photos three_items)) as H1 by (right; left; reflexivity).
  assert (In a (offeredAlbums three_items p)) as H2 by (left; reflexivity).
  assert (album_id a <> "all") as H3 by discriminate.
  destruct (X21_offered_album_is_taken three_items p a H1 H2 H3 eq_refl) as (_ & _ & Hin & _).
  split; [repeat split; assumption|]. split; vm_compute; reflexivity.
Defined.

(** ** Loading the gallery from the store *)

Lemma key_le_total {V} : Total (@key_le V).
Proof.
  intros a b. unfold key_le.
  destruct (String.leb_total (fst a) (fst b)) as [H | H]; rewrite H; [left | right]; exact I.
Qed.

Lemma Sorted_map {A B} (R : A -> A -> Prop) (R' : B -> B -> Prop) (f : A -> B) (l : list A) :
  (forall x y, In x l -> In y l -> R x y -> R' (f x) (f y)) ->
  Sorted R l -> Sorted R' (List.map f l).
Proof.
  induction l as [|x l IH]; intros Himp Hs; simpl; [constructor|].
  apply Sorted_inv in Hs as [Hs Hhd]. constructor.
  - apply IH; [|exact Hs]. intros a b Ha Hb. apply Himp; right; assumption.
  - destruct l as [|y l]; simpl; constructor.
    apply HdRel_inv in Hhd. apply Himp; [left; reflexivity | right; left; reflexivity | exact Hhd].
Qed.

Lemma getAll_entries {V} (m : gmap string V) :
  exists entries : list (string * V),
    getAll m = List.map snd entries /\
    Permutation entries (map_to_list m) /\
    Sorted key_le entries.
Proof.
  exists (merge_sort key_le (map_to_list m)). split; [reflexivity|]. split.
  - apply merge_sort_Permutation.
  - apply Sorted_merge_sort. apply key_le_total.
Qed.

(** X22: [setupDB] loads the gallery from the "photos" store.  When the
    database opens and the read succeeds, with the store keyed by the [id]
    of its records, the gallery then holds exactly the stored records, each
    identifier once, in ascending order of the identifiers, whatever it held
    before.  When the database opens and the read fails, the handle of the
    database has been assigned all the same and the gallery is left as it
    was.  When the database does not open, nothing changes.  In every case
    the two stores, the albums and the selected view are left alone. *)
Theorem X22_setupDB_loads_the_store openOk readOk s :
  keyed_by_id s ->
  let s' := setupDB openOk readOk s in
  (openOk = true -> readOk = true ->
     dbRef s' = true /\
     (forall p, In p (photos s') <-> exists k, photosStore s !! k = Some p) /\
     NoDup (List.map photo_id (photos s')) /\
     Sorted id_le (photos s')) /\
  (openOk = true -> readOk = false -> dbRef s' = true /\ s' = set_dbRef true s) /\
  (openOk = false -> s' = s) /\
  photosStore s' = photosStore s /\ filesStore s' = filesStore s /\
  albums s' = albums s /\ selectedView s' = selectedView s.
Proof.
  intros Hkey s'. subst s'.
  split; [|split; [|split]].
  - intros -> ->. unfold setupDB. simpl.
    destruct (getAll_entries (photosStore s)) as (entries & Hall & Hperm & Hsorted).
    assert (forall kv, In kv entries -> photo_id (snd kv) = fst kv) as Hkv.
    { intros [k p] Hin. apply (Permutation_in _ Hperm), list_elem_of_In in Hin.
      apply elem_of_map_to_list in Hin. exact (Hkey _ _ Hin). }
    split; [reflexivity|]. split; [apply getAll_In|]. split.
    + rewrite Hall, map_map.
      rewrite (map_ext_in _ fst) by exact Hkv.
      rewrite (Permutation_map fst Hperm). apply NoDup_fst_map_to_list.
    + rewrite Hall. apply (Sorted_map key_le); [|exact Hsorted].
      intros x y Hx Hy Hle. unfold id_le. rewrite (Hkv x Hx), (Hkv y Hy). exact Hle.
  - intros -> ->. split; reflexivity.
  - intros ->. reflexivity.
  - unfold setupDB. destruct openOk, readOk; simpl; auto.
Qed.

Lemma X22_setupDB_loads_the_store_witness :
  let s := set_photos [] three_items in
  keyed_by_id s /\
  List.map photo_id (photos (setupDB true true s)) = ["id-1"; "id-2"; "id-3"] /\
  NoDup (List.map photo_id (photos (setupDB true true s))) /\
  Sorted id_le (photos (setupDB true true s)) /\
  dbRef initial_state = false /\ dbRef (setupDB true false initial_state) = true.
Proof.
  intros s.
  assert (keyed_by_id s) as Hkey.
  { assert (keyed_by_id initial_state) as H1.
    { intros k p Hk. unfold initial_state in Hk. cbn [photosStore] in Hk.
      rewrite lookup_empty in Hk. discriminate. }
    assert (shown_are_stored initial_state) as H2 by (intros p []).
    pose proof (stored_step (OpUpload true [(sample_image, env_1); (sample_video, env_2)])
                  initial_state H1 H2) as [H3 H4].
    pose proof (stored_step (OpUpload true [(sample_pdf, env_3)]) _ H3 H4) as [H5 H6].
    pose proof (stored_step (OpCreateAlbum "album-1" "2024-02-01T12:00:00.000Z" true "Trip")
                  _ H5 H6) as [H7 H8].
    pose proof (stored_step (OpCreateAlbum "album-2" "2024-03-05T08:00:00.000Z" true "Family")
                  _ H7 H8) as [H9 _].
    exact H9. }
  destruct (X22_setupDB_loads_the_store true true s Hkey) as (Hload & _).
  destruct (Hload eq_refl eq_refl) as (_ & _ & Hnd & Hsorted).
  split; [exact Hkey|]. split; [vm_compute; reflexivity|].
  split; [exact Hnd|]. split; [exact Hsorted|]. split; reflexivity.
Defined.

(** X23: what a batch with one failed payload leaves behind.  A payload of
    the batch whose two writes succeeded has its record in the "photos"
    store, yet the gallery does not show it, since the failure of another
    payload keeps the whole batch out of the photo list; it appears when
    [setupDB] next loads the gallery from the store. *)
Theorem X23_saved_but_shown_only_after_reload initOk files s file e :
  dbRef s || initOk = true ->
  NoDup (List.map (fun fe => gen_id (snd fe)) files) ->
  In (file, e) files ->
  file_put_ok e = true -> photo_put_ok e = true ->
  (exists file' e', In (file', e') files /\ file_put_ok e' && photo_put_ok e' = false) ->
  (forall p, In p (photos s) -> photo_id p <> gen_id e) ->
  let s' := handleFileUpload initOk files s in
  let p := newPhoto (selectedView s) file e in
  photosStore s' !! gen_id e = Some p /\
  ~ In p (photos s') /\
  reports_failure s s' /\
  In p (photos (setupDB true true s')).
Proof.
  intros Hdb Hnd Hin Hok1 Hok2 Hbad Hfresh s' p.
  assert (files <> []) as Hne by (intros ->; destruct Hin).
  destruct (upload_all (selectedView s) files (filesStore s) (photosStore s))
    as [[fs ps] rs] eqn:Hrun.
  pose proof (handleFileUpload_run initOk files s fs ps rs Hne Hdb Hrun) as Hs'. fold s' in Hs'.
  destruct (upload_all_inv _ _ _ _ _ _ _ Hrun) as (_ & _ & _ & _ & _ & Hnone).
  apply Hnone, Promise_all_None in Hbad. rewrite Hbad in Hs'.
  destruct (upload_all_lookup _ _ _ _ _ _ _ Hrun Hnd) as [_ Hmine].
  destruct (Hmine file e Hin) as [_ Hp]. rewrite Hok1, Hok2 in Hp. simpl in Hp.
  assert (photosStore s' !! gen_id e = Some p) as Hstored by (rewrite Hs'; exact Hp).
  split; [exact Hstored|]. split; [|split].
  - rewrite Hs'. simpl. intros Hshown. exact (Hfresh p Hshown eq_refl).
  - rewrite Hs'. left. simpl. apply app_one_neq.
  - unfold setupDB. simpl. apply getAll_In. eauto.
Qed.

Lemma X23_saved_but_shown_only_after_reload_witness :
  let files := [(sample_image, env_1); (sample_video, env_meta_fails)] in
  let s' := handleFileUpload true files initial_state in
  (dbRef initial_state || true = true /\
   NoDup (List.map (fun fe => gen_id (snd fe)) files) /\
   In (sample_image, env_1) files /\
   (exists file' e', In (file', e') files /\ file_put_ok e' && photo_put_ok e' = false)) /\
  photos s' = [] /\
  List.map photo_id (photos (setupDB true true s')) = ["id-1"] /\
  In (newPhoto "all" sample_image env_1) (photos (setupDB true true s')).
Proof.
  intros files s'.
  assert (NoDup (List.map (fun fe => gen_id (snd fe)) files)) as Hnd.
  { simpl. apply NoDup_cons. split.
    - intros H. apply list_elem_of_In in H. destruct H as [H | []]. discriminate.
    - apply NoDup_cons. split; [apply not_elem_of_nil | apply NoDup_nil; exact I]. }
  assert (In (sample_image, env_1) files) as Hin by (left; reflexivity).
  assert (exists file' e', In (file', e') files /\ file_put_ok e' && photo_put_ok e' = false)
    as Hbad by (exists sample_video, env_meta_fails; split; [right; left|]; reflexivity).
  destruct (X23_saved_but_shown_only_after_reload true files initial_state sample_image env_1
              eq_refl Hnd Hin eq_refl eq_refl Hbad (fun p (H : In p []) => match H with end))
    as (_ & _ & _ & Hreload).
  split; [repeat split; assumption|].
  split; [vm_compute; reflexivity|]. split; [vm_compute; reflexivity | exact Hreload].
Defined.
